(** * preprocess.py: the census extractor, embedded and verified

    A shallow embedding of [Processor] of [src/preprocess.py]: the
    zoned-decimal convertor, the per-year field extraction, the collection
    loop, the scale filter and the ROC SIC to ISIC mapping.

    Conventions of the embedding.
    - A Python [str] is a [string] that holds its UTF-8 bytes. Every
      character of a census record is ASCII, since [collect_data] decodes
      with [decode('ascii', 'ignore')]: there a character is a byte, and
      the slices of the fields are taken on bytes. Folder names and the
      codes of the reference sheet may hold any character: folder names
      are cut by characters, and [int] and [isnumeric] read code points,
      with the digits, numbers and white space of Unicode 14.0, the
      version of CPython 3.11.
    - A pandas [Series] is a [list] (its index is always [0..n-1] in this
      program), a [DataFrame] a list of row records.
    - An [int64] is a [Z] kept in range by [wrap64] after each operation.
    - A method is a computation in the monad [M]: it reads and writes the
      processor and the store of frames, appends to the output, and either
      returns or raises. *)

From stdpp Require Import base numbers option list sorting strings gmap.
From Stdlib Require Import Ascii ZArith Lia.

Local Open Scope Z_scope.

(** ** Python exceptions *)

Inductive exn :=
| KeyError            (* [series[0]] on an empty Series, [d['Else']] on a dict without it *)
| InvalidLiteral      (* ValueError: invalid literal for int() with base 10 *)
| TooManyDigits       (* ValueError: Exceeds the limit (4300 digits) for integer string conversion *)
| OverflowError       (* Python int too large to convert to int64 *)
| NaNInFrame          (* TypeError/ValueError of [pd.DataFrame(rows, columns=[..])] when a row is NaN *)
| UnboundLocalError   (* a local read on a path that never assigned it *)
| AttributeError      (* a method looked up on [None] *)
| NoneSubscript       (* TypeError: 'NoneType' object is not subscriptable *)
| LengthMismatch      (* ValueError of [df.columns = [...]] with another number of columns *)
| FileNotFoundError.  (* [listdir] of a folder that does not exist *)

Inductive result (A : Type) :=
| Ok (a : A)
| Raise (e : exn).
Arguments Ok {A} a.
Arguments Raise {A} e.

Global Instance exn_eq_dec : EqDecision exn.
Proof. solve_decision. Defined.
Global Instance result_eq_dec `{EqDecision A} : EqDecision (result A).
Proof. solve_decision. Defined.

Global Instance result_ret : MRet result := λ A a, Ok a.
Global Instance result_bind : MBind result := λ A B k r,
  match r with
  | Ok a => k a
  | Raise e => Raise e
  end.

(** ** Python strings *)

Definition chars : string → list ascii := String.list_ascii_of_string.
Definition str : list ascii → string := String.string_of_list_ascii.

(** [len(s)] *)
Definition len (s : string) : Z := Z.of_nat (length (chars s)).

(** The index adjustment of a slice bound (step 1): a negative bound counts
    from the end, and every bound is clamped to [0..len]. *)
Definition slice_index (n i : Z) : Z :=
  if i <? 0 then Z.max (i + n) 0 else Z.min i n.

(** [s[start:stop]], which is what [Series.str.slice(start, stop)] applies
    to each element; [None] is an omitted bound. *)
Definition str_slice (start stop : option Z) (s : string) : string :=
  let cs := chars s in
  let n := Z.of_nat (length cs) in
  let a := from_option (slice_index n) 0 start in
  let b := from_option (slice_index n) n stop in
  str (take (Z.to_nat (b - a)) (drop (Z.to_nat a) cs)).

(** *** Characters *)

(** The code of a byte. *)
Definition ord (c : ascii) : Z := Z.of_N (N_of_ascii c).

(** [chr] of a code below 256. *)
Definition chr (code : Z) : ascii := ascii_of_N (Z.to_N code).

(** A character of a [str] is a byte that is not a continuation byte
    (10xxxxxx) together with the continuation bytes that follow it. *)
Definition is_continuation (c : ascii) : bool :=
  let code := Z.of_N (N_of_ascii c) in (128 <=? code) && (code <? 192).

(** The bits of a code point that the first byte of its character holds. *)
Definition lead_bits (code : Z) : Z :=
  if code <? 128 then code
  else if code <? 224 then code - 192
  else if code <? 240 then code - 224
  else code - 240.

(** The code points after the one being read, [cur]: each continuation
    byte adds six bits to it. *)
Fixpoint code_points_from (cur : Z) (cs : list ascii) : list Z :=
  match cs with
  | [] => [cur]
  | c :: cs' =>
      if is_continuation c then code_points_from (cur * 64 + (ord c - 128)) cs'
      else cur :: code_points_from (lead_bits (ord c)) cs'
  end.

(** The code points of the characters of a [str]. *)
Definition code_points (s : string) : list Z :=
  match chars s with
  | [] => []
  | c :: cs => code_points_from (lead_bits (ord c)) cs
  end.

Definition in_ranges (ranges : list (Z * Z)) (code : Z) : bool :=
  existsb (λ r, (r.1 <=? code) && (code <=? r.2)) ranges.

(** The code points with a numeric value (Numeric_Type Decimal, Digit or
    Numeric), which are those that [str.isnumeric] accepts. *)
Definition numeric_ranges : list (Z * Z) :=
  [
    (48, 57); (178, 179); (185, 185); (188, 190); (1632, 1641);
    (1776, 1785); (1984, 1993); (2406, 2415); (2534, 2543); (2548, 2553);
    (2662, 2671); (2790, 2799); (2918, 2927); (2930, 2935); (3046, 3058);
    (3174, 3183); (3192, 3198); (3302, 3311); (3416, 3422); (3430, 3448);
    (3558, 3567); (3664, 3673); (3792, 3801); (3872, 3891); (4160, 4169);
    (4240, 4249); (4969, 4988); (5870, 5872); (6112, 6121); (6128, 6137);
    (6160, 6169); (6470, 6479); (6608, 6618); (6784, 6793); (6800, 6809);
    (6992, 7001); (7088, 7097); (7232, 7241); (7248, 7257); (8304, 8304);
    (8308, 8313); (8320, 8329); (8528, 8578); (8581, 8585); (9312, 9371);
    (9450, 9471); (10102, 10131); (11517, 11517); (12295, 12295); (12321, 12329);
    (12344, 12346); (12690, 12693); (12832, 12841); (12872, 12879); (12881, 12895);
    (12928, 12937); (12977, 12991); (13317, 13317); (13443, 13443); (14378, 14378);
    (15181, 15181); (19968, 19968); (19971, 19971); (19975, 19975); (19977, 19977);
    (20061, 20061); (20108, 20108); (20116, 20116); (20118, 20118); (20159, 20160);
    (20191, 20191); (20200, 20200); (20237, 20237); (20336, 20336); (20740, 20740);
    (20806, 20806); (20841, 20841); (20843, 20843); (20845, 20845); (21313, 21313);
    (21315, 21317); (21324, 21324); (21441, 21444); (22235, 22235); (22769, 22769);
    (22777, 22777); (24186, 24186); (24318, 24319); (24332, 24334); (24336, 24336);
    (25342, 25342); (25420, 25420); (26578, 26578); (28422, 28422); (29590, 29590);
    (30334, 30334); (32902, 32902); (33836, 33836); (36014, 36014); (36019, 36019);
    (36144, 36144); (38433, 38433); (38470, 38470); (38476, 38476); (38520, 38520);
    (38646, 38646); (42528, 42537); (42726, 42735); (43056, 43061); (43216, 43225);
    (43264, 43273); (43472, 43481); (43504, 43513); (43600, 43609); (44016, 44025);
    (63851, 63851); (63859, 63859); (63864, 63864); (63922, 63922); (63953, 63953);
    (63955, 63955); (63997, 63997); (65296, 65305); (65799, 65843); (65856, 65912);
    (65930, 65931); (66273, 66299); (66336, 66339); (66369, 66369); (66378, 66378);
    (66513, 66517); (66720, 66729); (67672, 67679); (67705, 67711); (67751, 67759);
    (67835, 67839); (67862, 67867); (68028, 68029); (68032, 68047); (68050, 68095);
    (68160, 68168); (68221, 68222); (68253, 68255); (68331, 68335); (68440, 68447);
    (68472, 68479); (68521, 68527); (68858, 68863); (68912, 68921); (69216, 69246);
    (69405, 69414); (69457, 69460); (69573, 69579); (69714, 69743); (69872, 69881);
    (69942, 69951); (70096, 70105); (70113, 70132); (70384, 70393); (70736, 70745);
    (70864, 70873); (71248, 71257); (71360, 71369); (71472, 71483); (71904, 71922);
    (72016, 72025); (72784, 72812); (73040, 73049); (73120, 73129); (73664, 73684);
    (74752, 74862); (92768, 92777); (92864, 92873); (93008, 93017); (93019, 93025);
    (93824, 93846); (119520, 119539); (119648, 119672); (120782, 120831); (123200, 123209);
    (123632, 123641); (125127, 125135); (125264, 125273); (126065, 126123); (126125, 126127);
    (126129, 126132); (126209, 126253); (126255, 126269); (127232, 127244); (130032, 130041);
    (131073, 131073); (131172, 131172); (131298, 131298); (131361, 131361); (133418, 133418);
    (133507, 133507); (133516, 133516); (133532, 133532); (133866, 133866); (133885, 133885);
    (133913, 133913); (140176, 140176); (141720, 141720); (146203, 146203); (156269, 156269);
    (194704, 194704) ].

(** The code points of the digit zero of every script with decimal digits
    (General_Category Nd); the nine code points after each are its digits
    one to nine. *)
Definition decimal_zeros : list Z :=
  [
    48; 1632; 1776; 1984; 2406; 2534; 2662; 2790;
    2918; 3046; 3174; 3302; 3430; 3558; 3664; 3792;
    3872; 4160; 4240; 6112; 6160; 6470; 6608; 6784;
    6800; 6992; 7088; 7232; 7248; 42528; 43216; 43264;
    43472; 43504; 43600; 44016; 65296; 66720; 68912; 69734;
    69872; 69942; 70096; 70384; 70736; 70864; 71248; 71360;
    71472; 71904; 72016; 72784; 73040; 73120; 92768; 92864;
    93008; 120782; 120792; 120802; 120812; 120822; 123200; 123632;
    125264; 130032 ].

(** White space beyond ASCII. *)
Definition space_ranges : list (Z * Z) :=
  [
    (133, 133); (160, 160); (5760, 5760); (8192, 8202); (8232, 8233);
    (8239, 8239); (8287, 8287); (12288, 12288) ].

(** [Py_UNICODE_IS    (48, 57); (178, 179); (185, 185); (188, 190); (1632, 1641);
    (1776, 1785); (1984, 1993); (2406, 2415); (2534, 2543); (2548, 2553);
    (2662, 2671); (2790, 2799); (2918, 2927); (2930, 2935); (3046, 3058);
    (3174, 3183); (3192, 3198); (3302, 3311); (3416, 3422); (3430, 3448);
    (3558, 3567); (3664, 3673); (3792, 3801); (3872, 3891); (4160, 4169);
    (4240, 4249); (4969, 4988); (5870, 5872); (6112, 6121); (6128, 6137);
    (6160, 6169); (6470, 6479); (6608, 6618); (6784, 6793); (6800, 6809);
    (6992, 7001); (7088, 7097); (7232, 7241); (7248, 7257); (8304, 8304);
    (8308, 8313); (8320, 8329); (8528, 8578); (8581, 8585); (9312, 9371);
    (9450, 9471); (10102, 10131); (11517, 11517); (12295, 12295); (12321, 12329);
    (12344, 12346); (12690, 12693); (12832, 12841); (12872, 12879); (12881, 12895);
    (12928, 12937); (12977, 12991); (13317, 13317); (13443, 13443); (14378, 14378);
    (15181, 15181); (19968, 19968); (19971, 19971); (19975, 19975); (19977, 19977);
    (20061, 20061); (20108, 20108); (20116, 20116); (20118, 20118); (20159, 20160);
    (20191, 20191); (20200, 20200); (20237, 20237); (20336, 20336); (20740, 20740);
    (20806, 20806); (20841, 20841); (20843, 20843); (20845, 20845); (21313, 21313);
    (21315, 21317); (21324, 21324); (21441, 21444); (22235, 22235); (22769, 22769);
    (22777, 22777); (24186, 24186); (24318, 24319); (24332, 24334); (24336, 24336);
    (25342, 25342); (25420, 25420); (26578, 26578); (28422, 28422); (29590, 29590);
    (30334, 30334); (32902, 32902); (33836, 33836); (36014, 36014); (36019, 36019);
    (36144, 36144); (38433, 38433); (38470, 38470); (38476, 38476); (38520, 38520);
    (38646, 38646); (42528, 42537); (42726, 42735); (43056, 43061); (43216, 43225);
    (43264, 43273); (43472, 43481); (43504, 43513); (43600, 43609); (44016, 44025);
    (63851, 63851); (63859, 63859); (63864, 63864); (63922, 63922); (63953, 63953);
    (63955, 63955); (63997, 63997); (65296, 65305); (65799, 65843); (65856, 65912);
    (65930, 65931); (66273, 66299); (66336, 66339); (66369, 66369); (66378, 66378);
    (66513, 66517); (66720, 66729); (67672, 67679); (67705, 67711); (67751, 67759);
    (67835, 67839); (67862, 67867); (68028, 68029); (68032, 68047); (68050, 68095);
    (68160, 68168); (68221, 68222); (68253, 68255); (68331, 68335); (68440, 68447);
    (68472, 68479); (68521, 68527); (68858, 68863); (68912, 68921); (69216, 69246);
    (69405, 69414); (69457, 69460); (69573, 69579); (69714, 69743); (69872, 69881);
    (69942, 69951); (70096, 70105); (70113, 70132); (70384, 70393); (70736, 70745);
    (70864, 70873); (71248, 71257); (71360, 71369); (71472, 71483); (71904, 71922);
    (72016, 72025); (72784, 72812); (73040, 73049); (73120, 73129); (73664, 73684);
    (74752, 74862); (92768, 92777); (92864, 92873); (93008, 93017); (93019, 93025);
    (93824, 93846); (119520, 119539); (119648, 119672); (120782, 120831); (123200, 123209);
    (123632, 123641); (125127, 125135); (125264, 125273); (126065, 126123); (126125, 126127);
    (126129, 126132); (126209, 126253); (126255, 126269); (127232, 127244); (130032, 130041);
    (131073, 131073); (131172, 131172); (131298, 131298); (131361, 131361); (133418, 133418);
    (133507, 133507); (133516, 133516); (133532, 133532); (133866, 133866); (133885, 133885);
    (133913, 133913); (140176, 140176); (141720, 141720); (146203, 146203); (156269, 156269);
    (194704, 194704)] *)
Definition unicode_isnumeric (code : Z) : bool := in_ranges numeric_ranges code.

(** [Py_UNICODE_TODECIMAL]: the value of a decimal digit. *)
Definition unicode_todecimal (code : Z) : option Z :=
  (λ zero, code - zero)
    <$> List.find (λ zero, (zero <=? code) && (code <=? zero + 9)) decimal_zeros.

(** [Py_UNICODE_IS    (133, 133); (160, 160); (5760, 5760); (8192, 8202); (8232, 8233);
    (8239, 8239); (8287, 8287); (12288, 12288)], for a code point from 127 on. *)
Definition unicode_isspace (code : Z) : bool := in_ranges space_ranges code.

(** *** [int(s)] *)

(** The value of a decimal digit: the characters 48 to 57. *)
Definition digit_val (c : ascii) : option Z :=
  let code := Z.of_N (N_of_ascii c) in
  if (48 <=? code) && (code <=? 57) then Some (code - 48) else None.

(** White space for the parser of [int()]: TAB..CR and the space. *)
Definition is_space (c : ascii) : bool :=
  match c with
  | "009" | "010" | "011" | "012" | "013" | " " => true
  | _ => false
  end%char.

Fixpoint lstrip (cs : list ascii) : list ascii :=
  match cs with
  | c :: cs' => if is_space c then lstrip cs' else cs
  | [] => []
  end.

(** The digits at the head of [cs], with single underscores allowed
    between two digits: their value, their number and what follows them.
    [None] when an underscore follows an underscore or ends the digits. *)
Fixpoint int_digits (acc digits : Z) (after_underscore : bool) (cs : list ascii)
  : option (Z * Z * list ascii) :=
  match cs with
  | [] => if after_underscore then None else Some (acc, digits, [])
  | c :: cs' =>
      match digit_val c with
      | Some d => int_digits (10 * acc + d) (digits + 1) false cs'
      | None =>
          if bool_decide (c = "_"%char) then
            if after_underscore then None else int_digits acc digits true cs'
          else if after_underscore then None else Some (acc, digits, cs)
      end
  end.

(** [sys.get_int_max_str_digits()], by default *)
Definition int_max_str_digits : Z := 4300.

(** The parser behind [int()], base 10, on ASCII characters: white space,
    an optional sign, the digits, white space. More digits than the limit
    are refused as soon as they have been counted. *)
Definition PyLong_FromString (cs : list ascii) : result Z :=
  let cs := lstrip cs in
  let '(sign, cs) :=
    match cs with
    | "+"%char :: cs' => (1, cs')
    | "-"%char :: cs' => (-1, cs')
    | _ => (1, cs)
    end in
  match cs with
  | "_"%char :: _ => Raise InvalidLiteral
  | _ =>
      match int_digits 0 0 false cs with
      | None => Raise InvalidLiteral
      | Some (value, digits, rest) =>
          if int_max_str_digits <? digits then Raise TooManyDigits
          else if digits =? 0 then Raise InvalidLiteral
          else if bool_decide (lstrip rest = []) then Ok (sign * value)
          else Raise InvalidLiteral
      end
  end.

(** What [int()] makes of the characters of a [str] that is not ASCII
    before it parses: a character below 127 stays, white space becomes a
    space, a decimal digit of any script its ASCII digit, and the first
    other character becomes a question mark that ends the string. *)
Fixpoint decimal_and_space_to_ascii (codes : list Z) : list ascii :=
  match codes with
  | [] => []
  | code :: codes' =>
      if code <? 127 then chr code :: decimal_and_space_to_ascii codes'
      else if unicode_isspace code then " "%char :: decimal_and_space_to_ascii codes'
      else match unicode_todecimal code with
           | Some d => chr (48 + d) :: decimal_and_space_to_ascii codes'
           | None => ["?"%char]
           end
  end.

(** [int(s)] in base 10. An ASCII [str] is parsed as it is. *)
Definition int (s : string) : result Z :=
  if forallb (λ c, ord c <? 128) (chars s) then PyLong_FromString (chars s)
  else PyLong_FromString (decimal_and_space_to_ascii (code_points s)).

(** ** int64 *)

Definition int64_min : Z := - 2 ^ 63.
Definition int64_max : Z := 2 ^ 63 - 1.

Definition in_int64 (z : Z) : bool := (int64_min <=? z) && (z <=? int64_max).

(** Two's complement wrap-around of int64 arithmetic. *)
Definition wrap64 (z : Z) : Z := (z + 2 ^ 63) mod 2 ^ 64 - 2 ^ 63.

(** [series.astype('int64')] on a Series of [str]: [int()] on each element
    and the conversion of the result to int64; the first element that fails
    raises for the whole Series. *)
Definition to_int64 (s : string) : result Z :=
  z ← int s ;
  if in_int64 z then Ok z else Raise OverflowError.

Definition astype_int64 (series : list string) : result (list Z) :=
  mapM to_int64 series.

(** ** The zoned-decimal convertor *)

(** The dict literal [zd_map] of [__zd_convertor]: symbol to [sign, value]. *)
Definition zd_items : list (string * (Z * Z)) :=
    [ ("{", (1, 0)); ("}", (-1, 0));
      ("A", (1, 1)); ("J", (-1, 1));
      ("B", (1, 2)); ("K", (-1, 2));
      ("C", (1, 3)); ("L", (-1, 3));
      ("D", (1, 4)); ("M", (-1, 4));
      ("E", (1, 5)); ("N", (-1, 5));
      ("F", (1, 6)); ("O", (-1, 6));
      ("G", (1, 7)); ("P", (-1, 7));
      ("H", (1, 8)); ("Q", (-1, 8));
      ("I", (1, 9)); ("R", (-1, 9)) ].

Definition zd_map : gmap string (Z * Z) := list_to_map zd_items.

(** [pd.DataFrame(zdc_mapped.to_list(), columns=['sign','value'])]: a
    symbol that [map] did not find is NaN, and a NaN among the rows makes
    the constructor raise. *)
Fixpoint frame_of_pairs (mapped : list (option (Z * Z))) : result (list (Z * Z)) :=
  match mapped with
  | [] => Ok []
  | Some p :: l => ps ← frame_of_pairs l ; Ok (p :: ps)
  | None :: _ => Raise NaNInFrame
  end.

(** [(front_digits + tmp_df['value']) * tmp_df['sign']] on one row. *)
Definition zd_combine (front : Z) (sv : Z * Z) : Z :=
  wrap64 (wrap64 (front + sv.2) * sv.1).

Definition __zd_convertor (zd_format_series : list string) : result (list Z) :=
  match zd_format_series with
  | [] => Raise KeyError
  | first :: _ =>
      let n := len first in
      parsed ← astype_int64 (str_slice None (Some (n - 1)) <$> zd_format_series) ;
      let front_digits := (λ z, wrap64 (z * 10)) <$> parsed in
      let zd_code := str_slice (Some (n - 1)) None <$> zd_format_series in
      let zdc_mapped := (λ c, zd_map !! c) <$> zd_code in
      tmp_df ← frame_of_pairs zdc_mapped ;
      Ok (zip_with zd_combine front_digits tmp_df)
  end.

(** What the convertor computes for one element when the Series is split
    at position [p]. *)
Definition zd_element (p : Z) (s : string) : result Z :=
  v ← to_int64 (str_slice None (Some p) s) ;
  match zd_map !! str_slice (Some p) None s with
  | Some sv => Ok (zd_combine (wrap64 (v * 10)) sv)
  | None => Raise NaNInFrame
  end.

(** The convertor on one string: a Series of length one. *)
Definition zd_decode (s : string) : result Z :=
  match __zd_convertor [s] with
  | Ok (z :: _) => Ok z
  | Ok [] => Raise KeyError
  | Raise e => Raise e
  end.

(** ** Frames *)

(** One row of the frame that [collect_data] stores; the columns are
    named ['scale', 'primary', 'roc_sic', 'asset'] there. *)
Record ExtractedRow := {
  scale : string;
  primary : string;
  roc_sic : string;
  asset : Z
}.

(** A row once [sic_mapping] has added the column ['isic']. *)
Record AnnotatedRow := {
  row : ExtractedRow;
  isic : string
}.

Global Instance ExtractedRow_eq_dec : EqDecision ExtractedRow.
Proof. solve_decision. Defined.
Global Instance AnnotatedRow_eq_dec : EqDecision AnnotatedRow.
Proof. solve_decision. Defined.

(** A stored frame has four named columns, or five with ['isic']. *)
Inductive DataFrame :=
| Extracted (rows : list ExtractedRow)
| Annotated (rows : list AnnotatedRow).

Definition extracted_rows (df : DataFrame) : list ExtractedRow :=
  match df with
  | Extracted rows => rows
  | Annotated rows => row <$> rows
  end.

(** [pd.concat([scale, primary, primary_short, asset], axis=1)]: the four
    Series share the index [0..n-1], each becomes a column. *)
Fixpoint concat_columns (scale primary primary_short : list string) (asset : list Z)
  : list ExtractedRow :=
  match scale, primary, primary_short, asset with
  | s :: scale', p :: primary', ps :: short', a :: asset' =>
      {| scale := s; primary := p; roc_sic := ps; asset := a |}
        :: concat_columns scale' primary' short' asset'
  | _, _, _, _ => []
  end.

(** ** Field extraction *)

(** A folder name may hold characters beyond ASCII, as the folders of
    [main] do: the first [n] characters of it. *)
Fixpoint utf8_take (n : nat) (cs : list ascii) : list ascii :=
  match cs with
  | [] => []
  | c :: cs' =>
      if is_continuation c then c :: utf8_take n cs'
      else match n with
           | O => []
           | S n' => c :: utf8_take n' cs'
           end
  end.

(** [folder[:n]], by characters. *)
Definition folder_prefix (n : nat) (folder : string) : string :=
  str (utf8_take n (chars folder)).

(** [self.folder[:2]] *)
Definition year_prefix (folder : string) : string :=
  folder_prefix 2 folder.

Definition _extract (folder : string) (company_list : list string)
  : result (list ExtractedRow) :=
  let comps := company_list in
  if bool_decide (year_prefix folder = "85") then
    let scale := str_slice (Some 7) (Some 8) <$> comps in
    let primary := str_slice (Some 13) (Some 17) <$> comps in
    let primary_short := str_slice (Some 0) (Some 2) <$> primary in
    asset ← __zd_convertor (str_slice (Some 1138) (Some 1153) <$> comps) ;
    Ok (concat_columns scale primary primary_short asset)
  else if bool_decide (year_prefix folder = "90") then
    let scale := str_slice (Some 11) (Some 12) <$> comps in
    let primary := str_slice (Some 13) (Some 17) <$> comps in
    let primary_short := str_slice (Some 0) (Some 2) <$> primary in
    asset ← astype_int64 (str_slice (Some 1068) (Some 1083) <$> comps) ;
    Ok (concat_columns scale primary primary_short asset)
  else if bool_decide (year_prefix folder = "95") then
    let scale := str_slice (Some 1) (Some 2) <$> comps in
    let primary := str_slice (Some 2) (Some 6) <$> comps in
    let primary_short := str_slice (Some 0) (Some 2) <$> primary in
    asset ← __zd_convertor (str_slice (Some 245) (Some 260) <$> comps) ;
    Ok (concat_columns scale primary primary_short asset)
  else
    (* [scale] is read by the final [pd.concat] and was never assigned *)
    Raise UnboundLocalError.

(** ** The processor, the store and the method monad *)

(** [self]. [__data] is [None] or a reference to a frame of the store. *)
Record Processor := {
  upperlayer_folder : string;
  folder : string;
  _extracted : bool;
  __data : option nat
}.

Definition __warn_data_not_collected : string :=
  "Not yet processed, please collect the data first.".

(** [Processor(upperlayer_folder, folder)] *)
Definition __init__ (upperlayer_folder folder : string) : Processor :=
  {| upperlayer_folder := upperlayer_folder; folder := folder;
     _extracted := false; __data := None |}.

(** The processor and the frames it or its caller may hold a reference
    to: a reference is an index of [store], and a new frame is appended. *)
Record State := {
  self : Processor;
  store : list DataFrame
}.

Inductive Event :=
| Print (msg : string)
| PrintData (df : option DataFrame)         (* [print(self.__data)] *)
| PrintGroups (key : string) (sums : list (string * Z))
                                            (* [print(by_isic)]: the name of the
                                               first column, then the lines *)
| ToCsv (file : string) (df : DataFrame).   (* [df.to_csv(file, index=False)] *)

Record Run (A : Type) := {
  output : list Event;
  outcome : result A;
  final : State
}.
Arguments output {A} r.
Arguments outcome {A} r.
Arguments final {A} r.

Definition M (A : Type) : Type := State → Run A.

Global Instance M_ret : MRet M := λ A a st,
  {| output := []; outcome := Ok a; final := st |}.

Global Instance M_bind : MBind M := λ A B k m st,
  let r := m st in
  match outcome r with
  | Ok a =>
      let r' := k a (final r) in
      {| output := output r ++ output r'; outcome := outcome r'; final := final r' |}
  | Raise e => {| output := output r; outcome := Raise e; final := final r |}
  end.

Definition emit (e : Event) : M unit := λ st,
  {| output := [e]; outcome := Ok (); final := st |}.
Definition print (msg : string) : M unit := emit (Print msg).
Definition lift {A} (r : result A) : M A := λ st,
  {| output := []; outcome := r; final := st |}.
Definition raise {A} (e : exn) : M A := lift (Raise e).
Definition get_self : M Processor := λ st,
  {| output := []; outcome := Ok (self st); final := st |}.
Definition set_self (p : Processor) : M unit := λ st,
  {| output := []; outcome := Ok (); final := {| self := p; store := store st |} |}.
Definition get_store : M (list DataFrame) := λ st,
  {| output := []; outcome := Ok (store st); final := st |}.

(** A new frame object in the store; its reference is returned. *)
Definition alloc (df : DataFrame) : M nat := λ st,
  {| output := []; outcome := Ok (length (store st));
     final := {| self := self st; store := store st ++ [df] |} |}.

(** In-place update of the frame object at [l]. *)
Definition update (l : nat) (df : DataFrame) : M unit := λ st,
  {| output := []; outcome := Ok ();
     final := {| self := self st; store := <[l := df]> (store st) |} |}.

(** The frame behind [self.__data], for a subscript [self.__data[...]]. *)
Definition data_frame : M (nat * DataFrame) :=
  s ← get_self ;
  h ← get_store ;
  match __data s with
  | None => raise NoneSubscript
  | Some l =>
      match h !! l with
      | Some df => mret (l, df)
      | None => raise NoneSubscript
      end
  end.

Fixpoint foldM {A B} (f : B → A → M B) (b : B) (l : list A) : M B :=
  match l with
  | [] => mret b
  | a :: l' => b' ← f b a ; foldM f b' l'
  end.

(** ** The world outside: the data folder and the reference sheet *)

Record DirEntry := {
  name : string;
  is_file : bool;              (* [isfile(join(path, name))] *)
  content : list Byte.byte     (* what [open(.., 'rb').read()] returns *)
}.

(** A row of [Sheet2] of [ISIC_to_ROCSIC.xlsx], its three code-list
    columns after [astype('string')]. No cell is empty. *)
Record SicRow := {
  ISIC_Rev3 : string;
  ROCSIC_6 : string;
  ROCSIC_7 : string;
  ROCSIC_8 : string
}.

Record World := {
  getcwd : string;
  listdir : string → option (list DirEntry);   (* [None]: no such folder *)
  sic_tb : list SicRow                          (* [pd.read_excel(...)] *)
}.

(** ** More of Python's [str] *)

Definition backslash : ascii := "092"%char.
Definition dquote : string := String "034"%char "".
Definition newline : string := String "010"%char "".

(** [s.strip(c)] for a one-character [c] *)
Fixpoint lstrip_char (c : ascii) (cs : list ascii) : list ascii :=
  match cs with
  | c' :: cs' => if bool_decide (c' = c) then lstrip_char c cs' else cs
  | [] => []
  end.

Definition strip_char (c : ascii) (s : string) : string :=
  str (reverse (lstrip_char c (reverse (lstrip_char c (chars s))))).

(** [c in s] *)
Definition contains (c : ascii) (s : string) : bool :=
  bool_decide (c ∈ chars s).

(** [s.split(sep)] for a one-character [sep]; [cur] is the segment read
    so far, last character first. *)
Fixpoint split_go (sep : ascii) (cur : list ascii) (cs : list ascii) : list string :=
  match cs with
  | [] => [str (reverse cur)]
  | c :: cs' =>
      if bool_decide (c = sep)
      then str (reverse cur) :: split_go sep [] cs'
      else split_go sep (c :: cur) cs'
  end.

Definition split (sep : ascii) (s : string) : list string :=
  split_go sep [] (chars s).

(** [text.split("\r\n")] *)
Fixpoint split_crlf_go (cur : list ascii) (cs : list ascii) : list string :=
  match cs with
  | [] => [str (reverse cur)]
  | c :: cs' =>
      match cs' with
      | c' :: cs'' =>
          if bool_decide (c = "013"%char) && bool_decide (c' = "010"%char)
          then str (reverse cur) :: split_crlf_go [] cs''
          else split_crlf_go (c :: cur) cs'
      | [] => split_crlf_go (c :: cur) cs'
      end
  end.

Definition split_crlf (s : string) : list string :=
  split_crlf_go [] (chars s).

(** [raw.decode('ascii', 'ignore')]: the bytes above 127 are dropped. *)
Definition decode_ascii_ignore (raw : list Byte.byte) : string :=
  str (ascii_of_byte <$> filter (λ b, (Byte.to_nat b < 128)%nat) raw).

(** [l[:-1]] *)
Definition drop_last {A} (l : list A) : list A :=
  take (length l - 1) l.

(** [k.isnumeric()]: not empty, and every character has a numeric value. *)
Definition isnumeric (k : string) : bool :=
  let codes := code_points k in
  bool_decide (codes ≠ []) && forallb unicode_isnumeric codes.

(** ** Collection *)

Definition __slash_maker (s : Processor) : string :=
  let uf := strip_char "/" (strip_char backslash (upperlayer_folder s)) in
  let f := strip_char "/" (strip_char backslash (folder s)) in
  String backslash uf +:+ String backslash f +:+ String backslash "".

(** [data_out] during the loop of [collect_data]. *)
Inductive Collected :=
| NoFrame                                (* [None]: nothing stored, nothing read yet *)
| Stored (l : nat)                       (* the very object [self.__data] *)
| Fresh (rows : list ExtractedRow)       (* four unnamed columns, from [_extract] *)
| Wide.                                  (* named and unnamed columns side by side *)

(** [pd.concat([data_out, frame]).reset_index(drop=True)]: [None] is
    dropped; a stored frame has named columns and [frame] the columns
    [0..3], so their concatenation has the columns of both. *)
Definition concat_frames (data_out : Collected) (frame : list ExtractedRow) : Collected :=
  match data_out with
  | NoFrame => Fresh frame
  | Fresh rows => Fresh (rows ++ frame)
  | Stored _ | Wide => Wide
  end.

(** [data_out.columns = ['scale', 'primary', 'roc_sic', 'asset']]; the
    reference to the frame that now carries those names is returned. *)
Definition set_columns (data_out : Collected) : M nat :=
  match data_out with
  | NoFrame => raise AttributeError
  | Fresh rows => alloc (Extracted rows)
  | Stored l =>
      h ← get_store ;
      match h !! l with
      | Some (Extracted _) => mret l
      | _ => raise LengthMismatch
      end
  | Wide => raise LengthMismatch
  end.

Definition collect_file (fld : string) (data_out : Collected) (cur_file : DirEntry)
  : M Collected :=
  let text := decode_ascii_ignore (content cur_file) in
  let companies_raw := split_crlf text in
  let companies_raw := drop_last companies_raw in
  frame ← lift (_extract fld companies_raw) ;
  let data_out := concat_frames data_out frame in
  print ("File " +:+ name cur_file +:+ " finished.") ;;
  mret data_out.

Definition collect_data (w : World) : M unit :=
  s ← get_self ;
  if bool_decide (folder s = "") then
    print "Please specify a folder"
  else if bool_decide (year_prefix (folder s) ∉ ["85"; "90"; "95"]) then
    print "Destined year not yet finished."
  else
    print (newline +:+ "Start collection data from folder " +:+ dquote
             +:+ folder s +:+ dquote +:+ "...") ;;
    let path := getcwd w +:+ __slash_maker s in
    listing ← lift (from_option Ok (Raise FileNotFoundError) (listdir w path)) ;
    let target_files :=
      filter (λ f, is_file f = true ∧ contains "." (name f) = false) listing in
    let data_out := from_option Stored NoFrame (__data s) in
    data_out ← foldM (collect_file (folder s)) data_out target_files ;
    l ← set_columns data_out ;
    set_self {| upperlayer_folder := upperlayer_folder s; folder := folder s;
                _extracted := true; __data := Some l |} ;;
    print ("Data collection from folder " +:+ dquote +:+ folder s +:+ dquote
             +:+ " is completed.").

(** ** The filter *)

Definition apply_conditions (keep_original_data : bool)
    (conds : list (string * list string)) : M unit :=
  s ← get_self ;
  if negb (_extracted s) then
    print __warn_data_not_collected
  else
    '(_, df) ← data_frame ;
    (* cond1 = (self.__data['scale'] != "8"); the selection is a new frame *)
    l' ← alloc (match df with
                | Extracted rows => Extracted (filter (λ r, scale r ≠ "8") rows)
                | Annotated rows => Annotated (filter (λ r, scale (row r) ≠ "8") rows)
                end) ;
    set_self {| upperlayer_folder := upperlayer_folder s; folder := folder s;
                _extracted := _extracted s; __data := Some l' |}.

(** ** The mapping to ISIC *)

(** The body of the inner loop: the key under which [k] is stored.
    [int(k)] is only evaluated when [k.isnumeric()] holds, and raises when
    a character of [k] has a numeric value without being a decimal digit. *)
Definition pad_code (k : string) : result string :=
  if isnumeric k then
    v ← int k ;
    Ok (if v <? 10 then "0" +:+ k else k)
  else Ok k.

(** A loop whose body may raise. *)
Fixpoint fold_result {A B} (f : B → A → result B) (b : B) (l : list A) : result B :=
  match l with
  | [] => Ok b
  | a :: l' => b' ← f b a ; fold_result f b' l'
  end.

(** The two loops that fill [rocsic_to_isic]; a later assignment to the
    same key replaces the earlier one. *)
Definition add_codes (isic_code : string) (tb : gmap string string) (codes : list string)
  : result (gmap string string) :=
  fold_result (λ tb k, key ← pad_code k ; Ok (<[key := isic_code]> tb)) tb codes.

Definition build_table (code_of : SicRow → string) (sheet : list SicRow)
  : result (gmap string string) :=
  fold_result (λ tb r, add_codes (ISIC_Rev3 r) tb (split "," (code_of r))) ∅ sheet.

(** [series.map(rocsic_to_isic)]: an absent key gives NaN, here [None]. *)
Definition series_map (tb : gmap string string) (series : list string)
  : list (option string) :=
  (λ k, tb !! k) <$> series.

(** [series.fillna(value)] *)
Definition fillna (value : string) (series : list (option string)) : list string :=
  from_option id value <$> series.

(** The column of the sheet chosen by the year; [code_using] stays
    unassigned for any other year and the next line that reads it raises. *)
Definition code_column (folder : string) : result (SicRow → string) :=
  if bool_decide (year_prefix folder = "85") then Ok ROCSIC_6
  else if bool_decide (year_prefix folder = "90") then Ok ROCSIC_7
  else if bool_decide (year_prefix folder = "95") then Ok ROCSIC_8
  else Raise UnboundLocalError.

Definition sic_mapping (w : World) : M unit :=
  s ← get_self ;
  if negb (_extracted s) then
    print __warn_data_not_collected
  else
    let sic_tb := sic_tb w in
    code_using ← lift (code_column (folder s)) ;
    rocsic_to_isic ← lift (build_table code_using sic_tb) ;
    '(l, df) ← data_frame ;
    let mapped := series_map rocsic_to_isic (roc_sic <$> extracted_rows df) in
    default ← lift (from_option Ok (Raise KeyError) (rocsic_to_isic !! "Else")) ;
    let isic_column := fillna default mapped in
    update l (Annotated (zip_with (λ r c, {| row := r; isic := c |})
                                  (extracted_rows df) isic_column)).

(** ** Showing, handing out and exporting the data *)

Definition show_data : M unit :=
  s ← get_self ;
  if negb (_extracted s) then
    print __warn_data_not_collected
  else
    h ← get_store ;
    emit (PrintData (l ← __data s ; h !! l)).

(** The value returned is the reference held in [self.__data], or [None]. *)
Definition get_data : M (option nat) :=
  s ← get_self ;
  (if negb (_extracted s) then print __warn_data_not_collected else mret ()) ;;
  mret (__data s).

Definition output_CSV : M unit :=
  s ← get_self ;
  (if negb (_extracted s) then print __warn_data_not_collected else mret ()) ;;
  h ← get_store ;
  match l ← __data s ; h !! l with
  | None => raise AttributeError
  | Some df => emit (ToCsv (folder_prefix 3 (folder s) +:+ "_extracted.csv") df)
  end.

(** ** The sums by group *)

(** The int64 sum of a column. *)
Definition sum64 (column : list Z) : Z :=
  foldl (λ acc a, wrap64 (acc + a)) 0 column.

(** [df.groupby([key])['asset'].sum().reset_index()] on the pairs of key
    and asset: one line per distinct key, the keys in increasing order. *)
Definition groupby_sum (pairs : list (string * Z)) : list (string * Z) :=
  let keys := merge_sort String.le (remove_dups pairs.*1) in
  (λ k, (k, sum64 (filter (λ kv, kv.1 = k) pairs).*2)) <$> keys.

Definition some_analysis : M unit :=
  s ← get_self ;
  h ← get_store ;
  match l ← __data s ; h !! l with
  | None => raise AttributeError
  | Some df =>
      let by_rocsic := groupby_sum ((λ r, (roc_sic r, asset r)) <$> extracted_rows df) in
      match df with
      | Extracted rows =>
          (* no column ['isic'] yet: a list of keys that names no column
             and is as long as the frame is taken for the labels of its
             rows, and the index of the sums then has no name *)
          if bool_decide (length rows = 1%nat) then
            let by_isic := groupby_sum (zip ["isic"] (asset <$> rows)) in
            emit (PrintGroups "index" by_isic)
          else raise KeyError
      | Annotated rows =>
          let by_isic := groupby_sum ((λ r, (isic r, asset (row r))) <$> rows) in
          emit (PrintGroups "isic" by_isic)
      end
  end.

(** ** The driver *)

(** The body of the loop of [main], for one folder. *)
Definition main_body (w : World) (folder : string) : M unit :=
  set_self (__init__ "工商普查原始" folder) ;;
  collect_data w ;;
  sic_mapping w ;;
  let conds := [("scale", ["!="; "8"])] in
  apply_conditions false conds ;;
  some_analysis.

Definition main (w : World) : M unit :=
  let folders := ["85年AA290005"; "90年AA290006"; "95年AA290007"] in
  foldM (λ _ folder, main_body w folder) () folders.

(** ** Vocabulary of the statements *)

Definition is_digit (c : ascii) : Prop := is_Some (digit_val c).

(** The value of a string of decimal digits, most significant first. *)
Definition decimal (cs : list ascii) : Z :=
  foldl (λ acc c, 10 * acc + default 0 (digit_val c)) 0 cs.

(** The sign symbols in the order of the digit they stand for, 0 to 9. *)
Definition positive_symbols : list string :=
  ["{"; "A"; "B"; "C"; "D"; "E"; "F"; "G"; "H"; "I"].
Definition negative_symbols : list string :=
  ["}"; "J"; "K"; "L"; "M"; "N"; "O"; "P"; "Q"; "R"].

(** The value of decimal digits, most significant first. *)
Definition digits_value (ds : list Z) : Z :=
  foldl (λ acc d, 10 * acc + d) 0 ds.

(** The number that a string of decimal digits stands for: every
    character is a decimal digit, of any script, and there are between
    one and 4300 of them. *)
Definition decimal_value (k : string) : option Z :=
  ds ← mapM unicode_todecimal (code_points k) ;
  if bool_decide (ds ≠ [] ∧ Z.of_nat (length ds) ≤ int_max_str_digits)
  then Some (digits_value ds) else None.

(** The key of a code as the building rule words it: one "0" in front of
    a code of decimal digits whose value is under 10, and the code itself
    otherwise. *)
Definition padded (k : string) : string :=
  match decimal_value k with
  | Some v => if v <? 10 then "0" +:+ k else k
  | None => k
  end.

(** *** The schema table of the specification *)

Inductive Year := YearA | YearB | YearC.

Inductive Encoding := ZonedDecimal | PlainInteger.

(** A field is an offset (from 0) and a length. *)
Record Schema := {
  scale_field : nat * nat;
  primary_field : nat * nat;
  asset_field : nat * nat;
  asset_encoding : Encoding
}.

Definition schema_table (y : Year) : Schema :=
  match y with
  | YearA => {| scale_field := (7, 1); primary_field := (13, 4);
                asset_field := (1138, 15); asset_encoding := ZonedDecimal |}
  | YearB => {| scale_field := (11, 1); primary_field := (13, 4);
                asset_field := (1068, 15); asset_encoding := PlainInteger |}
  | YearC => {| scale_field := (1, 1); primary_field := (2, 4);
                asset_field := (245, 15); asset_encoding := ZonedDecimal |}
  end%nat.

(** Year A is ROC year 85, Year B is 90, Year C is 95. *)
Definition year_of (folder : string) : option Year :=
  if bool_decide (year_prefix folder = "85") then Some YearA
  else if bool_decide (year_prefix folder = "90") then Some YearB
  else if bool_decide (year_prefix folder = "95") then Some YearC
  else None.

(** The column of the sheet with the local codes of a year: ROC SIC
    revision 6 for 85, 7 for 90, 8 for 95. *)
Definition year_column (y : Year) : SicRow → string :=
  match y with
  | YearA => ROCSIC_6
  | YearB => ROCSIC_7
  | YearC => ROCSIC_8
  end.

Definition field (f : nat * nat) (record : string) : string :=
  String.substring f.1 f.2 record.

Definition decode_assets (e : Encoding) : list string → result (list Z) :=
  match e with
  | ZonedDecimal => __zd_convertor
  | PlainInteger => astype_int64
  end.

(** Extraction as the schema table describes it. *)
Definition extract_by_schema (sch : Schema) (records : list string)
  : result (list ExtractedRow) :=
  assets ← decode_assets (asset_encoding sch) (field (asset_field sch) <$> records) ;
  Ok (zip_with (λ record a,
                  {| scale := field (scale_field sch) record;
                     primary := field (primary_field sch) record;
                     roc_sic := String.substring 0 2 (field (primary_field sch) record);
                     asset := a |})
               records assets).

(** *** Reachable states *)

(** The run of a guarded method on a processor that has not collected:
    the warning is printed, [a] is returned, nothing changes. *)
Definition warned {A} (a : A) (st : State) : Run A :=
  {| output := [Print __warn_data_not_collected]; outcome := Ok a; final := st |}.

(** A run that raises [e] from [st], having printed nothing. *)
Definition raised {A} (e : exn) (st : State) : Run A :=
  {| output := []; outcome := Raise e; final := st |}.

(** The frame behind [self.__data], if any. *)
Definition stored_frame (st : State) : option DataFrame :=
  l ← __data (self st) ; store st !! l.

(** The table that [sic_mapping] builds for the year of [folder]. *)
Definition rocsic_to_isic (w : World) (folder : string) : result (gmap string string) :=
  code_using ← code_column folder ;
  build_table code_using (sic_tb w).

(** The row with its classification: the entry of its short code, or
    [default] when the table has none. *)
Definition annotate (tb : gmap string string) (default : string) (r : ExtractedRow)
  : AnnotatedRow :=
  {| row := r; isic := from_option id default (tb !! roc_sic r) |}.

(** The name neither begins nor ends with a slash or a backslash. *)
Definition bare (s : string) : Prop :=
  head (chars s) ∉ [Some "/"%char; Some backslash]
  ∧ last (chars s) ∉ [Some "/"%char; Some backslash].

(** The name between [n] and [m] copies of the character [c]. *)
Definition wrapped (c : ascii) (n m : nat) (s : string) : string :=
  str (replicate n c ++ chars s ++ replicate m c).

(** The exact sum of a column. *)
Definition total (column : list Z) : Z := foldr Z.add 0 column.

(** The assets of the pairs with key [k]. *)
Definition group (k : string) (pairs : list (string * Z)) : list Z :=
  (filter (λ kv, kv.1 = k) pairs).*2.

(** The frame with its classification column. *)
Definition mapped (tb : gmap string string) (default : string) (df : DataFrame)
  : DataFrame :=
  Annotated (annotate tb default <$> extracted_rows df).

(** The table and the default that [sic_mapping] works with, when it gets
    that far. *)
Definition table_and_default (w : World) (folder : string)
  : option (gmap string string * string) :=
  match rocsic_to_isic w folder with
  | Ok tb => (λ default, (tb, default)) <$> tb !! "Else"
  | Raise _ => None
  end.

(** The frame that the filter of [apply_conditions] makes of a frame. *)
Definition kept (df : DataFrame) : DataFrame :=
  match df with
  | Extracted rows => Extracted (filter (λ r, scale r ≠ "8") rows)
  | Annotated rows => Annotated (filter (λ r, scale (row r) ≠ "8") rows)
  end.

(** The records of one file, as [collect_data] hands them to [_extract]. *)
Definition records_of (f : DirEntry) : list string :=
  drop_last (split_crlf (decode_ascii_ignore (content f))).

(** The frames of a list of files, one [_extract] per file. *)
Definition extract_files (fld : string) (files : list DirEntry)
  : result (list (list ExtractedRow)) :=
  mapM (λ f, _extract fld (records_of f)) files.

(** The files of a listing that [collect_data] reads. *)
Definition target_files (listing : list DirEntry) : list DirEntry :=
  filter (λ f, is_file f = true ∧ contains "." (name f) = false) listing.

(** The short code of a row is the first two characters of its code. *)
Definition short_code_ok (r : ExtractedRow) : Prop :=
  roc_sic r = String.substring 0 2 (primary r).

(** What every method keeps true of the processor and the store. *)
Definition processor_inv (st : State) : Prop :=
  (if _extracted (self st)
   then is_Some (year_of (folder (self st))) ∧ is_Some (__data (self st))
   else __data (self st) = None)
  ∧ (∀ l, __data (self st) = Some l → is_Some (store st !! l))
  ∧ Forall (λ df, Forall short_code_ok (extracted_rows df)) (store st).

(** The states a processor can be in: a new processor, and whatever a
    method call makes of a state that can be reached. *)
Inductive reachable : State → Prop :=
| reach_init uf f : reachable {| self := __init__ uf f; store := [] |}
| reach_collect_data w st :
    reachable st → reachable (final (collect_data w st))
| reach_apply_conditions k conds st :
    reachable st → reachable (final (apply_conditions k conds st))
| reach_sic_mapping w st :
    reachable st → reachable (final (sic_mapping w st))
| reach_some_analysis st :
    reachable st → reachable (final (some_analysis st))
| reach_show_data st :
    reachable st → reachable (final (show_data st))
| reach_get_data st :
    reachable st → reachable (final (get_data st))
| reach_output_CSV st :
    reachable st → reachable (final (output_CSV st)).

(** *** Sample data *)

Definition crlf : string := String "013"%char (String "010"%char "").

(** The text of the given records, each followed by the line terminator,
    and then [rest]. *)
Definition terminated (records : list string) (rest : string) : string :=
  foldr (λ r text, r +:+ crlf +:+ text) rest records.

(** A file of the data folder with the given records. *)
Definition census_file (name : string) (records : list string) : DirEntry :=
  {| name := name; is_file := true;
     content := String.list_byte_of_string (terminated records "") |}.

(** The string holds no line terminator. *)
Definition no_crlf (s : string) : Prop :=
  ∀ pre post, chars s ≠ pre ++ "013"%char :: "010"%char :: post.

(** Every character of the string is below 128. *)
Definition ascii_only (s : string) : Prop :=
  Forall (λ c, (Byte.to_nat (byte_of_ascii c) < 128)%nat) (chars s).

(** A record of year 95 with the three fields at their places. *)
Definition record95 (scale primary asset : string) : string :=
  "." +:+ scale +:+ primary +:+ str (replicate 239 "."%char) +:+ asset.

(** A folder of year 95 with one file of two companies, the second of
    scale 8, and a sheet that lists code 5 and the default. *)
Definition sample_world (sheet : list SicRow) : World :=
  {| getcwd := "C:";
     listdir := λ _, Some [census_file "a" [record95 "3" "0512" "00000000000788D";
                                            record95 "8" "1234" "00000000000788}"];
                          census_file "notes.txt" ["x"]];
     sic_tb := sheet |}.

Definition sample_row : SicRow :=
  {| ISIC_Rev3 := "A"; ROCSIC_6 := "1,2"; ROCSIC_7 := "3"; ROCSIC_8 := "5,12" |}.

Definition sample_default_row : SicRow :=
  {| ISIC_Rev3 := "Z"; ROCSIC_6 := "Else"; ROCSIC_7 := "Else"; ROCSIC_8 := "Else" |}.

Definition sample_sheet : list SicRow := [sample_row; sample_default_row].

(** The same sheet without the default row. *)
Definition sample_sheet_no_default : list SicRow := [sample_row].

(** The tables of the two sheets for year 95. *)
Definition sample_table_no_default : gmap string string :=
  <["12" := "A"]> (<["05" := "A"]> ∅).
Definition sample_table : gmap string string :=
  <["Else" := "Z"]> sample_table_no_default.

(** A row that lists code 5 once more, with another classification, and
    the table of the sheet that has it between the two sample rows. *)
Definition sample_later_row : SicRow :=
  {| ISIC_Rev3 := "Q"; ROCSIC_6 := "9"; ROCSIC_7 := "9"; ROCSIC_8 := "5" |}.
Definition sample_table_later : gmap string string :=
  <["05" := "Q"]> sample_table.

(** A row whose code is the superscript two, a character with a numeric
    value that is no decimal digit, and a row whose code is the full-width
    digit five. *)
Definition superscript_row : SicRow :=
  {| ISIC_Rev3 := "B"; ROCSIC_6 := "²"; ROCSIC_7 := "²"; ROCSIC_8 := "²" |}.
Definition fullwidth_row : SicRow :=
  {| ISIC_Rev3 := "C"; ROCSIC_6 := "５"; ROCSIC_7 := "５"; ROCSIC_8 := "５" |}.

Definition sample_start : State :=
  {| self := __init__ "data" "95y"; store := [] |}.

(** The state once the sample folder is collected. *)
Definition sample_collected : State :=
  final (collect_data (sample_world sample_sheet) sample_start).

(** * Strings, slices and integers *)

Section strings.
Implicit Types (s t : string) (cs : list ascii) (c : ascii).

Lemma chars_str cs : chars (str cs) = cs.
Proof. apply String.list_ascii_of_string_of_list_ascii. Qed.

Lemma str_chars s : str (chars s) = s.
Proof. apply String.string_of_list_ascii_of_string. Qed.

Lemma chars_app s t : chars (s +:+ t) = chars s ++ chars t.
Proof. induction s as [|c s IH]; simpl; [done|]. by rewrite IH. Qed.

Lemma chars_inj s t : chars s = chars t → s = t.
Proof. intros H. by rewrite <-(str_chars s), <-(str_chars t), H. Qed.

Lemma len_chars s : len s = Z.of_nat (length (chars s)).
Proof. done. Qed.

(** A slice with both bounds inside the string. *)
Lemma str_slice_take_drop (a b : nat) s :
  (a ≤ b)%nat →
  chars (str_slice (Some (Z.of_nat a)) (Some (Z.of_nat b)) s)
  = take (b - a) (drop a (chars s)).
Proof.
  intros Hab. unfold str_slice, slice_index. rewrite chars_str. simpl.
  set (n := length (chars s)).
  destruct (Z.ltb_spec (Z.of_nat a) 0), (Z.ltb_spec (Z.of_nat b) 0); try lia.
  destruct (decide (b ≤ n)%nat) as [Hb|Hb].
  - rewrite !Z.min_l by lia. f_equal; [lia|]. f_equal. lia.
  - rewrite (Z.min_r (Z.of_nat b)) by lia.
    destruct (decide (a ≤ n)%nat) as [Ha|Ha].
    + rewrite Z.min_l by lia.
      rewrite !take_ge; rewrite ?length_drop; try (fold n; lia).
      f_equal. lia.
    + rewrite Z.min_r by lia.
      rewrite !drop_ge by (fold n; lia). by rewrite !take_nil.
Qed.
End strings.

Section slices.
Implicit Types (s t : string) (cs : list ascii) (c : ascii).

Lemma str_slice_prefix (p : Z) s :
  0 ≤ p → chars (str_slice None (Some p) s) = take (Z.to_nat p) (chars s).
Proof.
  intros Hp. unfold str_slice, slice_index. rewrite chars_str. simpl.
  destruct (Z.ltb_spec p 0); [lia|]. rewrite Z.sub_0_r.
  change (Z.to_nat 0) with 0%nat. rewrite drop_0.
  destruct (Z.min_spec p (Z.of_nat (length (chars s)))) as [[? ->]|[? ->]]; [done|].
  rewrite Nat2Z.id, !take_ge; [done|lia..].
Qed.

Lemma str_slice_suffix (p : Z) s :
  0 ≤ p → chars (str_slice (Some p) None s) = drop (Z.to_nat p) (chars s).
Proof.
  intros Hp. unfold str_slice, slice_index. rewrite chars_str. simpl.
  destruct (Z.ltb_spec p 0); [lia|].
  destruct (Z.min_spec p (Z.of_nat (length (chars s)))) as [[? ->]|[? ->]].
  - apply take_ge. rewrite length_drop. lia.
  - rewrite Nat2Z.id, Z.sub_diag, !drop_ge; [done|lia..].
Qed.

Lemma str_slice_split_app s c :
  let p := len (s +:+ String c "") - 1 in
  str_slice None (Some p) (s +:+ String c "") = s
  ∧ str_slice (Some p) None (s +:+ String c "") = String c "".
Proof.
  intros p. assert (p = Z.of_nat (length (chars s))) as Hp.
  { unfold p, len. rewrite chars_app, length_app. simpl. lia. }
  split; apply chars_inj.
  - rewrite str_slice_prefix by lia. rewrite chars_app, Hp, Nat2Z.id.
    by rewrite take_app_length.
  - rewrite str_slice_suffix by lia. rewrite chars_app, Hp, Nat2Z.id.
    by rewrite drop_app_length.
Qed.
End slices.

Section int_of_digits.
Implicit Types (cs : list ascii) (c : ascii).

Lemma digit_val_range c d : digit_val c = Some d → 0 ≤ d ≤ 9.
Proof.
  unfold digit_val.
  destruct (Z.leb_spec 48 (Z.of_N (N_of_ascii c)));
    destruct (Z.leb_spec (Z.of_N (N_of_ascii c)) 57); simpl; intros [= <-]; lia.
Qed.

Lemma digit_val_ord c d : digit_val c = Some d → ord c = 48 + d.
Proof.
  unfold digit_val, ord.
  destruct (Z.leb_spec 48 (Z.of_N (N_of_ascii c)));
    destruct (Z.leb_spec (Z.of_N (N_of_ascii c)) 57); simpl; intros [= <-]; lia.
Qed.

Lemma is_digit_ascii c : is_digit c → (ord c <? 128) = true.
Proof.
  intros [d Hd]. pose proof (digit_val_range _ _ Hd).
  apply digit_val_ord in Hd. apply Z.ltb_lt. lia.
Qed.

Lemma digits_ascii cs : Forall is_digit cs → forallb (λ c, ord c <? 128) cs = true.
Proof.
  induction 1 as [|c cs Hc _ IH]; [done|]. simpl.
  by rewrite (is_digit_ascii c Hc), IH.
Qed.

(** The parser on a string that begins with a digit: there is no white
    space and no sign to skip. *)
Lemma PyLong_FromString_digit c cs :
  is_digit c →
  PyLong_FromString (c :: cs)
  = match int_digits 0 0 false (c :: cs) with
    | None => Raise InvalidLiteral
    | Some (value, digits, rest) =>
        if int_max_str_digits <? digits then Raise TooManyDigits
        else if digits =? 0 then Raise InvalidLiteral
        else if bool_decide (lstrip rest = []) then Ok (1 * value)
        else Raise InvalidLiteral
    end.
Proof.
  intros [d Hd]. destruct c as [[] [] [] [] [] [] [] []];
    vm_compute in Hd; try discriminate Hd; reflexivity.
Qed.

(** The digits at the head of a string are read up to the first
    character that is neither a digit nor an underscore. *)
Lemma int_digits_run cs rest acc n (b : bool) :
  Forall is_digit cs → cs ≠ [] ∨ b = false →
  match rest with
  | [] => True
  | c :: _ => digit_val c = None ∧ c ≠ "_"%char
  end →
  int_digits acc n b (cs ++ rest)
  = Some (foldl (λ acc c, 10 * acc + default 0 (digit_val c)) acc cs,
          n + Z.of_nat (length cs), rest).
Proof.
  intros H. revert acc n b. induction H as [|c cs [d Hd] _ IH]; intros acc n b Hb Hrest.
  - destruct Hb as [?| ->]; [done|]. simpl. rewrite Z.add_0_r.
    destruct rest as [|c rest]; [done|]. destruct Hrest as [Hc Hne]. simpl.
    by rewrite Hc, bool_decide_eq_false_2.
  - replace (n + Z.of_nat (length (c :: cs))) with (n + 1 + Z.of_nat (length cs))
      by (simpl length; lia).
    simpl. rewrite Hd. simpl. apply IH; [by right|done].
Qed.

Lemma PyLong_FromString_minus c cs :
  is_digit c →
  PyLong_FromString ("-"%char :: c :: cs)
  = match int_digits 0 0 false (c :: cs) with
    | None => Raise InvalidLiteral
    | Some (value, digits, rest) =>
        if int_max_str_digits <? digits then Raise TooManyDigits
        else if digits =? 0 then Raise InvalidLiteral
        else if bool_decide (lstrip rest = []) then Ok (-1 * value)
        else Raise InvalidLiteral
    end.
Proof.
  intros [d Hd]. destruct c as [[] [] [] [] [] [] [] []];
    vm_compute in Hd; try discriminate Hd; reflexivity.
Qed.

Lemma int_digits_all cs acc n (b : bool) :
  Forall is_digit cs → cs ≠ [] ∨ b = false →
  int_digits acc n b cs
  = Some (foldl (λ acc c, 10 * acc + default 0 (digit_val c)) acc cs,
          n + Z.of_nat (length cs), []).
Proof.
  intros H Hb. rewrite <-(app_nil_r cs) at 1. by apply int_digits_run.
Qed.

(** The parser on decimal digits only: their value when they are at
    most 4300, and the refusal beyond. *)
Lemma PyLong_FromString_digits cs :
  cs ≠ [] → Forall is_digit cs →
  PyLong_FromString cs
  = if int_max_str_digits <? Z.of_nat (length cs) then Raise TooManyDigits
    else Ok (decimal cs).
Proof.
  intros Hne H. destruct cs as [|c cs']; [done|].
  rewrite PyLong_FromString_digit by by inversion H.
  rewrite int_digits_all by auto. rewrite Z.add_0_l.
  destruct (_ <? _); [done|].
  destruct (Z.eqb_spec (Z.of_nat (length (c :: cs'))) 0) as [H0|_]; [done|].
  simpl lstrip. rewrite bool_decide_eq_true_2 by done.
  unfold decimal. f_equal. lia.
Qed.

(** Digits and then a character that is no digit, no underscore and
    no white space: the parser refuses. *)
Lemma PyLong_FromString_digits_then cs c :
  Forall is_digit cs → digit_val c = None → c ≠ "_"%char → is_space c = false →
  c ≠ "+"%char → c ≠ "-"%char →
  ∃ e, PyLong_FromString (cs ++ [c]) = Raise e
       ∧ (e = InvalidLiteral ∨ e = TooManyDigits).
Proof.
  intros H Hc Hu Hs Hplus Hminus. destruct cs as [|c0 cs'].
  - exists InvalidLiteral. split; [|by left]. unfold PyLong_FromString. simpl.
    rewrite Hs. destruct c as [[] [] [] [] [] [] [] []]; try done;
      vm_compute in Hc; try discriminate Hc; reflexivity.
  - rewrite <-app_comm_cons, PyLong_FromString_digit by by inversion H.
    rewrite app_comm_cons, int_digits_run by auto.
    destruct (_ <? _); [by eexists; split; [|right]|].
    destruct (_ =? _); [by eexists; split; [|left]|].
    simpl lstrip. rewrite Hs. rewrite bool_decide_eq_false_2 by done.
    by eexists; split; [|left].
Qed.

(** [int] on a string of decimal digits: the decimal value when the
    digits are at most 4300, and the refusal of the parser beyond. *)
Lemma int_digits_only (s : string) :
  chars s ≠ [] → Forall is_digit (chars s) →
  int s = if int_max_str_digits <? len s then Raise TooManyDigits
          else Ok (decimal (chars s)).
Proof.
  intros Hne H. unfold int, len. rewrite digits_ascii by done.
  by apply PyLong_FromString_digits.
Qed.

Lemma int_decimal (s : string) :
  chars s ≠ [] → Forall is_digit (chars s) → len s ≤ int_max_str_digits →
  int s = Ok (decimal (chars s)).
Proof.
  intros Hne H Hlen. rewrite int_digits_only by done.
  destruct (Z.ltb_spec int_max_str_digits (len s)); [lia|done].
Qed.

Lemma int_too_many_digits (s : string) :
  Forall is_digit (chars s) → int_max_str_digits < len s →
  int s = Raise TooManyDigits.
Proof.
  intros H Hlen. rewrite int_digits_only; [|by destruct (chars s) eqn:E; unfold len in Hlen; rewrite ?E in Hlen|done].
  destruct (Z.ltb_spec int_max_str_digits (len s)); [done|lia].
Qed.

Lemma decimal_snoc cs c :
  decimal (cs ++ [c]) = 10 * decimal cs + default 0 (digit_val c).
Proof. unfold decimal. by rewrite foldl_app. Qed.

Lemma decimal_bounds cs : 0 ≤ decimal cs < 10 ^ Z.of_nat (length cs).
Proof.
  induction cs as [|c cs IH] using rev_ind; [unfold decimal; simpl; lia|].
  rewrite decimal_snoc, length_app, Nat2Z.inj_add, Z.pow_add_r by lia.
  assert (0 ≤ default 0 (digit_val c) ≤ 9).
  { destruct (digit_val c) eqn:E; simpl; [by eapply digit_val_range|lia]. }
  simpl length. change (10 ^ Z.of_nat 1) with 10.
  assert (0 < 10 ^ Z.of_nat (length cs)) by (apply Z.pow_pos_nonneg; lia).
  nia.
Qed.
End int_of_digits.

Section int64.
Lemma wrap64_id z : in_int64 z = true → wrap64 z = z.
Proof.
  unfold in_int64, int64_min, int64_max, wrap64. intros H.
  apply andb_true_iff in H as [H1%Z.leb_le H2%Z.leb_le].
  rewrite Z.mod_small; lia.
Qed.

Lemma in_int64_iff z : in_int64 z = true ↔ - 2 ^ 63 ≤ z ≤ 2 ^ 63 - 1.
Proof.
  unfold in_int64, int64_min, int64_max.
  rewrite andb_true_iff, !Z.leb_le. done.
Qed.
End int64.

(** * The result monad *)

Lemma bind_Ok_inv {A B} (r : result A) (k : A → result B) b :
  r ≫= k = Ok b ↔ ∃ a, r = Ok a ∧ k a = Ok b.
Proof.
  destruct r as [a|e]; simpl; split.
  - intros H. by exists a.
  - by intros (? & [= <-] & ?).
  - done.
  - by intros (? & [=] & ?).
Qed.

Lemma mapM_cons {A B} (f : A → result B) a l :
  mapM f (a :: l) = (b ← f a ; bs ← mapM f l ; Ok (b :: bs)).
Proof. done. Qed.

Lemma mapM_Ok {A B} (f : A → result B) l bs :
  mapM f l = Ok bs ↔ Forall2 (λ a b, f a = Ok b) l bs.
Proof.
  revert bs. induction l as [|a l IH]; intros bs.
  - split; [intros [= <-]; constructor|by inversion 1].
  - rewrite mapM_cons. split.
    + intros (b & Hb & H)%bind_Ok_inv.
      apply bind_Ok_inv in H as (bs' & Hbs & [= <-]).
      constructor; [done|]. by apply IH.
    + inversion 1 as [|? b ? bs' Hb Hbs]; simplify_eq.
      apply bind_Ok_inv. exists b. split; [done|].
      apply IH in Hbs. by rewrite Hbs.
Qed.

Lemma frame_of_pairs_Ok mapped ps :
  frame_of_pairs mapped = Ok ps ↔ Forall2 (λ o p, o = Some p) mapped ps.
Proof.
  revert ps. induction mapped as [|[p|] l IH]; intros ps; simpl.
  - split; [intros [= <-]; constructor|by inversion 1].
  - split.
    + intros (ps' & Hps & [= <-])%bind_Ok_inv. constructor; [done|]. by apply IH.
    + inversion 1 as [|? p' ? ps' Hp Hps]; simplify_eq.
      apply bind_Ok_inv. exists ps'. split; [by apply IH|done].
  - split; [done|]. inversion 1; simplify_eq.
Qed.

(** * The table of sign symbols *)

Ltac by_computation := apply (bool_decide_unpack _); vm_compute; reflexivity.

Section zd_alphabet.
Lemma zd_items_NoDup : NoDup zd_items.*1.
Proof. by_computation. Qed.

Lemma zd_map_lookup k sv : zd_map !! k = Some sv ↔ (k, sv) ∈ zd_items.
Proof. symmetry. apply elem_of_list_to_map, zd_items_NoDup. Qed.

Lemma zd_map_size : size zd_map = 20%nat.
Proof.
  unfold zd_map. rewrite <-length_map_to_list.
  rewrite (map_to_list_to_map _ zd_items_NoDup). done.
Qed.

Lemma zd_items_shape :
  Forall (λ x, (x.2.1 = 1 ∨ x.2.1 = -1) ∧ 0 ≤ x.2.2 ≤ 9
               ∧ length (chars x.1) = 1%nat) zd_items.
Proof. by_computation. Qed.

Lemma zd_map_shape k sg d :
  zd_map !! k = Some (sg, d) →
  (sg = 1 ∨ sg = -1) ∧ 0 ≤ d ≤ 9 ∧ length (chars k) = 1%nat.
Proof.
  intros H%zd_map_lookup.
  by apply (proj1 (Forall_forall _ _) zd_items_shape) in H.
Qed.

Lemma zd_items_inj :
  Forall (λ x, Forall (λ y, x.2 = y.2 → x.1 = y.1) zd_items) zd_items.
Proof. by_computation. Qed.

Lemma zd_map_inj k k' sv :
  zd_map !! k = Some sv → zd_map !! k' = Some sv → k = k'.
Proof.
  intros H%zd_map_lookup H'%zd_map_lookup.
  pose proof (proj1 (Forall_forall _ _) zd_items_inj _ H) as HF.
  by apply (proj1 (Forall_forall _ _) HF _ H').
Qed.

Lemma zd_map_symbol sg d :
  (sg = 1 ∨ sg = -1) → 0 ≤ d ≤ 9 → ∃ k, zd_map !! k = Some (sg, d).
Proof.
  intros Hsg Hd.
  assert ((sg, d) ∈ zd_items.*2) as Hin.
  { assert (d = 0 ∨ d = 1 ∨ d = 2 ∨ d = 3 ∨ d = 4 ∨ d = 5 ∨ d = 6 ∨ d = 7
            ∨ d = 8 ∨ d = 9) as Hcases by lia.
    destruct Hsg as [-> | ->];
      repeat (destruct Hcases as [-> | Hcases]); try subst d; by_computation. }
  apply list_elem_of_fmap in Hin as ([k sv] & Heq & Hin). simpl in Heq. subst sv.
  exists k. by apply zd_map_lookup.
Qed.
(** The table, symbol by symbol. *)
Lemma zd_items_symbols :
  Forall (λ x, 0 ≤ x.2.2
               ∧ (x.2.1 = 1 ∧ positive_symbols !! Z.to_nat x.2.2 = Some x.1
                  ∨ x.2.1 = -1 ∧ negative_symbols !! Z.to_nat x.2.2 = Some x.1))
    zd_items.
Proof. by_computation. Qed.

Lemma symbols_zd_items :
  Forall (λ n, ∀ k, (positive_symbols !! n = Some k → zd_map !! k = Some (1, Z.of_nat n))
                    ∧ (negative_symbols !! n = Some k
                       → zd_map !! k = Some (-1, Z.of_nat n)))
    (seq 0 10).
Proof.
  repeat constructor; intros [= <-]; vm_compute; reflexivity.
Qed.

Lemma zd_map_symbols k sg d :
  zd_map !! k = Some (sg, d)
  ↔ 0 ≤ d
    ∧ (sg = 1 ∧ positive_symbols !! Z.to_nat d = Some k
       ∨ sg = -1 ∧ negative_symbols !! Z.to_nat d = Some k).
Proof.
  split.
  - intros H%zd_map_lookup.
    by apply (proj1 (Forall_forall _ _) zd_items_symbols) in H.
  - intros [Hd H].
    assert (Z.to_nat d < 10)%nat as Hlt.
    { destruct H as [[_ H]|[_ H]]; by apply lookup_lt_Some in H. }
    assert (Z.to_nat d ∈ seq 0 10) as Hin by (apply elem_of_seq; lia).
    pose proof (proj1 (Forall_forall _ _) symbols_zd_items _ Hin k) as [Hp Hn].
    rewrite Z2Nat.id in Hp, Hn by done.
    destruct H as [[-> H]|[-> H]]; auto.
Qed.
End zd_alphabet.
Global Opaque zd_map.

(** * The zoned-decimal convertor *)

Section zoned_decimal.
Implicit Types (s first : string) (rest series : list string) (p : Z).

Lemma zd_element_Ok p s r :
  zd_element p s = Ok r ↔
  ∃ v sv, to_int64 (str_slice None (Some p) s) = Ok v
          ∧ zd_map !! str_slice (Some p) None s = Some sv
          ∧ r = zd_combine (wrap64 (v * 10)) sv.
Proof.
  unfold zd_element. rewrite bind_Ok_inv. split.
  - intros (v & Hv & H). destruct (zd_map !! _) as [sv|] eqn:Hsv; [|done].
    exists v, sv. by simplify_eq.
  - intros (v & sv & Hv & Hsv & ->). exists v. by rewrite Hsv.
Qed.

(** The column-wise computation of the convertor, element by element. *)
Lemma zd_columns_elements p series rs :
  (parsed ← astype_int64 (str_slice None (Some p) <$> series) ;
   tmp_df ← frame_of_pairs ((λ c, zd_map !! c) <$> (str_slice (Some p) None <$> series)) ;
   Ok (zip_with zd_combine ((λ z, wrap64 (z * 10)) <$> parsed) tmp_df)) = Ok rs
  ↔ Forall2 (λ s r, zd_element p s = Ok r) series rs.
Proof.
  rewrite bind_Ok_inv. unfold astype_int64. split.
  - intros (parsed & Hparsed & (tmp & Htmp & [= <-])%bind_Ok_inv).
    apply mapM_Ok in Hparsed. apply frame_of_pairs_Ok in Htmp.
    revert parsed tmp Hparsed Htmp.
    induction series as [|s series IH]; intros parsed tmp Hp Ht.
    + inversion Hp; inversion Ht; subst. constructor.
    + inversion Hp as [|? v ? parsed' Hv Hp']; inversion Ht as [|? sv ? tmp' Hsv Ht'].
      subst. simpl. constructor; [|by apply IH].
      apply zd_element_Ok. by exists v, sv.
  - intros H. induction H as [|s r series rs Hs _ (parsed & Hp & Ht)].
    + exists []. done.
    + apply zd_element_Ok in Hs as (v & sv & Hv & Hsv & ->).
      apply bind_Ok_inv in Ht as (tmp & Htmp & [= <-]).
      exists (v :: parsed). split.
      * rewrite fmap_cons, mapM_cons, Hv. simpl. by rewrite Hp.
      * rewrite !fmap_cons. simpl. rewrite Hsv. simpl. by rewrite Htmp.
Qed.

Lemma zd_convertor_elements first rest rs :
  __zd_convertor (first :: rest) = Ok rs
  ↔ Forall2 (λ s r, zd_element (len first - 1) s = Ok r) (first :: rest) rs.
Proof. apply zd_columns_elements. Qed.

Lemma zd_decode_element s : zd_decode s = zd_element (len s - 1) s.
Proof.
  unfold zd_decode, zd_element, __zd_convertor, astype_int64. simpl.
  destruct (to_int64 _) as [v|e]; simpl; [|done].
  destruct (zd_map !! _) as [sv|]; done.
Qed.
End zoned_decimal.

Section zd_decode.
Implicit Types (s ds front : string) (c : ascii).

Lemma to_int64_Ok s v :
  to_int64 s = Ok v ↔ int s = Ok v ∧ in_int64 v = true.
Proof.
  unfold to_int64. destruct (int s) as [z|e]; simpl.
  - destruct (in_int64 z) eqn:E; split.
    + by intros [= <-].
    + by intros [[= <-] _].
    + done.
    + intros [[= <-] ?]. congruence.
  - split; [done|]. by intros [? _].
Qed.

Lemma to_int64_digits ds :
  chars ds ≠ [] → Forall is_digit (chars ds) → len ds ≤ int_max_str_digits →
  decimal (chars ds) ≤ int64_max →
  to_int64 ds = Ok (decimal (chars ds)).
Proof.
  intros Hne Hd Hlen Hmax. apply to_int64_Ok. split; [by apply int_decimal|].
  apply in_int64_iff. pose proof (decimal_bounds (chars ds)).
  unfold int64_max in Hmax. lia.
Qed.

(** Decoding a string that ends in [c]: the split is before [c]. *)
Lemma zd_decode_snoc front c :
  zd_decode (front +:+ String c "")
  = (v ← to_int64 front ;
     match zd_map !! String c "" with
     | Some sv => Ok (zd_combine (wrap64 (v * 10)) sv)
     | None => Raise NaNInFrame
     end).
Proof.
  rewrite zd_decode_element. unfold zd_element.
  destruct (str_slice_split_app front c) as [-> ->]. done.
Qed.

Lemma zd_combine_in_range v sg d :
  (sg = 1 ∨ sg = -1) → 0 ≤ d → 0 ≤ v → 10 * v + d ≤ int64_max →
  zd_combine (wrap64 (v * 10)) (sg, d) = sg * (10 * v + d).
Proof.
  unfold int64_max. intros Hsg Hd Hv Hmax. unfold zd_combine. simpl.
  rewrite (wrap64_id (v * 10)) by (apply in_int64_iff; lia).
  rewrite (wrap64_id (v * 10 + d)) by (apply in_int64_iff; lia).
  rewrite wrap64_id by (apply in_int64_iff; lia). lia.
Qed.

Lemma decimal_17_digits (cs : list ascii) d :
  (length cs ≤ 17)%nat → d ≤ 9 → 10 * decimal cs + d ≤ int64_max.
Proof.
  intros Hlen Hd. pose proof (decimal_bounds cs) as [_ Hb].
  assert (10 ^ Z.of_nat (length cs) ≤ 10 ^ 17).
  { apply Z.pow_le_mono_r; lia. }
  unfold int64_max. lia.
Qed.
End zd_decode.

(** * Field extraction *)

Section fields.
Implicit Types (s record folder : string).

Lemma chars_substring (n m : nat) s :
  chars (String.substring n m s) = take m (drop n (chars s)).
Proof.
  revert n m. induction s as [|c s IH]; intros [|n] [|m]; simpl;
    rewrite ?IH; done.
Qed.

(** A slice between two offsets is the field at the first offset with
    their difference as length. *)
Lemma str_slice_substring (a b : nat) s :
  (a ≤ b)%nat →
  str_slice (Some (Z.of_nat a)) (Some (Z.of_nat b)) s = String.substring a (b - a) s.
Proof.
  intros H. apply chars_inj. by rewrite str_slice_take_drop, chars_substring.
Qed.

Lemma concat_columns_zip {A} (f g h : A → string) (l : list A) (assets : list Z) :
  concat_columns (f <$> l) (g <$> l) (h <$> l) assets
  = zip_with (λ x a, {| scale := f x; primary := g x; roc_sic := h x; asset := a |})
      l assets.
Proof.
  revert assets. induction l as [|x l IH]; intros [|a assets]; simpl; try done.
  f_equal. apply IH.
Qed.

Lemma year_of_prefix folder y :
  year_of folder = Some y →
  year_prefix folder = match y with YearA => "85" | YearB => "90" | YearC => "95" end.
Proof.
  unfold year_of. repeat case_bool_decide; intros [= <-]; done.
Qed.

(** One branch of [_extract], for any three fields given by their first
    and last offsets. *)
Lemma extract_branch (a1 b1 a2 b2 a3 b3 : nat) (e : Encoding) (comps : list string) :
  (a1 ≤ b1)%nat → (a2 ≤ b2)%nat → (a3 ≤ b3)%nat →
  (asset ← decode_assets e
             (str_slice (Some (Z.of_nat a3)) (Some (Z.of_nat b3)) <$> comps) ;
   Ok (concat_columns
         (str_slice (Some (Z.of_nat a1)) (Some (Z.of_nat b1)) <$> comps)
         (str_slice (Some (Z.of_nat a2)) (Some (Z.of_nat b2)) <$> comps)
         (str_slice (Some 0) (Some 2)
            <$> (str_slice (Some (Z.of_nat a2)) (Some (Z.of_nat b2)) <$> comps))
         asset))
  = extract_by_schema
      {| scale_field := (a1, b1 - a1); primary_field := (a2, b2 - a2);
         asset_field := (a3, b3 - a3); asset_encoding := e |}%nat comps.
Proof.
  intros H1 H2 H3. unfold extract_by_schema, field. simpl.
  rewrite (list_fmap_ext (str_slice (Some (Z.of_nat a3)) (Some (Z.of_nat b3)))
             (String.substring a3 (b3 - a3)) comps)
    by (intros; by apply str_slice_substring).
  destruct (decode_assets e _) as [assets|]; simpl; [|done].
  f_equal. rewrite <-list_fmap_compose, concat_columns_zip.
  apply zip_with_ext; [|done..].
  intros record a. simpl. rewrite !str_slice_substring by done.
  f_equal. apply (str_slice_substring 0 2). lia.
Qed.
End fields.

(** [_extract] follows the schema table. *)
Lemma extract_schema_eq (folder : string) (y : Year) (company_list : list string) :
  year_of folder = Some y →
  _extract folder company_list = extract_by_schema (schema_table y) company_list.
Proof.
  intros Hy. apply year_of_prefix in Hy.
  unfold _extract. rewrite Hy. destruct y; simpl.
  - exact (extract_branch 7 8 13 17 1138 1153 ZonedDecimal company_list
             ltac:(lia) ltac:(lia) ltac:(lia)).
  - exact (extract_branch 11 12 13 17 1068 1083 PlainInteger company_list
             ltac:(lia) ltac:(lia) ltac:(lia)).
  - exact (extract_branch 1 2 2 6 245 260 ZonedDecimal company_list
             ltac:(lia) ltac:(lia) ltac:(lia)).
Qed.

(** * The methods, run *)

Section monad.
Context {A B : Type}.
Implicit Types (m : M A) (k : A → M B) (st : State).

Lemma run_bind m k st :
  (m ≫= k) st
  = match outcome (m st) with
    | Ok a =>
        {| output := output (m st) ++ output (k a (final (m st)));
           outcome := outcome (k a (final (m st)));
           final := final (k a (final (m st))) |}
    | Raise e => {| output := output (m st); outcome := Raise e; final := final (m st) |}
    end.
Proof. done. Qed.

Lemma run_eq (r1 r2 : Run A) :
  output r1 = output r2 → outcome r1 = outcome r2 → final r1 = final r2 → r1 = r2.
Proof. destruct r1, r2; simpl; congruence. Qed.
End monad.

Section collect_loop.
Implicit Types (fld : string) (files : list DirEntry) (data_out : Collected)
  (st : State).

Lemma collect_file_run fld data_out f st :
  collect_file fld data_out f st
  = match _extract fld (records_of f) with
    | Ok frame =>
        {| output := [Print ("File " +:+ name f +:+ " finished.")];
           outcome := Ok (concat_frames data_out frame);
           final := st |}
    | Raise e => {| output := []; outcome := Raise e; final := st |}
    end.
Proof.
  unfold collect_file, records_of. rewrite run_bind. unfold lift. simpl.
  destruct (_extract fld _); done.
Qed.

Lemma foldM_collect_final fld files data_out st :
  final (foldM (collect_file fld) data_out files st) = st.
Proof.
  revert data_out. induction files as [|f files IH]; intros data_out; simpl; [done|].
  rewrite run_bind, collect_file_run.
  destruct (_extract fld _); simpl; [apply IH|done].
Qed.
End collect_loop.

Section methods.
Implicit Types (st : State) (w : World).

Lemma apply_conditions_run k conds st :
  apply_conditions k conds st
  = if _extracted (self st) then
      match stored_frame st with
      | Some df =>
          {| output := []; outcome := Ok ();
             final :=
               {| self := {| upperlayer_folder := upperlayer_folder (self st);
                             folder := folder (self st);
                             _extracted := _extracted (self st);
                             __data := Some (length (store st)) |};
                  store := store st ++
                    [match df with
                     | Extracted rows => Extracted (filter (λ r, scale r ≠ "8") rows)
                     | Annotated rows =>
                         Annotated (filter (λ r, scale (row r) ≠ "8") rows)
                     end] |} |}
      | None => raised NoneSubscript st
      end
    else warned () st.
Proof.
  unfold apply_conditions, data_frame, stored_frame. rewrite !run_bind. simpl.
  destruct (_extracted (self st)); simpl; [|done].
  rewrite !run_bind. simpl.
  destruct (__data (self st)) as [l|]; simpl; [|done].
  destruct (store st !! l) as [df|]; simpl; done.
Qed.

Lemma zip_annotate tb default (rows : list ExtractedRow) :
  zip_with (λ r c, {| row := r; isic := c |}) rows
    (fillna default (series_map tb (roc_sic <$> rows)))
  = annotate tb default <$> rows.
Proof.
  induction rows as [|r rows IH]; [done|].
  rewrite !fmap_cons. unfold series_map, fillna in *. rewrite !fmap_cons.
  simpl. f_equal. apply IH.
Qed.

Lemma sic_mapping_run w st :
  sic_mapping w st
  = if _extracted (self st) then
      match rocsic_to_isic w (folder (self st)) with
      | Raise e => raised e st
      | Ok tb =>
          match __data (self st), stored_frame st with
          | Some l, Some df =>
              match tb !! "Else" with
              | None => raised KeyError st
              | Some default =>
                  {| output := []; outcome := Ok ();
                     final :=
                       {| self := self st;
                          store := <[l := Annotated (annotate tb default
                                                       <$> extracted_rows df)]>
                                     (store st) |} |}
              end
          | _, _ => raised NoneSubscript st
          end
      end
    else warned () st.
Proof.
  unfold sic_mapping, data_frame, stored_frame, rocsic_to_isic.
  rewrite !run_bind. simpl.
  destruct (_extracted (self st)); simpl; [|done].
  rewrite !run_bind. unfold lift at 1. simpl.
  destruct (code_column (folder (self st))) as [col|e]; simpl; [|done].
  rewrite !run_bind. unfold lift at 1. simpl.
  destruct (build_table col (sic_tb w)) as [tb|e]; simpl; [|done].
  rewrite !run_bind. simpl.
  destruct (__data (self st)) as [l|]; simpl; [|done].
  destruct (store st !! l) as [df|]; simpl; [|done].
  rewrite !run_bind. unfold lift. simpl.
  destruct (tb !! "Else") as [default|]; simpl; [|done].
  unfold update. simpl. by rewrite zip_annotate.
Qed.

Lemma show_data_run st :
  show_data st
  = if _extracted (self st)
    then {| output := [PrintData (stored_frame st)]; outcome := Ok (); final := st |}
    else warned () st.
Proof.
  unfold show_data. rewrite run_bind. simpl.
  destruct (_extracted (self st)); done.
Qed.

Lemma get_data_run st :
  get_data st
  = if _extracted (self st)
    then {| output := []; outcome := Ok (__data (self st)); final := st |}
    else warned (__data (self st)) st.
Proof.
  unfold get_data. rewrite !run_bind. simpl.
  destruct (_extracted (self st)); done.
Qed.

(** What [self.__data.to_csv(...)] does from [st]. *)
Lemma output_CSV_run st :
  output_CSV st
  = let warning :=
      if _extracted (self st) then [] else [Print __warn_data_not_collected] in
    match stored_frame st with
    | Some df =>
        {| output := warning ++
             [ToCsv (folder_prefix 3 (folder (self st)) +:+ "_extracted.csv") df];
           outcome := Ok (); final := st |}
    | None => {| output := warning; outcome := Raise AttributeError; final := st |}
    end.
Proof.
  unfold output_CSV, stored_frame. rewrite !run_bind. simpl.
  destruct (_extracted (self st)); simpl; rewrite ?run_bind; simpl;
    destruct (__data (self st)) as [l|]; simpl; try done;
    destruct (store st !! l); done.
Qed.

Lemma some_analysis_run st :
  some_analysis st
  = match stored_frame st with
    | None => raised AttributeError st
    | Some (Extracted rows) =>
        if bool_decide (length rows = 1%nat) then
          {| output := [PrintGroups "index"
                          (groupby_sum (zip ["isic"] (asset <$> rows)))];
             outcome := Ok (); final := st |}
        else raised KeyError st
    | Some (Annotated rows) =>
        {| output := [PrintGroups "isic"
                        (groupby_sum ((λ r, (isic r, asset (row r))) <$> rows))];
           outcome := Ok (); final := st |}
    end.
Proof.
  unfold some_analysis, stored_frame. rewrite !run_bind. simpl.
  destruct (__data (self st)) as [l|]; simpl; [|done].
  destruct (store st !! l) as [[rows|rows]|]; try done.
  by case_bool_decide.
Qed.
End methods.

Section collect_data.
Implicit Types (st : State) (w : World) (data_out : Collected).

Lemma set_columns_run data_out st :
  set_columns data_out st
  = match data_out with
    | NoFrame => raised AttributeError st
    | Fresh rows =>
        {| output := []; outcome := Ok (length (store st));
           final := {| self := self st; store := store st ++ [Extracted rows] |} |}
    | Stored l =>
        match store st !! l with
        | Some (Extracted _) => {| output := []; outcome := Ok l; final := st |}
        | _ => raised LengthMismatch st
        end
    | Wide => raised LengthMismatch st
    end.
Proof.
  destruct data_out as [|l|rows|]; try done.
  unfold set_columns. rewrite run_bind. simpl.
  destruct (store st !! l) as [[?|?]|]; done.
Qed.

Lemma collect_data_run w st :
  collect_data w st
  = let s := self st in
    if bool_decide (folder s = "") then
      {| output := [Print "Please specify a folder"]; outcome := Ok (); final := st |}
    else if bool_decide (year_prefix (folder s) ∉ ["85"; "90"; "95"]) then
      {| output := [Print "Destined year not yet finished."]; outcome := Ok ();
         final := st |}
    else
      let start := Print (newline +:+ "Start collection data from folder " +:+ dquote
                            +:+ folder s +:+ dquote +:+ "...") in
      match listdir w (getcwd w +:+ __slash_maker s) with
      | None => {| output := [start]; outcome := Raise FileNotFoundError; final := st |}
      | Some listing =>
          let loop := foldM (collect_file (folder s))
                        (from_option Stored NoFrame (__data s))
                        (target_files listing) st in
          match outcome loop with
          | Raise e => {| output := start :: output loop; outcome := Raise e; final := st |}
          | Ok data_out =>
              let named := set_columns data_out st in
              match outcome named with
              | Raise e =>
                  {| output := start :: output loop; outcome := Raise e; final := st |}
              | Ok l =>
                  {| output := start :: output loop ++
                       [Print ("Data collection from folder " +:+ dquote +:+ folder s
                                 +:+ dquote +:+ " is completed.")];
                     outcome := Ok ();
                     final :=
                       {| self := {| upperlayer_folder := upperlayer_folder s;
                                     folder := folder s;
                                     _extracted := true; __data := Some l |};
                          store := store (final named) |} |}
              end
          end
      end.
Proof.
  unfold collect_data. rewrite run_bind. simpl.
  case_bool_decide; [done|]. case_bool_decide; [done|].
  rewrite !run_bind. simpl.
  destruct (listdir w _) as [listing|]; simpl; [|done].
  rewrite !run_bind. fold (target_files listing).
  pose proof (foldM_collect_final (folder (self st)) (target_files listing)
                (from_option Stored NoFrame (__data (self st))) st) as Hfin.
  destruct (outcome (foldM _ _ _ st)) as [data_out|e] eqn:Hloop; simpl.
  - rewrite !run_bind, Hfin, set_columns_run.
    destruct data_out as [|l|rows|]; simpl; rewrite ?app_nil_r; try done.
    destruct (store st !! l) as [[?|?]|]; simpl; rewrite ?app_nil_r; done.
  - by rewrite Hfin.
Qed.
End collect_data.

(** * Collection *)

Section extract_rows.
Implicit Types (folder : string) (records : list string).

Lemma year_of_supported folder :
  year_prefix folder ∈ ["85"; "90"; "95"] ↔ is_Some (year_of folder).
Proof.
  unfold year_of. rewrite !elem_of_cons, elem_of_nil.
  repeat case_bool_decide; split; eauto; try tauto.
  by intros [? [=]].
Qed.

Lemma _extract_unsupported folder records :
  year_of folder = None → _extract folder records = Raise UnboundLocalError.
Proof.
  unfold year_of, _extract. by repeat case_bool_decide.
Qed.

Lemma extract_by_schema_Ok sch records rows :
  extract_by_schema sch records = Ok rows →
  ∃ assets,
    decode_assets (asset_encoding sch) (field (asset_field sch) <$> records) = Ok assets
    ∧ length assets = length records
    ∧ rows = zip_with (λ record a,
                {| scale := field (scale_field sch) record;
                   primary := field (primary_field sch) record;
                   roc_sic := String.substring 0 2 (field (primary_field sch) record);
                   asset := a |}) records assets.
Proof.
  unfold extract_by_schema.
  intros (assets & Hassets & [= <-])%bind_Ok_inv.
  exists assets. split; [done|]. split; [|done].
  destruct (asset_encoding sch); simpl in Hassets.
  - destruct records as [|r records]; [done|]. rewrite fmap_cons in Hassets.
    apply zd_convertor_elements, Forall2_length in Hassets.
    rewrite <-fmap_cons, length_fmap in Hassets. done.
  - apply mapM_Ok, Forall2_length in Hassets. by rewrite length_fmap in Hassets.
Qed.

Lemma _extract_short_code folder records rows :
  _extract folder records = Ok rows → Forall short_code_ok rows.
Proof.
  destruct (year_of folder) as [y|] eqn:Hy.
  - rewrite (extract_schema_eq _ _ _ Hy).
    intros (assets & _ & _ & ->)%extract_by_schema_Ok.
    generalize assets. induction records as [|r records IH]; intros [|a l]; simpl;
      constructor; [done|apply IH].
  - by rewrite _extract_unsupported.
Qed.
End extract_rows.

Section loop_outcome.
Implicit Types (fld : string) (files : list DirEntry) (data_out : Collected)
  (st : State).

Lemma foldM_collect_outcome fld files data_out st :
  outcome (foldM (collect_file fld) data_out files st)
  = (frames ← extract_files fld files ; Ok (foldl concat_frames data_out frames)).
Proof.
  unfold extract_files. revert data_out.
  induction files as [|f files IH]; intros data_out; [done|].
  rewrite mapM_cons. simpl. rewrite run_bind, collect_file_run.
  destruct (_extract fld (records_of f)) as [frame|e]; simpl; [|done].
  rewrite IH. by destruct (mapM _ files).
Qed.

Lemma foldl_concat_frames_Fresh rows frames :
  foldl concat_frames (Fresh rows) frames = Fresh (rows ++ concat frames).
Proof.
  revert rows. induction frames as [|frame frames IH]; intros rows; simpl.
  - by rewrite app_nil_r.
  - by rewrite IH, app_assoc.
Qed.

Lemma foldl_concat_frames_NoFrame frames :
  foldl concat_frames NoFrame frames
  = match frames with [] => NoFrame | _ => Fresh (concat frames) end.
Proof. destruct frames as [|frame frames]; [done|]. apply foldl_concat_frames_Fresh. Qed.

Lemma foldl_concat_frames_Wide frames : foldl concat_frames Wide frames = Wide.
Proof. by induction frames. Qed.

Lemma foldl_concat_frames_Stored l frames :
  foldl concat_frames (Stored l) frames
  = match frames with [] => Stored l | _ => Wide end.
Proof. destruct frames; [done|]. apply foldl_concat_frames_Wide. Qed.

Lemma extract_files_short_code fld files frames :
  extract_files fld files = Ok frames → Forall short_code_ok (concat frames).
Proof.
  intros H%mapM_Ok. apply Forall_concat.
  induction H as [|f frame files frames Hf _ IH]; constructor; [|done].
  by eapply _extract_short_code.
Qed.
End loop_outcome.

(** * The invariant of the processor *)

Section invariant.
Implicit Types (st : State) (w : World).

Lemma Forall_filter_keep {A} (P Q : A → Prop) `{∀ x, Decision (P x)} (l : list A) :
  Forall Q l → Forall Q (filter P l).
Proof.
  rewrite !Forall_forall. intros HQ x [_ Hx]%list_elem_of_filter. by apply HQ.
Qed.

Lemma filter_short_code (f : AnnotatedRow → Prop) `{∀ r, Decision (f r)}
    (rows : list AnnotatedRow) :
  Forall short_code_ok (row <$> rows) → Forall short_code_ok (row <$> filter f rows).
Proof.
  rewrite !Forall_fmap. apply Forall_filter_keep.
Qed.

Lemma inv_init uf f : processor_inv {| self := __init__ uf f; store := [] |}.
Proof. split; [done|]. split; [by intros l [=]|constructor]. Qed.

Lemma inv_apply_conditions k conds st :
  processor_inv st → processor_inv (final (apply_conditions k conds st)).
Proof.
  intros Hinv. pose proof Hinv as (Hflag & Href & Hrows).
  rewrite apply_conditions_run.
  destruct (_extracted (self st)) eqn:Hx; [|exact Hinv].
  destruct (stored_frame st) as [df|] eqn:Hdf; [|exact Hinv].
  unfold processor_inv. simpl. destruct Hflag as [Hy _].
  split; [by eauto|]. split.
  - intros l [= <-]. rewrite lookup_app_r, Nat.sub_diag by lia. by eexists.
  - apply Forall_app. split; [done|]. constructor; [|constructor].
    unfold stored_frame in Hdf. destruct (__data (self st)) as [l|]; [|done].
    simpl in Hdf. apply (Forall_lookup_1 _ _ _ _ Hrows) in Hdf.
    destruct df as [rows|rows]; simpl in *.
    + by apply Forall_filter_keep.
    + by apply (filter_short_code (λ r, scale (row r) ≠ "8")).
Qed.

Lemma annotate_rows tb default (rows : list ExtractedRow) :
  row <$> (annotate tb default <$> rows) = rows.
Proof. rewrite <-list_fmap_compose. apply list_fmap_id. Qed.

Lemma inv_sic_mapping w st :
  processor_inv st → processor_inv (final (sic_mapping w st)).
Proof.
  intros Hinv. pose proof Hinv as (Hflag & Href & Hrows).
  rewrite sic_mapping_run.
  destruct (_extracted (self st)) eqn:Hx; [|exact Hinv].
  destruct (rocsic_to_isic w _) as [tb|e]; [|exact Hinv].
  destruct (__data (self st)) as [l|] eqn:Hl; [|exact Hinv].
  destruct (stored_frame st) as [df|] eqn:Hdf; [|exact Hinv].
  destruct (tb !! "Else") as [default|]; [|exact Hinv].
  unfold processor_inv. simpl. rewrite Hx, Hl.
  unfold stored_frame in Hdf. rewrite Hl in Hdf. simpl in Hdf.
  split; [done|]. split.
  - intros l' Hl'. destruct (Href l' Hl') as [df' Hdf'].
    destruct (decide (l = l')) as [<-|Hne].
    + rewrite list_lookup_insert_eq; [by eexists|]. by eapply lookup_lt_Some.
    + rewrite list_lookup_insert_ne by done. by eexists.
  - apply Forall_insert; [done|]. simpl. rewrite annotate_rows.
    by apply (Forall_lookup_1 _ _ _ _ Hrows) in Hdf.
Qed.

Lemma inv_unchanged st st' : st' = st → processor_inv st → processor_inv st'.
Proof. by intros ->. Qed.

Lemma final_show_data st : final (show_data st) = st.
Proof. rewrite show_data_run. by destruct (_extracted (self st)). Qed.

Lemma final_get_data st : final (get_data st) = st.
Proof. rewrite get_data_run. by destruct (_extracted (self st)). Qed.

Lemma final_output_CSV st : final (output_CSV st) = st.
Proof. rewrite output_CSV_run. simpl. by destruct (stored_frame st). Qed.

Lemma final_some_analysis st : final (some_analysis st) = st.
Proof.
  rewrite some_analysis_run.
  destruct (stored_frame st) as [[rows|?]|]; try done. by case_bool_decide.
Qed.
End invariant.

Section collect_invariant.
Implicit Types (st : State) (w : World).

(** The three ways [collect_data] can leave the state: untouched; with
    a new frame of rows just extracted; or, when no file was read, with
    the frame it already had. *)
Lemma collect_data_final w st :
  final (collect_data w st) = st
  ∨ (∃ rows,
       Forall short_code_ok rows ∧ is_Some (year_of (folder (self st)))
       ∧ final (collect_data w st)
         = {| self := {| upperlayer_folder := upperlayer_folder (self st);
                         folder := folder (self st);
                         _extracted := true;
                         __data := Some (length (store st)) |};
              store := store st ++ [Extracted rows] |})
  ∨ (∃ l rows,
       __data (self st) = Some l ∧ store st !! l = Some (Extracted rows)
       ∧ is_Some (year_of (folder (self st)))
       ∧ final (collect_data w st)
         = {| self := {| upperlayer_folder := upperlayer_folder (self st);
                         folder := folder (self st);
                         _extracted := true;
                         __data := Some l |};
              store := store st |}).
Proof.
  rewrite collect_data_run. simpl.
  case_bool_decide; [by left|]. case_bool_decide as Hyear; [by left|].
  assert (is_Some (year_of (folder (self st)))) as Hy.
  { apply year_of_supported. by destruct (decide (year_prefix (folder (self st))
                                                  ∈ ["85"; "90"; "95"])). }
  destruct (listdir w _) as [listing|]; [|by left].
  rewrite foldM_collect_outcome.
  destruct (extract_files _ _) as [frames|e] eqn:Hframes; simpl; [|by left].
  rewrite set_columns_run.
  destruct (__data (self st)) as [l|] eqn:Hl; simpl.
  - rewrite foldl_concat_frames_Stored. destruct frames; [|by left].
    destruct (store st !! l) as [[rows|rows]|] eqn:Hdf; simpl; try by left.
    right. right. by exists l, rows.
  - rewrite foldl_concat_frames_NoFrame.
    apply extract_files_short_code in Hframes.
    destruct frames as [|frame frames']; [by left|].
    simpl. right. left. eexists. split; [exact Hframes|by split].
Qed.

Lemma inv_collect_data w st :
  processor_inv st → processor_inv (final (collect_data w st)).
Proof.
  intros Hinv. pose proof Hinv as (Hflag & Href & Hrows).
  destruct (collect_data_final w st)
    as [-> | [(rows & Hok & Hy & ->) | (l & rows & Hl & Hdf & Hy & ->)]];
    [done| |]; unfold processor_inv; simpl.
  - split; [by eauto|]. split.
    + intros l [= <-]. rewrite lookup_app_r, Nat.sub_diag by lia. by eexists.
    + apply Forall_app. split; [done|]. by repeat constructor.
  - split; [by eauto|]. split; [|done].
    intros l' [= <-]. by eexists.
Qed.

Lemma reachable_inv st : reachable st → processor_inv st.
Proof.
  induction 1 as [uf f|w st _ IH|k conds st _ IH|w st _ IH|st _ IH|st _ IH
                  |st _ IH|st _ IH].
  - apply inv_init.
  - by apply inv_collect_data.
  - by apply inv_apply_conditions.
  - by apply inv_sic_mapping.
  - by rewrite final_some_analysis.
  - by rewrite final_show_data.
  - by rewrite final_get_data.
  - by rewrite final_output_CSV.
Qed.

Lemma reachable_not_extracted st :
  reachable st → _extracted (self st) = false → __data (self st) = None.
Proof. intros (Hflag & _)%reachable_inv Hx. by rewrite Hx in Hflag. Qed.

Lemma reachable_extracted st :
  reachable st → _extracted (self st) = true →
  is_Some (year_of (folder (self st)))
  ∧ ∃ l df, __data (self st) = Some l ∧ store st !! l = Some df
            ∧ Forall short_code_ok (extracted_rows df).
Proof.
  intros (Hflag & Href & Hrows)%reachable_inv Hx. rewrite Hx in Hflag.
  destruct Hflag as [Hy [l Hl]]. split; [done|].
  destruct (Href l Hl) as [df Hdf]. exists l, df. split; [done|]. split; [done|].
  by apply (Forall_lookup_1 _ _ _ _ Hrows) in Hdf.
Qed.
End collect_invariant.

(** * The classification table *)

Section unicode.
Implicit Types (code d : Z) (codes : list Z) (c : ascii) (cs : list ascii).

Lemma in_ranges_true ranges code :
  in_ranges ranges code = true ↔ ∃ r, r ∈ ranges ∧ r.1 ≤ code ≤ r.2.
Proof.
  unfold in_ranges. rewrite existsb_exists. split.
  - intros (r & Hr%list_elem_of_In & [?%Z.leb_le ?%Z.leb_le]%andb_true_iff). eauto.
  - intros (r & Hr%list_elem_of_In & H1 & H2). exists r. split; [done|].
    apply andb_true_iff. by rewrite !Z.leb_le.
Qed.

Lemma todecimal_Some code d :
  unicode_todecimal code = Some d →
  ∃ zero, zero ∈ decimal_zeros ∧ zero ≤ code ≤ zero + 9 ∧ d = code - zero.
Proof.
  unfold unicode_todecimal. destruct (List.find _ _) as [zero|] eqn:E; [|done].
  intros [= <-]. apply find_some in E as [Hin%list_elem_of_In H].
  apply andb_true_iff in H as [?%Z.leb_le ?%Z.leb_le]. eauto.
Qed.

Lemma todecimal_range code d : unicode_todecimal code = Some d → 0 ≤ d ≤ 9.
Proof. intros (zero & _ & ? & ->)%todecimal_Some. lia. Qed.

(** The digits of every script lie in one range of the numeric
    characters, away from the white space and beyond ASCII but for the
    digits 0 to 9; no numeric character is white space. *)
Lemma decimal_zeros_numeric :
  Forall (λ zero, Exists (λ r, r.1 ≤ zero ∧ zero + 9 ≤ r.2) numeric_ranges)
    decimal_zeros.
Proof. by_computation. Qed.

Lemma numeric_ranges_not_space :
  Forall (λ r, Forall (λ r', r.2 < r'.1 ∨ r'.2 < r.1) space_ranges) numeric_ranges.
Proof. by_computation. Qed.

Lemma numeric_ranges_ascii :
  Forall (λ r, 128 ≤ r.1 ∨ (r.1 = 48 ∧ r.2 = 57)) numeric_ranges.
Proof. by_computation. Qed.

Lemma todecimal_numeric code d :
  unicode_todecimal code = Some d → unicode_isnumeric code = true.
Proof.
  intros (zero & Hin & ? & _)%todecimal_Some.
  apply (proj1 (Forall_forall _ _) decimal_zeros_numeric), Exists_exists in Hin
    as (r & Hr & ? & ?).
  apply in_ranges_true. exists r. split; [done|lia].
Qed.

Lemma numeric_not_space code :
  unicode_isnumeric code = true → unicode_isspace code = false.
Proof.
  intros (r & Hr & ?)%in_ranges_true. apply not_true_is_false.
  intros (r' & Hr' & ?)%in_ranges_true.
  apply (proj1 (Forall_forall _ _) numeric_ranges_not_space) in Hr.
  apply (proj1 (Forall_forall _ _) Hr) in Hr'. lia.
Qed.

Lemma numeric_ascii code :
  unicode_isnumeric code = true → code < 128 → 48 ≤ code ≤ 57.
Proof.
  intros (r & Hr & ?)%in_ranges_true Hlt.
  apply (proj1 (Forall_forall _ _) numeric_ranges_ascii) in Hr. lia.
Qed.

Lemma todecimal_ascii code :
  48 ≤ code ≤ 57 → unicode_todecimal code = Some (code - 48).
Proof.
  intros H.
  assert (code = 48 ∨ code = 49 ∨ code = 50 ∨ code = 51 ∨ code = 52 ∨ code = 53
          ∨ code = 54 ∨ code = 55 ∨ code = 56 ∨ code = 57) as Hcases by lia.
  repeat (destruct Hcases as [-> | Hcases]); try subst code; vm_compute; reflexivity.
Qed.

Lemma chr_ord c : chr (ord c) = c.
Proof. unfold chr, ord. by rewrite N2Z.id, ascii_N_embedding. Qed.

Lemma digit_val_chr d : 0 ≤ d ≤ 9 → digit_val (chr (48 + d)) = Some d.
Proof.
  intros H.
  assert (d = 0 ∨ d = 1 ∨ d = 2 ∨ d = 3 ∨ d = 4 ∨ d = 5 ∨ d = 6 ∨ d = 7
          ∨ d = 8 ∨ d = 9) as Hcases by lia.
  repeat (destruct Hcases as [-> | Hcases]); try subst d; reflexivity.
Qed.

Lemma is_continuation_ascii c : ord c < 128 → is_continuation c = false.
Proof.
  unfold is_continuation, ord. intros H.
  destruct (Z.leb_spec 128 (Z.of_N (N_of_ascii c))); [lia|done].
Qed.

Lemma code_points_from_ascii cs code :
  forallb (λ c, ord c <? 128) cs = true →
  code_points_from code cs = code :: (ord <$> cs).
Proof.
  revert code. induction cs as [|c cs IH]; intros code; simpl; [done|].
  intros [Hc%Z.ltb_lt Hcs]%andb_true_iff.
  rewrite is_continuation_ascii by done. f_equal.
  rewrite IH by done. f_equal. unfold lead_bits.
  destruct (Z.ltb_spec (ord c) 128); [done|lia].
Qed.

(** The code points of an ASCII string are its bytes. *)
Lemma code_points_ascii (s : string) :
  forallb (λ c, ord c <? 128) (chars s) = true → code_points s = ord <$> chars s.
Proof.
  unfold code_points. destruct (chars s) as [|c cs]; [done|]. simpl.
  intros [Hc%Z.ltb_lt Hcs]%andb_true_iff.
  rewrite code_points_from_ascii by done. f_equal. unfold lead_bits.
  destruct (Z.ltb_spec (ord c) 128); [done|lia].
Qed.
End unicode.

Section int_numeric.
Implicit Types (k : string) (code d : Z) (codes ds : list Z) (c : ascii).

(** Before it parses, [int] turns a decimal digit of any script into
    its ASCII digit. *)
Lemma to_ascii_digit code d codes :
  unicode_todecimal code = Some d →
  decimal_and_space_to_ascii (code :: codes)
  = chr (48 + d) :: decimal_and_space_to_ascii codes.
Proof.
  intros Hd. pose proof (todecimal_numeric _ _ Hd) as Hnum. simpl.
  destruct (Z.ltb_spec code 127) as [Hlt|Hge].
  - assert (48 ≤ code ≤ 57) as Hr by (apply numeric_ascii; [done|lia]).
    rewrite (todecimal_ascii _ Hr) in Hd. injection Hd as <-.
    do 2 f_equal. lia.
  - by rewrite (numeric_not_space _ Hnum), Hd.
Qed.

Lemma to_ascii_decimal codes ds :
  mapM unicode_todecimal codes = Some ds →
  decimal_and_space_to_ascii codes = (λ d, chr (48 + d)) <$> ds.
Proof.
  intros H%mapM_Some_1. induction H as [|code d codes ds Hd _ IH]; [done|].
  by rewrite (to_ascii_digit _ _ _ Hd), IH.
Qed.

(** A numeric character that is no decimal digit becomes the question
    mark that the parser refuses. *)
Lemma to_ascii_not_decimal codes :
  Forall (λ code, unicode_isnumeric code = true) codes →
  mapM unicode_todecimal codes = None →
  ∃ ds, Forall (λ d, 0 ≤ d ≤ 9) ds
        ∧ decimal_and_space_to_ascii codes = ((λ d, chr (48 + d)) <$> ds) ++ ["?"%char].
Proof.
  induction 1 as [|code codes Hnum _ IH]; [done|]. intros Hnone.
  destruct (unicode_todecimal code) as [d|] eqn:Hd.
  - destruct IH as (ds & Hds & Heq).
    { apply mapM_None. apply mapM_None in Hnone.
      inversion Hnone as [? ? Hc|]; subst; [congruence|done]. }
    exists (d :: ds). split; [constructor; [by eapply todecimal_range|done]|].
    by rewrite (to_ascii_digit _ _ _ Hd), Heq.
  - exists []. split; [done|]. simpl.
    destruct (Z.ltb_spec code 127) as [Hlt|Hge].
    + assert (48 ≤ code ≤ 57) as Hr by (apply numeric_ascii; [done|lia]).
      by rewrite (todecimal_ascii _ Hr) in Hd.
    + by rewrite (numeric_not_space _ Hnum), Hd.
Qed.

Lemma digit_chars_decimal ds :
  Forall (λ d, 0 ≤ d ≤ 9) ds →
  Forall is_digit ((λ d, chr (48 + d)) <$> ds)
  ∧ decimal ((λ d, chr (48 + d)) <$> ds) = digits_value ds.
Proof.
  intros H. split.
  - apply Forall_fmap. eapply Forall_impl; [done|]. intros d Hd. simpl.
    exists d. by apply digit_val_chr.
  - unfold decimal, digits_value.
    assert (∀ acc, foldl (λ acc c, 10 * acc + default 0 (digit_val c)) acc
                     ((λ d, chr (48 + d)) <$> ds)
                   = foldl (λ acc d, 10 * acc + d) acc ds) as Hacc; [|apply Hacc].
    induction H as [|d ds Hd _ IH]; intros acc; [done|].
    rewrite fmap_cons. simpl. rewrite digit_val_chr by done. apply IH.
Qed.

Lemma isnumeric_true k :
  isnumeric k = true
  ↔ code_points k ≠ [] ∧ Forall (λ code, unicode_isnumeric code = true) (code_points k).
Proof.
  unfold isnumeric. rewrite andb_true_iff, bool_decide_eq_true, forallb_forall.
  rewrite Forall_forall. split; intros [Hne H]; (split; [done|]).
  - intros c Hc%list_elem_of_In. by apply H.
  - intros c Hc%list_elem_of_In. by apply H.
Qed.

Lemma to_ascii_ord (cs : list ascii) :
  Forall (λ c, unicode_isnumeric (ord c) = true ∧ ord c < 128) cs →
  decimal_and_space_to_ascii (ord <$> cs) = cs.
Proof.
  induction 1 as [|c cs [Hnum Hlt] _ IH]; [done|]. rewrite fmap_cons. simpl.
  pose proof (numeric_ascii _ Hnum Hlt).
  destruct (Z.ltb_spec (ord c) 127); [|lia]. by rewrite chr_ord, IH.
Qed.

(** On a numeric string [int] parses the characters made ASCII, also
    when the string is ASCII already. *)
Lemma int_numeric_to_ascii k :
  isnumeric k = true →
  int k = PyLong_FromString (decimal_and_space_to_ascii (code_points k)).
Proof.
  intros [_ Hnum]%isnumeric_true. unfold int.
  destruct (forallb _ (chars k)) eqn:Hascii; [|done].
  rewrite code_points_ascii in * by done. rewrite to_ascii_ord; [done|].
  apply Forall_fmap in Hnum. pose proof (proj1 (forallb_forall _ _) Hascii) as Hall.
  apply Forall_forall. intros c Hc. split.
  - by apply (proj1 (Forall_forall _ _) Hnum) in Hc.
  - by apply Z.ltb_lt, Hall, list_elem_of_In.
Qed.

(** [int] on a numeric string: the value of its decimal digits, and a
    ValueError when a character of it is no decimal digit or when it
    has more than 4300 digits. *)
Lemma int_numeric k :
  isnumeric k = true →
  match decimal_value k with
  | Some v => int k = Ok v
  | None => ∃ e, int k = Raise e ∧ (e = InvalidLiteral ∨ e = TooManyDigits)
  end.
Proof.
  intros Hk. rewrite (int_numeric_to_ascii k Hk).
  apply isnumeric_true in Hk as [Hne Hnum]. unfold decimal_value.
  destruct (mapM unicode_todecimal (code_points k)) as [ds|] eqn:Hds; simpl.
  - rewrite (to_ascii_decimal _ _ Hds).
    assert (Forall (λ d, 0 ≤ d ≤ 9) ds ∧ ds ≠ []) as [Hr Hds_ne].
    { apply mapM_Some_1 in Hds. split.
      - clear Hne Hnum. induction Hds as [|code d ? ? Hd _ IH]; constructor; [|done].
        by eapply todecimal_range.
      - intros ->. by inversion Hds. }
    destruct (digit_chars_decimal ds Hr) as [Hdig Hval].
    rewrite PyLong_FromString_digits; [|by destruct ds|done].
    rewrite length_fmap, Hval.
    destruct (Z.ltb_spec int_max_str_digits (Z.of_nat (length ds))).
    + rewrite bool_decide_eq_false_2 by (intros [_ ?]; lia).
      eexists. split; [done|by right].
    + by rewrite bool_decide_eq_true_2.
  - destruct (to_ascii_not_decimal _ Hnum Hds) as (ds & Hr & ->).
    apply PyLong_FromString_digits_then; try done.
    by apply digit_chars_decimal.
Qed.

Lemma decimal_value_numeric k v : decimal_value k = Some v → isnumeric k = true.
Proof.
  unfold decimal_value.
  destruct (mapM unicode_todecimal (code_points k)) as [ds|] eqn:Hds; [|done]. simpl.
  case_bool_decide as Hcond; [|done]. intros _. destruct Hcond as [Hne _].
  apply mapM_Some_1 in Hds. apply isnumeric_true. split.
  - intros E. rewrite E in Hds. by inversion Hds.
  - clear Hne. induction Hds as [|code d ? ? Hd _ IH]; constructor; [|done].
    by eapply todecimal_numeric.
Qed.
End int_numeric.

Section pad_code.
Implicit Types (k key : string) (c : ascii).

Lemma pad_code_not_numeric k : isnumeric k = false → pad_code k = Ok k.
Proof. unfold pad_code. by intros ->. Qed.

Lemma pad_code_decimal k v :
  decimal_value k = Some v → pad_code k = Ok (if v <? 10 then "0" +:+ k else k).
Proof.
  intros Hv. pose proof (decimal_value_numeric _ _ Hv) as Hnum.
  pose proof (int_numeric k Hnum) as Hint. rewrite Hv in Hint.
  unfold pad_code. by rewrite Hnum, Hint.
Qed.

Lemma pad_code_raises k :
  isnumeric k = true → decimal_value k = None →
  ∃ e, pad_code k = Raise e ∧ (e = InvalidLiteral ∨ e = TooManyDigits).
Proof.
  intros Hnum Hv. pose proof (int_numeric k Hnum) as Hint. rewrite Hv in Hint.
  destruct Hint as (e & Hint & He). exists e. split; [|done].
  unfold pad_code. by rewrite Hnum, Hint.
Qed.

(** The three ways of the body of the loop. *)
Lemma pad_code_spec k :
  match decimal_value k with
  | Some v => pad_code k = Ok (if v <? 10 then "0" +:+ k else k)
  | None =>
      if isnumeric k
      then ∃ e, pad_code k = Raise e ∧ (e = InvalidLiteral ∨ e = TooManyDigits)
      else pad_code k = Ok k
  end.
Proof.
  destruct (decimal_value k) as [v|] eqn:Hv; [by apply pad_code_decimal|].
  destruct (isnumeric k) eqn:Hnum; [by apply pad_code_raises|].
  by apply pad_code_not_numeric.
Qed.

(** What [pad_code] returns is the key of the building rule. *)
Lemma pad_code_padded k key : pad_code k = Ok key → key = padded k.
Proof.
  pose proof (pad_code_spec k) as H. unfold padded.
  destruct (decimal_value k) as [v|]; [congruence|].
  destruct (isnumeric k); [|congruence].
  destruct H as (e & -> & _). done.
Qed.

Lemma pad_code_cases k key :
  pad_code k = Ok key → key = k ∨ key = "0" +:+ k ∧ isnumeric k = true.
Proof.
  unfold pad_code. destruct (isnumeric k); [|intros [= <-]; by left].
  destruct (int k) as [v|]; simpl; [|done].
  destruct (v <? 10); intros [= <-]; [by right|by left].
Qed.

Lemma pad_code_digit c :
  is_digit c → pad_code (String c "") = Ok ("0" +:+ String c "")
               ∧ pad_code ("0" +:+ String c "") = Ok ("00" +:+ String c "").
Proof.
  intros [d Hd]. destruct c as [[] [] [] [] [] [] [] []];
    vm_compute in Hd; try discriminate Hd; split; vm_compute; reflexivity.
Qed.


Lemma pad_code_two_digits k c :
  is_digit c → pad_code k = Ok ("0" +:+ String c "") ↔ k = String c "".
Proof.
  intros Hc. destruct (pad_code_digit c Hc) as [H1 H2]. split.
  - intros Hk. destruct (pad_code_cases _ _ Hk) as [Heq|[Heq _]].
    + subst k. rewrite H2 in Hk. cbv [String.append] in Hk. congruence.
    + by apply (inj (String.append "0")) in Heq.
  - by intros ->.
Qed.

Lemma pad_code_Else k : pad_code k = Ok "Else" ↔ k = "Else".
Proof.
  split; [|by intros ->].
  intros Hk. destruct (pad_code_cases _ _ Hk) as [Heq|[Heq _]]; [done|discriminate].
Qed.
End pad_code.

Section build_table.
Context (code_of : SicRow → string).
Implicit Types (sheet : list SicRow) (tb : gmap string string) (key k : string)
  (codes : list string).

Lemma fold_result_app {A B} (f : B → A → result B) (b : B) (l1 l2 : list A) :
  fold_result f b (l1 ++ l2) = (b' ← fold_result f b l1 ; fold_result f b' l2).
Proof.
  revert b. induction l1 as [|a l1 IH]; intros b; simpl; [done|].
  destruct (f b a) as [b'|e]; simpl; [apply IH|done].
Qed.

Lemma add_codes_cons v tb k codes :
  add_codes v tb (k :: codes)
  = (key ← pad_code k ; add_codes v (<[key := v]> tb) codes).
Proof. unfold add_codes. simpl. by destruct (pad_code k). Qed.

(** The inner loop, when no code of the list raises. *)
Lemma add_codes_Ok v tb codes tb' :
  add_codes v tb codes = Ok tb' →
  Forall (λ k, ∃ key, pad_code k = Ok key) codes
  ∧ ∀ key, tb' !! key
           = if bool_decide (Ok key ∈ pad_code <$> codes) then Some v else tb !! key.
Proof.
  revert tb. induction codes as [|k codes IH]; intros tb.
  - intros [= <-]. split; [done|]. intros key.
    rewrite bool_decide_eq_false_2; [done|]. by intros ?%elem_of_nil.
  - rewrite add_codes_cons. intros (key0 & Hk & H)%bind_Ok_inv.
    destruct (IH _ H) as [Hall Hlookup]. split; [constructor; eauto|].
    intros key. rewrite Hlookup, fmap_cons, Hk. case_bool_decide as Hin.
    + by rewrite bool_decide_eq_true_2 by by right.
    + destruct (decide (key = key0)) as [->|Hne].
      * rewrite lookup_insert_eq. by rewrite bool_decide_eq_true_2 by by left.
      * rewrite lookup_insert_ne by done.
        rewrite bool_decide_eq_false_2; [done|].
        intros [?|?]%elem_of_cons; [|done]. congruence.
Qed.

Lemma add_codes_Raise v tb codes e :
  add_codes v tb codes = Raise e → ∃ k, k ∈ codes ∧ pad_code k = Raise e.
Proof.
  revert tb. induction codes as [|k codes IH]; intros tb; [done|].
  rewrite add_codes_cons. destruct (pad_code k) as [key|e'] eqn:Hk; simpl.
  - intros (k' & ? & ?)%IH. exists k'. split; [by right|done].
  - intros [= <-]. exists k. split; [by left|done].
Qed.

Lemma build_table_snoc sheet r :
  build_table code_of (sheet ++ [r])
  = (tb ← build_table code_of sheet ;
     add_codes (ISIC_Rev3 r) tb (split "," (code_of r))).
Proof.
  unfold build_table. rewrite fold_result_app.
  destruct (fold_result _ ∅ sheet) as [tb|e]; simpl; [|done].
  by destruct (add_codes _ _ _).
Qed.

Lemma build_table_snoc_Ok sheet r tb' :
  build_table code_of (sheet ++ [r]) = Ok tb' →
  ∃ tb, build_table code_of sheet = Ok tb
        ∧ Forall (λ k, ∃ key, pad_code k = Ok key) (split "," (code_of r))
        ∧ ∀ key, tb' !! key
                 = if bool_decide (Ok key ∈ pad_code <$> split "," (code_of r))
                   then Some (ISIC_Rev3 r) else tb !! key.
Proof.
  rewrite build_table_snoc. intros (tb & Htb & [? ?]%add_codes_Ok)%bind_Ok_inv.
  by exists tb.
Qed.

Lemma build_table_lookup_None sheet tb key :
  build_table code_of sheet = Ok tb →
  tb !! key = None
  ↔ ∀ r k, r ∈ sheet → k ∈ split "," (code_of r) → pad_code k ≠ Ok key.
Proof.
  revert tb. induction sheet as [|r sheet IH] using rev_ind; intros tb.
  - intros [= <-]. split; [by intros _ r k ?%elem_of_nil|].
    intros _. apply lookup_empty.
  - intros (tb0 & Htb0 & _ & Hlookup)%build_table_snoc_Ok.
    rewrite Hlookup. case_bool_decide as Hin.
    + split; [done|]. intros H. exfalso.
      apply list_elem_of_fmap in Hin as (k & Hk & Hin).
      apply (H r k); [|done..]. apply elem_of_app. right. by left.
    + rewrite (IH tb0 Htb0). split.
      * intros H r' k [?|Hr']%elem_of_app Hk; [by eauto|].
        apply list_elem_of_singleton in Hr'. subst r'. intros Heq.
        apply Hin, list_elem_of_fmap. by exists k.
      * intros H r' k Hr'. apply H, elem_of_app. by left.
Qed.

Lemma build_table_lookup_Some sheet tb key v :
  build_table code_of sheet = Ok tb → tb !! key = Some v →
  ∃ r k, r ∈ sheet ∧ k ∈ split "," (code_of r) ∧ pad_code k = Ok key
         ∧ v = ISIC_Rev3 r.
Proof.
  revert tb. induction sheet as [|r sheet IH] using rev_ind; intros tb.
  - intros [= <-]. by rewrite lookup_empty.
  - intros (tb0 & Htb0 & _ & Hlookup)%build_table_snoc_Ok.
    rewrite Hlookup. case_bool_decide as Hin.
    + intros [= <-]. apply list_elem_of_fmap in Hin as (k & Hk & Hin).
      exists r, k. split; [|done]. apply elem_of_app. right. by left.
    + intros (r' & k & Hr' & ?)%(IH tb0 Htb0). exists r', k. split; [|done].
      apply elem_of_app. by left.
Qed.

Lemma build_table_is_Some sheet tb key :
  build_table code_of sheet = Ok tb →
  is_Some (tb !! key)
  ↔ ∃ r k, r ∈ sheet ∧ k ∈ split "," (code_of r) ∧ pad_code k = Ok key.
Proof.
  intros Htb. split.
  - intros [v Hv]. destruct (build_table_lookup_Some _ _ _ _ Htb Hv)
      as (r & k & ? & ? & ? & _). by exists r, k.
  - intros (r & k & Hr & Hk & Hkey). apply not_eq_None_Some.
    rewrite (build_table_lookup_None _ _ _ Htb). intros H. by apply (H r k).
Qed.

(** The table is built exactly when no code of the sheet raises, and a
    failure is the failure of one of the codes. *)
Lemma build_table_Raise sheet e :
  build_table code_of sheet = Raise e →
  ∃ r k, r ∈ sheet ∧ k ∈ split "," (code_of r) ∧ pad_code k = Raise e.
Proof.
  induction sheet as [|r sheet IH] using rev_ind; [done|].
  rewrite build_table_snoc.
  destruct (build_table code_of sheet) as [tb|e'] eqn:Htb; simpl.
  - intros (k & ? & ?)%add_codes_Raise. exists r, k. split; [|done].
    apply elem_of_app. right. by left.
  - intros [= <-]. destruct IH as (r' & k & ? & ?); [done|].
    exists r', k. split; [|done]. apply elem_of_app. by left.
Qed.

Lemma build_table_Ok_codes sheet tb :
  build_table code_of sheet = Ok tb →
  ∀ r k, r ∈ sheet → k ∈ split "," (code_of r) → ∃ key, pad_code k = Ok key.
Proof.
  revert tb. induction sheet as [|r sheet IH] using rev_ind; intros tb.
  - by intros _ r k ?%elem_of_nil.
  - intros (tb0 & Htb0 & Hall & _)%build_table_snoc_Ok r' k [?|Hr']%elem_of_app Hk.
    + by eapply IH.
    + apply list_elem_of_singleton in Hr'. subst r'.
      by apply (proj1 (Forall_forall _ _) Hall).
Qed.

Lemma build_table_builds sheet :
  (∀ r k, r ∈ sheet → k ∈ split "," (code_of r) → ∃ key, pad_code k = Ok key) →
  ∃ tb, build_table code_of sheet = Ok tb.
Proof.
  intros H. destruct (build_table code_of sheet) as [tb|e] eqn:Htb; [by eexists|].
  apply build_table_Raise in Htb as (r & k & Hr & Hk & He).
  destruct (H r k Hr Hk) as [key Hkey]. congruence.
Qed.

(** The table depends on the sheet through the column read and the
    column of the classifications only. *)
Lemma build_table_columns sheet sheet' :
  code_of <$> sheet = code_of <$> sheet' →
  ISIC_Rev3 <$> sheet = ISIC_Rev3 <$> sheet' →
  build_table code_of sheet = build_table code_of sheet'.
Proof.
  unfold build_table. generalize (∅ : gmap string string).
  revert sheet'. induction sheet as [|r sheet IH]; intros [|r' sheet'] tb; try done.
  rewrite !fmap_cons. intros [= Hc Hcs] [= Hi His]. simpl. rewrite Hc, Hi.
  destruct (add_codes _ _ _) as [tb'|e]; simpl; [by apply IH|done].
Qed.
End build_table.

(** * Claims on the zoned-decimal convertor *)

(** C3, as the code has it. For every string of at least one and at most
    4300 decimal digits followed by a recognised sign symbol, and such that
    ten times the value of the leading digits plus the final digit fits in
    int64, the convertor returns sign * (10 * leading value + final digit).
    Every string with at most 17 leading digits is such a string. Beyond
    4300 leading digits the integer conversion refuses the string. In
    particular "788D" gives 7884, "788}" gives -7880, and "000}" gives 0. *)
Theorem zd_decode_value :
  (∀ (ds : string) (c : ascii) (sg d : Z),
     chars ds ≠ [] → Forall is_digit (chars ds) → len ds ≤ int_max_str_digits →
     zd_map !! String c "" = Some (sg, d) →
     10 * decimal (chars ds) + d ≤ int64_max →
     zd_decode (ds +:+ String c "") = Ok (sg * (10 * decimal (chars ds) + d)))
  ∧ (∀ (ds : string) (d : Z),
       (length (chars ds) ≤ 17)%nat → d ≤ 9 →
       len ds ≤ int_max_str_digits ∧ 10 * decimal (chars ds) + d ≤ int64_max)
  ∧ (∀ (ds : string) (c : ascii),
       Forall is_digit (chars ds) → int_max_str_digits < len ds →
       zd_decode (ds +:+ String c "") = Raise TooManyDigits)
  ∧ zd_decode "788D" = Ok 7884
  ∧ zd_decode "788}" = Ok (-7880)
  ∧ zd_decode "000}" = Ok 0.
Proof.
  split; [|split; [|split; [|by vm_compute]]].
  - intros ds c sg d Hne Hdig Hlen Hsym Hmax.
    destruct (zd_map_shape _ _ _ Hsym) as (Hsg & Hd & _).
    pose proof (decimal_bounds (chars ds)) as [Hv _].
    rewrite zd_decode_snoc, to_int64_digits by (done || lia).
    simpl. rewrite Hsym. f_equal. apply zd_combine_in_range; lia.
  - intros ds d Hlen Hd. split; [|by apply decimal_17_digits].
    unfold len, int_max_str_digits. lia.
  - intros ds c Hdig Hlen. rewrite zd_decode_snoc. unfold to_int64.
    by rewrite int_too_many_digits.
Qed.

Lemma zd_decode_value_witness :
  chars "00000000000788" ≠ []
  ∧ Forall is_digit (chars "00000000000788")
  ∧ len "00000000000788" ≤ int_max_str_digits
  ∧ zd_map !! "}" = Some (-1, 0)
  ∧ 10 * decimal (chars "00000000000788") + 0 ≤ int64_max
  ∧ zd_decode "00000000000788}" = Ok (-1 * (10 * decimal (chars "00000000000788") + 0)).
Proof.
  assert (chars "00000000000788" ≠ []) as H1 by discriminate.
  assert (Forall is_digit (chars "00000000000788")) as H2 by by_computation.
  assert (len "00000000000788" ≤ int_max_str_digits) as H3 by (vm_compute; discriminate).
  assert (zd_map !! "}" = Some (-1, 0)) as H4 by (vm_compute; reflexivity).
  assert (10 * decimal (chars "00000000000788") + 0 ≤ int64_max) as H5
    by (vm_compute; discriminate).
  refine (conj H1 (conj H2 (conj H3 (conj H4 (conj H5 _))))).
  exact (proj1 zd_decode_value "00000000000788" "}"%char (-1) 0 H1 H2 H3 H4 H5).
Defined.

(** C3 as it is stated fails on the code: a lone sign symbol has no
    leading digits for [int] to read, eighteen leading digits already
    leave int64, and 4301 leading zeros are more digits than [int]
    converts. *)
Lemma zd_decode_value_counterexample :
  (zd_map !! "D" = Some (1, 4) ∧ Forall is_digit (chars "")
   ∧ zd_decode "D" = Raise InvalidLiteral)
  ∧ (Forall is_digit (chars "999999999999999999")
     ∧ zd_decode "999999999999999999D" = Ok (-8446744073709551622)
     ∧ zd_decode "999999999999999999D"
       ≠ Ok (1 * (10 * decimal (chars "999999999999999999") + 4)))
  ∧ (Forall is_digit (replicate 4301 "0"%char)
     ∧ decimal (replicate 4301 "0"%char) = 0
     ∧ zd_decode (str (replicate 4301 "0"%char) +:+ "D") = Raise TooManyDigits).
Proof.
  split; [|split].
  - repeat split; try by_computation; vm_compute; reflexivity.
  - split; [by_computation|]. split; [vm_compute; reflexivity|].
    vm_compute. discriminate.
  - split; [by_computation|]. split; vm_compute; reflexivity.
Qed.

(** C4, as the code has it. The table of sign symbols has exactly 20
    entries, each a single character: for the digits 0 to 9 the symbols
    '{', 'A' to 'I' with the positive sign and '}', 'J' to 'R' with the
    negative sign, and no other. When the characters before the last one
    convert to an int64, decoding fails because of the symbol exactly when
    the last character is not in the table, and succeeds exactly when it
    is. *)
Theorem zd_alphabet_failure :
  size zd_map = 20%nat
  ∧ (∀ k sg d, zd_map !! k = Some (sg, d)
       ↔ 0 ≤ d
         ∧ (sg = 1 ∧ positive_symbols !! Z.to_nat d = Some k
            ∨ sg = -1 ∧ negative_symbols !! Z.to_nat d = Some k))
  ∧ (∀ sg d, (sg = 1 ∨ sg = -1) → 0 ≤ d ≤ 9 →
       ∃ k, zd_map !! k = Some (sg, d)
            ∧ ∀ k', zd_map !! k' = Some (sg, d) → k' = k)
  ∧ (∀ k sg d, zd_map !! k = Some (sg, d) →
       (sg = 1 ∨ sg = -1) ∧ 0 ≤ d ≤ 9 ∧ length (chars k) = 1%nat)
  ∧ (∀ (front : string) (c : ascii) (v : Z),
       to_int64 front = Ok v →
       (zd_decode (front +:+ String c "") = Raise NaNInFrame
        ↔ zd_map !! String c "" = None)
       ∧ ((∃ z, zd_decode (front +:+ String c "") = Ok z)
          ↔ is_Some (zd_map !! String c ""))).
Proof.
  split; [apply zd_map_size|]. split; [apply zd_map_symbols|]. split; [|split].
  - intros sg d Hsg Hd. destruct (zd_map_symbol sg d Hsg Hd) as [k Hk].
    exists k. split; [done|]. intros k' Hk'. by eapply zd_map_inj.
  - apply zd_map_shape.
  - intros front c v Hv. rewrite zd_decode_snoc, Hv. simpl.
    destruct (zd_map !! String c "") as [sv|].
    + split; split; try done; eauto.
    + split; [done|]. split; [by intros [? [=]]|by intros [? [=]]].
Qed.

Lemma zd_alphabet_failure_witness :
  to_int64 "788" = Ok 788
  ∧ (zd_decode "788?" = Raise NaNInFrame ↔ zd_map !! "?" = None)
  ∧ ((∃ z, zd_decode "788D" = Ok z) ↔ is_Some (zd_map !! "D")).
Proof.
  assert (to_int64 "788" = Ok 788) as H by (vm_compute; reflexivity).
  split; [exact H|]. split.
  - exact (proj1 (proj2 (proj2 (proj2 (proj2 zd_alphabet_failure))) "788" "?"%char 788 H)).
  - exact (proj2 (proj2 (proj2 (proj2 (proj2 zd_alphabet_failure))) "788" "D"%char 788 H)).
Defined.

(** C4 as it is stated fails on the code: the table has 20 symbols, nine
    of them for a negative 1..9; a string can fail to decode although its
    last character is in the table, and a string whose last character is
    not in the table can fail before the symbol is looked at. *)
Lemma zd_alphabet_failure_counterexample :
  size zd_map ≠ 18%nat
  ∧ length (filter (λ x, x.2.1 = -1 ∧ x.2.2 ≠ 0) zd_items) = 9%nat
  ∧ (is_Some (zd_map !! "D") ∧ zd_decode "7x8D" = Raise InvalidLiteral)
  ∧ (zd_map !! "?" = None ∧ zd_decode "7x8?" = Raise InvalidLiteral
     ∧ zd_decode "7x8?" ≠ Raise NaNInFrame).
Proof.
  split; [by rewrite zd_map_size|].
  split; [vm_compute; reflexivity|].
  split; [split; [by_computation|vm_compute; reflexivity]|].
  split; [vm_compute; reflexivity|]. split; [vm_compute; reflexivity|].
  vm_compute. discriminate.
Qed.

(** C9. The convertor splits every element of the Series at the length of
    the first element minus one. When all the strings are as long as the
    first, that is each element decoded on its own; an element of another
    length is still split where the first one is, not before its own last
    character: "345E" alone is 3455, but after "12D" it is split into "34"
    and "5E" and the conversion fails. *)
Theorem zd_convertor_split_position (first : string) (rest : list string) :
  (∀ rs, __zd_convertor (first :: rest) = Ok rs
         ↔ Forall2 (λ s r, zd_element (len first - 1) s = Ok r) (first :: rest) rs)
  ∧ (Forall (λ s, len s = len first) rest →
     ∀ rs, __zd_convertor (first :: rest) = Ok rs
           ↔ Forall2 (λ s r, zd_decode s = Ok r) (first :: rest) rs)
  ∧ (zd_decode "345E" = Ok 3455
     ∧ zd_element (len "12D" - 1) "345E" = Raise NaNInFrame
     ∧ __zd_convertor ["12D"; "345E"] = Raise NaNInFrame).
Proof.
  split; [apply zd_convertor_elements|]. split; [|by vm_compute].
  intros Hlen rs. rewrite zd_convertor_elements.
  assert (Forall (λ s, len s = len first) (first :: rest)) as Hall by by constructor.
  clear Hlen. revert rs.
  induction Hall as [|s l Hs _ IH]; intros rs.
  - split; inversion 1; constructor.
  - split; inversion 1 as [|? r ? rs' Hr Hrs]; subst; constructor.
    + by rewrite zd_decode_element, Hs.
    + by apply IH.
    + by rewrite zd_decode_element, Hs in Hr.
    + by apply IH.
Qed.

Lemma zd_convertor_split_position_witness :
  Forall (λ s, len s = len "00000000000788D") ["00000000000012}"]
  ∧ (__zd_convertor ["00000000000788D"; "00000000000012}"] = Ok [7884; -120]
     ↔ Forall2 (λ s r, zd_decode s = Ok r)
         ["00000000000788D"; "00000000000012}"] [7884; -120]).
Proof.
  assert (Forall (λ s, len s = len "00000000000788D") ["00000000000012}"]) as H
    by (repeat constructor).
  split; [exact H|].
  exact (proj1 (proj2 (zd_convertor_split_position
                         "00000000000788D" ["00000000000012}"])) H [7884; -120]).
Defined.

(** * Claims on the mapping *)

Section mapping.
Implicit Types (st : State) (w : World) (tb : gmap string string).

Lemma reachable_sample_collected : reachable sample_collected.
Proof. apply reach_collect_data, reach_init. Qed.

Lemma sample_table_built : build_table ROCSIC_8 sample_sheet = Ok sample_table.
Proof. vm_compute. reflexivity. Qed.

Lemma sample_table_no_default_built :
  build_table ROCSIC_8 sample_sheet_no_default = Ok sample_table_no_default.
Proof. vm_compute. reflexivity. Qed.

(** The run of [sic_mapping] from a state that has collected. *)
Lemma sic_mapping_collected w st tb :
  reachable st → _extracted (self st) = true →
  rocsic_to_isic w (folder (self st)) = Ok tb →
  ∃ l df,
    __data (self st) = Some l ∧ store st !! l = Some df
    ∧ Forall short_code_ok (extracted_rows df)
    ∧ sic_mapping w st
      = match tb !! "Else" with
        | None => raised KeyError st
        | Some default =>
            {| output := []; outcome := Ok ();
               final := {| self := self st;
                           store := <[l := Annotated (annotate tb default
                                                        <$> extracted_rows df)]>
                                      (store st) |} |}
        end.
Proof.
  intros Hreach Hx Htb.
  destruct (reachable_extracted st Hreach Hx) as (_ & l & df & Hl & Hdf & Hrows).
  exists l, df. split; [done|]. split; [done|]. split; [done|].
  rewrite sic_mapping_run, Hx, Htb, Hl. unfold stored_frame. rewrite Hl. simpl.
  by rewrite Hdf.
Qed.

Lemma rocsic_to_isic_Ok w folder tb :
  rocsic_to_isic w folder = Ok tb ↔
  ∃ col, code_column folder = Ok col ∧ build_table col (sic_tb w) = Ok tb.
Proof. unfold rocsic_to_isic. apply bind_Ok_inv. Qed.
End mapping.

(** C1, as the code has it. For every extracted row the classification is
    looked up under the row's short code, the first two characters of its
    primary code (the column 'roc_sic'), not under the four characters;
    the row gets the entry found there, and the default ('Else')
    classification exactly when the short code is absent from the table. *)
Theorem sic_mapping_by_short_code (w : World) (st : State)
    (tb : gmap string string) (default : string) :
  reachable st → _extracted (self st) = true →
  rocsic_to_isic w (folder (self st)) = Ok tb → tb !! "Else" = Some default →
  ∃ l df,
    __data (self st) = Some l ∧ store st !! l = Some df
    ∧ outcome (sic_mapping w st) = Ok ()
    ∧ stored_frame (final (sic_mapping w st))
      = Some (Annotated (annotate tb default <$> extracted_rows df))
    ∧ ∀ r, r ∈ extracted_rows df →
        let key := String.substring 0 2 (primary r) in
        row (annotate tb default r) = r
        ∧ (∀ c, tb !! key = Some c → isic (annotate tb default r) = c)
        ∧ (tb !! key = None → isic (annotate tb default r) = default).
Proof.
  intros Hreach Hx Htb Hdefault.
  destruct (sic_mapping_collected w st tb Hreach Hx Htb)
    as (l & df & Hl & Hdf & Hrows & Hrun).
  exists l, df. rewrite Hrun, Hdefault. simpl.
  split; [done|]. split; [done|]. split; [done|]. split.
  - unfold stored_frame. simpl. rewrite Hl. simpl.
    apply list_lookup_insert_eq. by eapply lookup_lt_Some.
  - intros r Hr. apply (proj1 (Forall_forall _ _) Hrows) in Hr.
    unfold annotate. simpl. rewrite <-Hr. split; [done|].
    split; [by intros c ->|by intros ->].
Qed.

Lemma sic_mapping_by_short_code_witness :
  reachable sample_collected
  ∧ _extracted (self sample_collected) = true
  ∧ rocsic_to_isic (sample_world sample_sheet) (folder (self sample_collected))
    = Ok sample_table
  ∧ sample_table !! "Else" = Some "Z"
  ∧ ∃ l df,
      __data (self sample_collected) = Some l ∧ store sample_collected !! l = Some df
      ∧ outcome (sic_mapping (sample_world sample_sheet) sample_collected) = Ok ()
      ∧ stored_frame (final (sic_mapping (sample_world sample_sheet) sample_collected))
        = Some (Annotated (annotate sample_table "Z" <$> extracted_rows df))
      ∧ ∀ r, r ∈ extracted_rows df →
          let key := String.substring 0 2 (primary r) in
          row (annotate sample_table "Z" r) = r
          ∧ (∀ c, sample_table !! key = Some c → isic (annotate sample_table "Z" r) = c)
          ∧ (sample_table !! key = None → isic (annotate sample_table "Z" r) = "Z").
Proof.
  assert (_extracted (self sample_collected) = true) as H2 by (vm_compute; reflexivity).
  assert (rocsic_to_isic (sample_world sample_sheet) (folder (self sample_collected))
          = Ok sample_table) as H3 by (vm_compute; reflexivity).
  assert (sample_table !! "Else" = Some "Z") as H4 by (vm_compute; reflexivity).
  refine (conj reachable_sample_collected (conj H2 (conj H3 (conj H4 _)))).
  exact (sic_mapping_by_short_code (sample_world sample_sheet) sample_collected
           sample_table "Z" reachable_sample_collected H2 H3 H4).
Defined.

(** C1 as it is stated fails on the code: the row with primary code
    "0512" is classified "A", the entry of its short code "05", although
    the four characters "0512" are absent from the table, where the claim
    has the default "Z". *)
Lemma sic_mapping_by_short_code_counterexample :
  stored_frame sample_collected
  = Some (Extracted [ {| scale := "3"; primary := "0512"; roc_sic := "05"; asset := 7884 |};
                      {| scale := "8"; primary := "1234"; roc_sic := "12"; asset := -7880 |} ])
  ∧ build_table ROCSIC_8 sample_sheet = Ok sample_table
  ∧ sample_table !! "0512" = None
  ∧ sample_table !! "05" = Some "A"
  ∧ sample_table !! "Else" = Some "Z"
  ∧ (isic <$> match stored_frame
                      (final (sic_mapping (sample_world sample_sheet) sample_collected))
              with
              | Some (Annotated rows) => rows
              | _ => []
              end) = ["A"; "A"].
Proof. repeat split; vm_compute; reflexivity. Qed.



(** C6, as the code has it. The default is read from the table before any
    row is filled: on a processor that has collected, the mapping fails
    with the KeyError of the missing 'Else' exactly when the table is
    built and no row of the sheet lists the code "Else" for the year,
    whether or not any row's code is missing from the table; when the
    table is built and a row lists "Else" it succeeds. A table that is
    not built is the ValueError of [int] on a code of the sheet, which
    the mapping raises. *)
Theorem sic_mapping_missing_default (w : World) (st : State) (col : SicRow → string) :
  reachable st → _extracted (self st) = true →
  code_column (folder (self st)) = Ok col →
  (∀ tb, build_table col (sic_tb w) = Ok tb →
     (outcome (sic_mapping w st) = Raise KeyError ↔ tb !! "Else" = None)
     ∧ (outcome (sic_mapping w st) = Ok () ↔ is_Some (tb !! "Else"))
     ∧ (tb !! "Else" = None ↔ ∀ r, r ∈ sic_tb w → "Else" ∉ split "," (col r)))
  ∧ (∀ e, build_table col (sic_tb w) = Raise e →
       outcome (sic_mapping w st) = Raise e
       ∧ (e = InvalidLiteral ∨ e = TooManyDigits))
  ∧ (outcome (sic_mapping w st) = Raise KeyError
     ↔ (∃ tb, build_table col (sic_tb w) = Ok tb)
       ∧ ∀ r, r ∈ sic_tb w → "Else" ∉ split "," (col r)).
Proof.
  intros Hreach Hx Hcol.
  assert (∀ tb, build_table col (sic_tb w) = Ok tb →
            (outcome (sic_mapping w st) = Raise KeyError ↔ tb !! "Else" = None)
            ∧ (outcome (sic_mapping w st) = Ok () ↔ is_Some (tb !! "Else"))
            ∧ (tb !! "Else" = None ↔ ∀ r, r ∈ sic_tb w → "Else" ∉ split "," (col r)))
    as Hbuilt.
  { intros tb Hbuild.
    assert (rocsic_to_isic w (folder (self st)) = Ok tb) as Htb.
    { apply rocsic_to_isic_Ok. by exists col. }
    destruct (sic_mapping_collected w st _ Hreach Hx Htb) as (l & df & _ & _ & _ & ->).
    split; [|split].
    - destruct (tb !! "Else"); simpl; split; done.
    - destruct (tb !! "Else"); simpl; split; done.
    - rewrite (build_table_lookup_None _ _ _ _ Hbuild). split.
      + intros H r Hr Hin. by apply (H r "Else").
      + intros H r k Hr Hk Hkey. apply pad_code_Else in Hkey as ->. by apply (H r). }
  assert (∀ e, build_table col (sic_tb w) = Raise e →
            outcome (sic_mapping w st) = Raise e
            ∧ (e = InvalidLiteral ∨ e = TooManyDigits)) as Hfailed.
  { intros e Hbuild. split.
    - rewrite sic_mapping_run, Hx. unfold rocsic_to_isic. rewrite Hcol. simpl.
      by rewrite Hbuild.
    - apply build_table_Raise in Hbuild as (r & k & _ & _ & Hk).
      pose proof (pad_code_spec k) as H. rewrite Hk in H.
      destruct (decimal_value k); [done|]. destruct (isnumeric k); [|done].
      destruct H as (e' & [= <-] & ?). done. }
  split; [done|]. split; [done|].
  destruct (build_table col (sic_tb w)) as [tb|e] eqn:Hbuild.
  - destruct (Hbuilt tb eq_refl) as (H1 & _ & H3). rewrite H1, H3. split.
    + intros H. split; [by eexists|done].
    + by intros [_ H].
  - destruct (Hfailed e eq_refl) as [-> He]. split.
    + intros [= ->]. by destruct He.
    + by intros [[tb [=]] _].
Qed.

Lemma sic_mapping_missing_default_witness :
  reachable sample_collected
  ∧ _extracted (self sample_collected) = true
  ∧ code_column (folder (self sample_collected)) = Ok ROCSIC_8
  ∧ (outcome (sic_mapping (sample_world sample_sheet_no_default) sample_collected)
     = Raise KeyError
     ↔ (∃ tb, build_table ROCSIC_8 sample_sheet_no_default = Ok tb)
       ∧ ∀ r, r ∈ sample_sheet_no_default → "Else" ∉ split "," (ROCSIC_8 r)).
Proof.
  assert (_extracted (self sample_collected) = true) as H2 by (vm_compute; reflexivity).
  assert (code_column (folder (self sample_collected)) = Ok ROCSIC_8) as H3
    by (vm_compute; reflexivity).
  refine (conj reachable_sample_collected (conj H2 (conj H3 _))).
  exact (proj2 (proj2 (sic_mapping_missing_default (sample_world sample_sheet_no_default)
                  sample_collected ROCSIC_8 reachable_sample_collected H2 H3))).
Defined.

(** C6 as it is stated fails on the code: with a sheet that has no 'Else'
    row the mapping raises although the code of every row is in the table,
    so no lookup misses. *)
Lemma sic_mapping_missing_default_counterexample :
  build_table ROCSIC_8 sample_sheet_no_default = Ok sample_table_no_default
  ∧ Forall (λ r, is_Some (sample_table_no_default !! roc_sic r))
      (from_option extracted_rows [] (stored_frame sample_collected))
  ∧ from_option extracted_rows [] (stored_frame sample_collected) ≠ []
  ∧ outcome (sic_mapping (sample_world sample_sheet_no_default) sample_collected)
    = Raise KeyError.
Proof.
  split; [|split; [|split]].
  - vm_compute. reflexivity.
  - by_computation.
  - vm_compute. discriminate.
  - vm_compute. reflexivity.
Qed.

(** * Claims on the processor *)

Section filter.
Lemma filter_fmap_row (P : ExtractedRow → Prop) `{∀ r, Decision (P r)}
    `{∀ r : AnnotatedRow, Decision (P (row r))} (rows : list AnnotatedRow) :
  row <$> filter (λ r, P (row r)) rows = filter P (row <$> rows).
Proof.
  induction rows as [|r rows IH]; [done|].
  rewrite fmap_cons, !filter_cons.
  repeat case_decide; try done; rewrite ?fmap_cons; by rewrite IH.
Qed.
End filter.

(** C7. A guarded method called where it does not apply prints one message
    and returns, with the processor and the store as they were:
    [collect_data] when the year of the folder is not 85, 90 or 95, and
    [apply_conditions], [sic_mapping], [show_data] and [get_data] before a
    collection has completed; [get_data] then returns no data. *)
Theorem guarded_methods_return (w : World) (st : State) :
  reachable st →
  (year_prefix (folder (self st)) ∉ ["85"; "90"; "95"] →
   (∃ msg, output (collect_data w st) = [Print msg])
   ∧ outcome (collect_data w st) = Ok ()
   ∧ final (collect_data w st) = st)
  ∧ (_extracted (self st) = false →
     (∀ k conds, apply_conditions k conds st = warned () st)
     ∧ sic_mapping w st = warned () st
     ∧ show_data st = warned () st
     ∧ get_data st = warned None st).
Proof.
  intros Hreach. split.
  - intros Hyear. rewrite collect_data_run. simpl.
    case_bool_decide.
    + split; [|done]. by eexists.
    + case_bool_decide; [|done]. split; [|done]. by eexists.
  - intros Hx. split; [|split; [|split]].
    + intros k conds. by rewrite apply_conditions_run, Hx.
    + by rewrite sic_mapping_run, Hx.
    + by rewrite show_data_run, Hx.
    + rewrite get_data_run, Hx. by rewrite (reachable_not_extracted st Hreach Hx).
Qed.

Lemma guarded_methods_return_witness :
  reachable {| self := __init__ "data" "80y"; store := [] |}
  ∧ (year_prefix "80y" ∉ ["85"; "90"; "95"])
  ∧ final (collect_data (sample_world sample_sheet)
             {| self := __init__ "data" "80y"; store := [] |})
    = {| self := __init__ "data" "80y"; store := [] |}
  ∧ get_data {| self := __init__ "data" "80y"; store := [] |}
    = warned None {| self := __init__ "data" "80y"; store := [] |}.
Proof.
  assert (reachable {| self := __init__ "data" "80y"; store := [] |}) as H1
    by apply reach_init.
  assert (year_prefix "80y" ∉ ["85"; "90"; "95"]) as H2 by by_computation.
  refine (conj H1 (conj H2 (conj _ _))).
  - exact (proj2 (proj2 (proj1 (guarded_methods_return (sample_world sample_sheet)
                                  _ H1) H2))).
  - exact (proj2 (proj2 (proj2 (proj2 (guarded_methods_return (sample_world sample_sheet)
                                         _ H1) eq_refl)))).
Defined.

(** C8. [apply_conditions] on a processor that has collected makes a new
    frame of exactly the rows whose scale is not "8", with their values
    and in their order, and makes [self.__data] refer to it; no frame that
    existed before, the original one included, is changed. *)
Theorem apply_conditions_filters (k : bool) (conds : list (string * list string))
    (st : State) (l : nat) (df : DataFrame) :
  _extracted (self st) = true → __data (self st) = Some l → store st !! l = Some df →
  output (apply_conditions k conds st) = []
  ∧ outcome (apply_conditions k conds st) = Ok ()
  ∧ ∃ l' df',
      __data (self (final (apply_conditions k conds st))) = Some l'
      ∧ l' ≠ l
      ∧ store (final (apply_conditions k conds st)) !! l' = Some df'
      ∧ (∀ j, (j < length (store st))%nat →
           store (final (apply_conditions k conds st)) !! j = store st !! j)
      ∧ match df, df' with
        | Extracted rows, Extracted rows' => rows' = filter (λ r, scale r ≠ "8") rows
        | Annotated rows, Annotated rows' =>
            rows' = filter (λ r, scale (row r) ≠ "8") rows
        | _, _ => False
        end
      ∧ extracted_rows df' = filter (λ r, scale r ≠ "8") (extracted_rows df)
      ∧ sublist (extracted_rows df') (extracted_rows df)
      ∧ (∀ r, r ∈ extracted_rows df' ↔ r ∈ extracted_rows df ∧ scale r ≠ "8").
Proof.
  intros Hx Hl Hdf. rewrite apply_conditions_run, Hx. unfold stored_frame.
  rewrite Hl. simpl. rewrite Hdf. simpl. split; [done|]. split; [done|].
  pose proof (lookup_lt_Some _ _ _ Hdf) as Hlt.
  eexists _, _. split; [done|]. split; [lia|]. split.
  { rewrite lookup_app_r, Nat.sub_diag by lia. done. }
  split; [by intros j Hj; rewrite lookup_app_l|].
  assert (extracted_rows
            match df with
            | Extracted rows => Extracted (filter (λ r, scale r ≠ "8") rows)
            | Annotated rows => Annotated (filter (λ r, scale (row r) ≠ "8") rows)
            end = filter (λ r, scale r ≠ "8") (extracted_rows df)) as Heq.
  { destruct df as [rows|rows]; simpl; [done|].
    apply (filter_fmap_row (λ r, scale r ≠ "8")). }
  split; [by destruct df|]. split; [done|]. rewrite Heq. split.
  - apply sublist_filter.
  - intros r. rewrite list_elem_of_filter. tauto.
Qed.

Lemma apply_conditions_filters_witness :
  _extracted (self sample_collected) = true
  ∧ __data (self sample_collected) = Some 0%nat
  ∧ (∃ df, store sample_collected !! 0%nat = Some df)
  ∧ outcome (apply_conditions false [("scale", ["!="; "8"])] sample_collected) = Ok ().
Proof.
  assert (_extracted (self sample_collected) = true) as H1 by (vm_compute; reflexivity).
  assert (__data (self sample_collected) = Some 0%nat) as H2 by (vm_compute; reflexivity).
  assert (store sample_collected !! 0%nat
          = Some (Extracted [ {| scale := "3"; primary := "0512"; roc_sic := "05";
                                 asset := 7884 |};
                              {| scale := "8"; primary := "1234"; roc_sic := "12";
                                 asset := -7880 |} ])) as H3
    by (vm_compute; reflexivity).
  refine (conj H1 (conj H2 (conj (ex_intro _ _ H3) _))).
  exact (proj1 (proj2 (apply_conditions_filters false [("scale", ["!="; "8"])]
                         sample_collected 0%nat _ H1 H2 H3))).
Defined.

(** C10. Called before a collection, [output_CSV] prints the warning and,
    unlike [show_data], goes on: it exports the stored frame if there is
    one, and otherwise raises on the export of [None], which is what
    happens on every processor that has not collected. *)
Theorem output_CSV_goes_on (st : State) :
  _extracted (self st) = false →
  show_data st = warned () st
  ∧ match stored_frame st with
    | Some df =>
        output_CSV st
        = {| output := [Print __warn_data_not_collected;
                        ToCsv (folder_prefix 3 (folder (self st))
                                 +:+ "_extracted.csv") df];
             outcome := Ok (); final := st |}
    | None =>
        output_CSV st
        = {| output := [Print __warn_data_not_collected];
             outcome := Raise AttributeError; final := st |}
    end
  ∧ (reachable st →
     output_CSV st
     = {| output := [Print __warn_data_not_collected];
          outcome := Raise AttributeError; final := st |}).
Proof.
  intros Hx. split; [by rewrite show_data_run, Hx|].
  rewrite output_CSV_run, Hx. simpl. split.
  - by destruct (stored_frame st).
  - intros Hreach. unfold stored_frame.
    by rewrite (reachable_not_extracted st Hreach Hx).
Qed.

Lemma output_CSV_goes_on_witness :
  _extracted (self sample_start) = false
  ∧ show_data sample_start = warned () sample_start
  ∧ outcome (output_CSV sample_start) = Raise AttributeError.
Proof.
  assert (_extracted (self sample_start) = false) as H by reflexivity.
  refine (conj H (conj (proj1 (output_CSV_goes_on sample_start H)) _)).
  rewrite (proj2 (proj2 (output_CSV_goes_on sample_start H)) (reach_init _ _)).
  reflexivity.
Defined.
(** C2. For each of the three years the extraction takes the three fields
    at the offsets and lengths of the schema table and decodes the asset
    field as the table says: 85 is scale (7,1), primary (13,4), asset
    (1138,15) zoned decimal; 90 is (11,1), (13,4), (1068,15) plain integer;
    95 is (1,1), (2,4), (245,15) zoned decimal; the short code is the first
    two characters of the primary code. *)
Theorem _extract_schema (folder : string) (y : Year) (company_list : list string) :
  year_of folder = Some y →
  _extract folder company_list = extract_by_schema (schema_table y) company_list.
Proof.
  intros Hy. apply year_of_prefix in Hy.
  unfold _extract. rewrite Hy. destruct y; simpl.
  - exact (extract_branch 7 8 13 17 1138 1153 ZonedDecimal company_list
             ltac:(lia) ltac:(lia) ltac:(lia)).
  - exact (extract_branch 11 12 13 17 1068 1083 PlainInteger company_list
             ltac:(lia) ltac:(lia) ltac:(lia)).
  - exact (extract_branch 1 2 2 6 245 260 ZonedDecimal company_list
             ltac:(lia) ltac:(lia) ltac:(lia)).
Qed.

Lemma _extract_schema_witness :
  year_of "95y" = Some YearC
  ∧ _extract "95y" [record95 "3" "0512" "00000000000788D"]
    = extract_by_schema (schema_table YearC) [record95 "3" "0512" "00000000000788D"].
Proof.
  assert (year_of "95y" = Some YearC) as H by (vm_compute; reflexivity).
  split; [exact H|].
  exact (_extract_schema "95y" YearC [record95 "3" "0512" "00000000000788D"] H).
Defined.

(** * Further properties *)

Section convertor_shape.
Implicit Types (s first : string) (rest : list string) (p : Z).

Lemma wrap64_range z : in_int64 (wrap64 z) = true.
Proof.
  apply in_int64_iff. unfold wrap64.
  pose proof (Z.mod_pos_bound (z + 2 ^ 63) (2 ^ 64) ltac:(lia)). lia.
Qed.

Lemma str_slice_empty a b s : chars s = [] → str_slice a b s = "".
Proof.
  intros H. unfold str_slice. rewrite H. by rewrite drop_nil, take_nil.
Qed.

Lemma to_int64_nonempty s v : to_int64 s = Ok v → chars s ≠ [].
Proof.
  intros Hv Hs. assert (s = "") as -> by (by apply chars_inj).
  vm_compute in Hv. discriminate Hv.
Qed.

(** An element converts at a split position [p] from the left only if
    it has exactly one character from [p] on, and some before. *)
Lemma zd_element_length p s r :
  0 ≤ p → zd_element p s = Ok r → 1 ≤ p ∧ len s = p + 1 ∧ in_int64 r = true.
Proof.
  intros Hpos (v & [sg d] & Hv & Hsv & ->)%zd_element_Ok.
  apply to_int64_nonempty in Hv. apply zd_map_shape in Hsv as (_ & _ & Hlen).
  rewrite str_slice_prefix in Hv by done. rewrite str_slice_suffix in Hlen by done.
  rewrite length_drop in Hlen.
  assert (Z.to_nat p ≠ 0%nat) as Hp.
  { intros E. apply Hv. by rewrite E. }
  unfold len. split; [lia|]. split; [lia|]. unfold zd_combine. apply wrap64_range.
Qed.

(** The first element converts only if it is not empty. *)
Lemma zd_element_first first r :
  zd_element (len first - 1) first = Ok r → 0 ≤ len first - 1.
Proof.
  intros (v & _ & Hv & _)%zd_element_Ok. apply to_int64_nonempty in Hv.
  destruct (chars first) as [|c cs] eqn:E.
  - by rewrite str_slice_empty in Hv.
  - unfold len. rewrite E. simpl. lia.
Qed.
End convertor_shape.

(** X1. A Series converts only if all its strings have the length of the
    first, which is at least two: one leading character or more, then the
    sign symbol. Every value returned is an int64, one per string. *)
Theorem zd_convertor_same_length (first : string) (rest : list string) (rs : list Z) :
  __zd_convertor (first :: rest) = Ok rs →
  2 ≤ len first
  ∧ Forall (λ s, len s = len first) rest
  ∧ length rs = S (length rest)
  ∧ Forall (λ r, in_int64 r = true) rs.
Proof.
  intros H%zd_convertor_elements.
  assert (0 ≤ len first - 1) as Hpos.
  { inversion H; subst. by eapply zd_element_first. }
  assert (Forall (λ s, 2 ≤ len first ∧ len s = len first) (first :: rest)
          ∧ Forall (λ r, in_int64 r = true) rs) as [Hs Hr].
  { induction H as [|s r l rs' Hsr _ [IH1 IH2]]; [by split|].
    apply zd_element_length in Hsr as (? & ? & ?); [|done].
    split; constructor; (done || lia). }
  apply Forall2_length in H. simpl in H.
  inversion Hs as [|? ? [Hfirst _] Hrest]; subst.
  split; [done|]. split; [|by split].
  eapply Forall_impl; [exact Hrest|]. by intros s [_ ?].
Qed.

Lemma zd_convertor_same_length_witness :
  __zd_convertor ["00000000000788D"; "00000000000012}"] = Ok [7884; -120]
  ∧ 2 ≤ len "00000000000788D"
  ∧ Forall (λ s, len s = len "00000000000788D") ["00000000000012}"].
Proof.
  assert (__zd_convertor ["00000000000788D"; "00000000000012}"] = Ok [7884; -120])
    as H by (vm_compute; reflexivity).
  split; [exact H|].
  pose proof (zd_convertor_same_length _ _ _ H) as (H1 & H2 & _).
  exact (conj H1 H2).
Defined.

Section extract_shape.
Implicit Types (record folder : string) (records : list string).

Lemma zd_convertor_nonempty (series : list string) rs :
  __zd_convertor series = Ok rs → Forall (λ s, chars s ≠ []) series.
Proof.
  destruct series as [|first rest]; [done|].
  intros H%zd_convertor_elements.
  assert (0 ≤ len first - 1) as Hpos.
  { inversion H; subst. by eapply zd_element_first. }
  induction H as [|s r l rs' Hsr _ IH]; constructor; [|done].
  apply zd_element_length in Hsr as (Hp & Hlen & _); [|done].
  intros E. unfold len in Hlen at 1. rewrite E in Hlen. simpl in Hlen. lia.
Qed.

Lemma astype_int64_nonempty (series : list string) vs :
  astype_int64 series = Ok vs → Forall (λ s, chars s ≠ []) series.
Proof.
  intros H%mapM_Ok. induction H as [|s v l vs' Hsv _ IH]; constructor; [|done].
  by eapply to_int64_nonempty.
Qed.

Lemma field_nonempty (f : nat * nat) record :
  chars (field f record) ≠ [] → (f.1 < length (chars record))%nat.
Proof.
  unfold field. rewrite chars_substring. intros H.
  destruct (decide (f.1 < length (chars record))%nat); [done|].
  exfalso. apply H. rewrite drop_ge by lia. apply take_nil.
Qed.
End extract_shape.

(** X2. [_extract] returns rows only for a folder of year 85, 90 or 95,
    and then exactly one row per record, in the order of the records,
    with the scale and primary fields of that record; it does so only if
    every record reaches beyond the offset of the asset field. One record
    that is too short makes the whole call fail: no record is skipped. *)
Theorem _extract_all_or_nothing (folder : string) (records : list string)
    (rows : list ExtractedRow) :
  _extract folder records = Ok rows →
  ∃ y, year_of folder = Some y
       ∧ length rows = length records
       ∧ Forall2 (λ record r,
                    scale r = field (scale_field (schema_table y)) record
                    ∧ primary r = field (primary_field (schema_table y)) record)
           records rows
       ∧ Forall (λ record,
                   ((asset_field (schema_table y)).1 < length (chars record))%nat)
           records.
Proof.
  destruct (year_of folder) as [y|] eqn:Hy; [|by rewrite _extract_unsupported].
  rewrite (extract_schema_eq _ _ _ Hy).
  intros (assets & Hdec & Hlen & ->)%extract_by_schema_Ok.
  exists y. split; [done|]. split; [|split].
  - rewrite length_zip_with. lia.
  - clear Hdec. revert assets Hlen.
    induction records as [|record records IH]; intros [|a assets] Hlen;
      simplify_eq/=; constructor; [done|by apply IH].
  - assert (Forall (λ s, chars s ≠ []) (field (asset_field (schema_table y)) <$> records))
      as Hne.
    { destruct (asset_encoding (schema_table y)); simpl in Hdec.
      - by eapply zd_convertor_nonempty.
      - by eapply astype_int64_nonempty. }
    rewrite Forall_fmap in Hne. eapply Forall_impl; [exact Hne|].
    intros record. apply field_nonempty.
Qed.

Lemma _extract_all_or_nothing_witness :
  _extract "95y" [record95 "3" "0512" "00000000000788D"]
  = Ok [ {| scale := "3"; primary := "0512"; roc_sic := "05"; asset := 7884 |} ]
  ∧ ∃ y, year_of "95y" = Some y
         ∧ Forall (λ record,
                     ((asset_field (schema_table y)).1 < length (chars record))%nat)
             [record95 "3" "0512" "00000000000788D"].
Proof.
  assert (_extract "95y" [record95 "3" "0512" "00000000000788D"]
          = Ok [ {| scale := "3"; primary := "0512"; roc_sic := "05"; asset := 7884 |} ])
    as H by (vm_compute; reflexivity).
  split; [exact H|].
  destruct (_extract_all_or_nothing _ _ _ H) as (y & Hy & _ & _ & Hlen).
  exists y. exact (conj Hy Hlen).
Defined.

Section records.
Implicit Types (s r rest : string) (cs cur : list ascii) (records : list string).

Lemma no_crlf_tail c cs :
  (∀ pre post, c :: cs ≠ pre ++ "013"%char :: "010"%char :: post) →
  ∀ pre post, cs ≠ pre ++ "013"%char :: "010"%char :: post.
Proof. intros H pre post E. apply (H (c :: pre) post). by rewrite E. Qed.

(** Reading up to the end of a text without terminator. *)
Lemma split_crlf_go_end cur cs :
  (∀ pre post, cs ≠ pre ++ "013"%char :: "010"%char :: post) →
  split_crlf_go cur cs = [str (reverse cur ++ cs)].
Proof.
  revert cur. induction cs as [|c cs IH]; intros cur Hno.
  - simpl. by rewrite app_nil_r.
  - assert (split_crlf_go cur (c :: cs) = split_crlf_go (c :: cur) cs) as ->.
    { simpl. destruct cs as [|c' cs']; [done|].
      destruct (bool_decide (c = "013"%char)) eqn:E1;
        destruct (bool_decide (c' = "010"%char)) eqn:E2; simpl; try done.
      apply bool_decide_eq_true in E1, E2. subst.
      by destruct (Hno [] cs'). }
    rewrite IH by by eapply no_crlf_tail.
    by rewrite reverse_cons, <-app_assoc.
Qed.

(** Reading a record and its terminator. *)
Lemma split_crlf_go_record cur cs text :
  (∀ pre post, cs ≠ pre ++ "013"%char :: "010"%char :: post) →
  split_crlf_go cur (cs ++ "013"%char :: "010"%char :: text)
  = str (reverse cur ++ cs) :: split_crlf_go [] text.
Proof.
  revert cur. induction cs as [|c cs IH]; intros cur Hno.
  - simpl. by rewrite app_nil_r.
  - assert (split_crlf_go cur ((c :: cs) ++ "013"%char :: "010"%char :: text)
            = split_crlf_go (c :: cur) (cs ++ "013"%char :: "010"%char :: text)) as ->.
    { simpl. destruct cs as [|c' cs']; simpl.
      - destruct (bool_decide (c = "013"%char)); done.
      - destruct (bool_decide (c = "013"%char)) eqn:E1;
          destruct (bool_decide (c' = "010"%char)) eqn:E2; simpl; try done.
        apply bool_decide_eq_true in E1, E2. subst.
        by destruct (Hno [] cs'). }
    rewrite IH by by eapply no_crlf_tail.
    by rewrite reverse_cons, <-app_assoc.
Qed.

Lemma split_crlf_terminated records rest :
  Forall no_crlf records → no_crlf rest →
  split_crlf (terminated records rest) = records ++ [rest].
Proof.
  intros Hrecords Hrest. unfold split_crlf.
  induction Hrecords as [|r records Hr _ IH]; simpl.
  - rewrite split_crlf_go_end by done. simpl. by rewrite str_chars.
  - rewrite !chars_app. simpl. rewrite split_crlf_go_record by done.
    simpl. by rewrite str_chars, IH.
Qed.

Lemma decode_ascii_only s :
  ascii_only s → decode_ascii_ignore (String.list_byte_of_string s) = s.
Proof.
  intros H. unfold decode_ascii_ignore, String.list_byte_of_string.
  fold (chars s). rewrite <-(str_chars s) at 2. f_equal.
  induction H as [|c cs Hc _ IH]; [done|].
  simpl. rewrite filter_cons_True by done. rewrite fmap_cons, IH.
  by rewrite ascii_of_byte_of_ascii.
Qed.

Lemma ascii_only_app s1 s2 : ascii_only s1 → ascii_only s2 → ascii_only (s1 +:+ s2).
Proof. unfold ascii_only. rewrite chars_app, Forall_app. by split. Qed.

Lemma ascii_only_terminated records rest :
  Forall ascii_only records → ascii_only rest → ascii_only (terminated records rest).
Proof.
  intros H Hrest. induction H as [|r records Hr _ IH]; [done|].
  simpl. apply ascii_only_app; [done|]. apply ascii_only_app; [|done].
  unfold ascii_only. repeat constructor; simpl; lia.
Qed.

Lemma drop_last_snoc {A} (l : list A) x : drop_last (l ++ [x]) = l.
Proof.
  unfold drop_last. rewrite length_app. simpl.
  replace (length l + 1 - 1)%nat with (length l) by lia. apply take_app_length.
Qed.
End records.

(** X3. When every record of a file is ASCII, holds no line terminator and
    is followed by one, [collect_data] hands exactly these records to
    [_extract], in their order; whatever follows the last terminator, the
    empty string of a well-formed file or an unterminated last record, is
    the element that is removed. *)
Theorem records_of_terminated (name : string) (records : list string) (rest : string) :
  Forall ascii_only records → Forall no_crlf records →
  ascii_only rest → no_crlf rest →
  records_of {| name := name; is_file := true;
                content := String.list_byte_of_string (terminated records rest) |}
  = records.
Proof.
  intros Ha Hn Hra Hrn. unfold records_of. simpl.
  rewrite decode_ascii_only by by apply ascii_only_terminated.
  rewrite split_crlf_terminated by done. apply drop_last_snoc.
Qed.

Lemma records_of_terminated_witness :
  Forall ascii_only ["ab"; "cd"] ∧ Forall no_crlf ["ab"; "cd"]
  ∧ ascii_only "ef" ∧ no_crlf "ef"
  ∧ records_of {| name := "a"; is_file := true;
                  content := String.list_byte_of_string (terminated ["ab"; "cd"] "ef") |}
    = ["ab"; "cd"].
Proof.
  assert (∀ s, (bool_decide (("013" : ascii) ∈ chars s) = false) → no_crlf s) as Hno.
  { intros s Hs pre post E. apply bool_decide_eq_false in Hs. apply Hs.
    rewrite E. apply elem_of_app. right. by left. }
  assert (Forall ascii_only ["ab"; "cd"]) as H1
    by (repeat constructor; simpl; lia).
  assert (Forall no_crlf ["ab"; "cd"]) as H2 by (repeat constructor; by apply Hno).
  assert (ascii_only "ef") as H3 by (repeat constructor; simpl; lia).
  assert (no_crlf "ef") as H4 by by apply Hno.
  refine (conj H1 (conj H2 (conj H3 (conj H4 _)))).
  exact (records_of_terminated "a" ["ab"; "cd"] "ef" H1 H2 H3 H4).
Defined.

Section collect_runs.
Implicit Types (st : State) (w : World) (files : list DirEntry).

Lemma foldM_collect_output fld files data_out st frames :
  extract_files fld files = Ok frames →
  output (foldM (collect_file fld) data_out files st)
  = (λ f, Print ("File " +:+ name f +:+ " finished.")) <$> files.
Proof.
  unfold extract_files. revert data_out frames.
  induction files as [|f files IH]; intros data_out frames; [done|].
  rewrite mapM_cons. intros (frame & Hf & Hrest)%bind_Ok_inv.
  apply bind_Ok_inv in Hrest as (frames' & Hframes' & _).
  simpl. rewrite run_bind, collect_file_run, Hf. simpl.
  by rewrite (IH _ _ Hframes').
Qed.

Lemma year_of_nonempty fld : is_Some (year_of fld) → fld ≠ "".
Proof. intros [y Hy] ->. vm_compute in Hy. discriminate Hy. Qed.

Lemma self_eta (p : Processor) l :
  _extracted p = true → __data p = Some l →
  {| upperlayer_folder := upperlayer_folder p; folder := folder p;
     _extracted := true; __data := Some l |} = p.
Proof. destruct p; simpl. by intros -> ->. Qed.

Lemma collect_data_raise w st e :
  outcome (collect_data w st) = Raise e → final (collect_data w st) = st.
Proof.
  rewrite collect_data_run. simpl.
  repeat case_bool_decide; try done.
  destruct (listdir w _) as [listing|]; [|done].
  destruct (outcome (foldM _ _ _ st)) as [data_out|e']; [|done].
  by destruct (outcome (set_columns data_out st)).
Qed.
End collect_runs.

(** The run of a collection that succeeds. *)
Lemma collect_data_success (w : World) (st : State) (listing : list DirEntry)
    (frames : list (list ExtractedRow)) :
  __data (self st) = None →
  is_Some (year_of (folder (self st))) →
  listdir w (getcwd w +:+ __slash_maker (self st)) = Some listing →
  target_files listing ≠ [] →
  extract_files (folder (self st)) (target_files listing) = Ok frames →
  outcome (collect_data w st) = Ok ()
  ∧ final (collect_data w st)
    = {| self := {| upperlayer_folder := upperlayer_folder (self st);
                    folder := folder (self st);
                    _extracted := true;
                    __data := Some (length (store st)) |};
         store := store st ++ [Extracted (concat frames)] |}
  ∧ output (collect_data w st)
    = Print (newline +:+ "Start collection data from folder " +:+ dquote
               +:+ folder (self st) +:+ dquote +:+ "...")
      :: ((λ f, Print ("File " +:+ name f +:+ " finished.")) <$> target_files listing)
      ++ [Print ("Data collection from folder " +:+ dquote +:+ folder (self st)
                   +:+ dquote +:+ " is completed.")].
Proof.
  intros Hdata Hyear Hdir Hfiles Hframes.
  rewrite collect_data_run. simpl.
  rewrite bool_decide_eq_false_2 by by apply year_of_nonempty.
  rewrite bool_decide_eq_false_2
    by (intros Hno; by apply Hno, year_of_supported).
  rewrite Hdir, foldM_collect_outcome, Hframes, Hdata. simpl.
  rewrite foldl_concat_frames_NoFrame.
  assert (frames ≠ []) as Hne.
  { intros ->. apply mapM_Ok in Hframes. by inversion Hframes. }
  destruct frames as [|frame frames']; [done|]. simpl.
  split; [done|]. split; [done|].
  by rewrite (foldM_collect_output _ _ _ _ _ Hframes).
Qed.

(** X4. On a processor that holds no data, for a folder of a supported
    year that exists and has at least one file to read, all of which
    extract: [collect_data] stores one new frame, the rows of the files
    one after the other in the order of the listing, sets the flag and
    prints the start line, one line per file and the closing line. *)
Theorem collect_data_collects (w : World) (st : State) (listing : list DirEntry)
    (frames : list (list ExtractedRow)) :
  __data (self st) = None →
  is_Some (year_of (folder (self st))) →
  listdir w (getcwd w +:+ __slash_maker (self st)) = Some listing →
  target_files listing ≠ [] →
  extract_files (folder (self st)) (target_files listing) = Ok frames →
  outcome (collect_data w st) = Ok ()
  ∧ final (collect_data w st)
    = {| self := {| upperlayer_folder := upperlayer_folder (self st);
                    folder := folder (self st);
                    _extracted := true;
                    __data := Some (length (store st)) |};
         store := store st ++ [Extracted (concat frames)] |}
  ∧ output (collect_data w st)
    = Print (newline +:+ "Start collection data from folder " +:+ dquote
               +:+ folder (self st) +:+ dquote +:+ "...")
      :: ((λ f, Print ("File " +:+ name f +:+ " finished.")) <$> target_files listing)
      ++ [Print ("Data collection from folder " +:+ dquote +:+ folder (self st)
                   +:+ dquote +:+ " is completed.")].
Proof.
  intros Hdata Hyear Hdir Hfiles Hframes.
  exact (collect_data_success w st listing frames Hdata Hyear Hdir Hfiles Hframes).
Qed.

Lemma collect_data_collects_witness :
  __data (self sample_start) = None
  ∧ is_Some (year_of (folder (self sample_start)))
  ∧ outcome (collect_data (sample_world sample_sheet) sample_start) = Ok ().
Proof.
  assert (__data (self sample_start) = None) as H1 by reflexivity.
  assert (is_Some (year_of (folder (self sample_start)))) as H2 by by eexists.
  refine (conj H1 (conj H2 _)).
  refine (proj1 (collect_data_collects (sample_world sample_sheet) sample_start
                   _ _ H1 H2 eq_refl _ _)).
  - vm_compute. discriminate.
  - vm_compute. reflexivity.
Defined.

(** X5. On a processor that holds no data, a folder of a supported year
    with no file to read makes [collect_data] raise on the naming of the
    columns of [None], after the start line; nothing is stored and the
    flag stays unset. *)
Theorem collect_data_no_file (w : World) (st : State) (listing : list DirEntry) :
  __data (self st) = None →
  is_Some (year_of (folder (self st))) →
  listdir w (getcwd w +:+ __slash_maker (self st)) = Some listing →
  target_files listing = [] →
  collect_data w st
  = {| output := [Print (newline +:+ "Start collection data from folder " +:+ dquote
                           +:+ folder (self st) +:+ dquote +:+ "...")];
       outcome := Raise AttributeError; final := st |}.
Proof.
  intros Hdata Hyear Hdir Hfiles.
  rewrite collect_data_run. simpl.
  rewrite bool_decide_eq_false_2 by by apply year_of_nonempty.
  rewrite bool_decide_eq_false_2
    by (intros Hno; by apply Hno, year_of_supported).
  by rewrite Hdir, Hfiles, Hdata.
Qed.

Lemma collect_data_no_file_witness :
  outcome (collect_data {| getcwd := "C:"; listdir := λ _, Some [census_file "a.txt" []];
                           sic_tb := [] |} sample_start)
  = Raise AttributeError.
Proof.
  set (w := {| getcwd := "C:"; listdir := λ _, Some [census_file "a.txt" []];
               sic_tb := [] |}).
  rewrite (collect_data_no_file w sample_start [census_file "a.txt" []]
             eq_refl (ex_intro _ YearC eq_refl) eq_refl eq_refl).
  reflexivity.
Defined.

(** X6. A processor that has collected cannot collect again: a further
    [collect_data] never changes the processor or the store, and it raises
    whenever the folder has a file to read. *)
Theorem collect_data_again (w : World) (st : State) :
  reachable st → _extracted (self st) = true →
  final (collect_data w st) = st
  ∧ ∀ listing,
      listdir w (getcwd w +:+ __slash_maker (self st)) = Some listing →
      target_files listing ≠ [] →
      ∃ e, outcome (collect_data w st) = Raise e.
Proof.
  intros Hreach Hx.
  destruct (reachable_extracted st Hreach Hx) as (Hyear & l & df & Hl & Hdf & _).
  split.
  - destruct (collect_data_final w st)
      as [-> | [(rows & _ & _ & E) | (l' & rows & Hl' & _ & _ & ->)]]; [done| |].
    + (* a new frame needs [data_out] to start from [None] *)
      exfalso. revert E. rewrite collect_data_run. simpl.
      repeat case_bool_decide;
        try (intros E; apply (f_equal (λ s, length (store s))) in E; simpl in E;
             rewrite length_app in E; simpl in E; lia).
      destruct (listdir w _) as [listing|];
        [|intros E; apply (f_equal (λ s, length (store s))) in E; simpl in E;
          rewrite length_app in E; simpl in E; lia].
      rewrite foldM_collect_outcome, Hl. simpl.
      destruct (extract_files _ _) as [frames|e]; simpl;
        [|intros E; apply (f_equal (λ s, length (store s))) in E; simpl in E;
          rewrite length_app in E; simpl in E; lia].
      rewrite foldl_concat_frames_Stored, set_columns_run.
      destruct frames; simpl; [rewrite Hdf; destruct df; simpl|];
        intros E; apply (f_equal (λ s, length (store s))) in E; simpl in E;
        rewrite length_app in E; simpl in E; lia.
    + destruct st as [p h]. simpl in *. f_equal. by apply self_eta.
  - intros listing Hdir Hfiles. rewrite collect_data_run. simpl.
    rewrite bool_decide_eq_false_2 by by apply year_of_nonempty.
    rewrite bool_decide_eq_false_2
      by (intros Hno; by apply Hno, year_of_supported).
    rewrite Hdir, foldM_collect_outcome, Hl. simpl.
    destruct (extract_files _ _) as [frames|e] eqn:Hframes; simpl; [|by eexists].
    assert (frames ≠ []) as Hne.
    { intros ->. apply mapM_Ok in Hframes. by inversion Hframes. }
    rewrite foldl_concat_frames_Stored. destruct frames; [done|]. by eexists.
Qed.

Lemma collect_data_again_witness :
  reachable sample_collected ∧ _extracted (self sample_collected) = true
  ∧ final (collect_data (sample_world sample_sheet) sample_collected) = sample_collected.
Proof.
  assert (reachable sample_collected) as H1 by apply reach_collect_data, reach_init.
  assert (_extracted (self sample_collected) = true) as H2 by (vm_compute; reflexivity).
  refine (conj H1 (conj H2 _)).
  exact (proj1 (collect_data_again (sample_world sample_sheet) sample_collected H1 H2)).
Defined.

Section raises.
Implicit Types (st : State) (w : World).

Lemma apply_conditions_raise k conds st e :
  outcome (apply_conditions k conds st) = Raise e →
  final (apply_conditions k conds st) = st.
Proof.
  rewrite apply_conditions_run. destruct (_extracted (self st)); [|done].
  by destruct (stored_frame st).
Qed.

Lemma sic_mapping_raise w st e :
  outcome (sic_mapping w st) = Raise e → final (sic_mapping w st) = st.
Proof.
  rewrite sic_mapping_run. destruct (_extracted (self st)); [|done].
  destruct (rocsic_to_isic w _) as [tb|]; [|done].
  destruct (__data (self st)), (stored_frame st); try done.
  by destruct (tb !! "Else").
Qed.
End raises.

(** X7. A method that raises leaves the processor and the store as they
    were: [collect_data] assigns the flag and the data only after the
    last step that can fail, and so do [apply_conditions] and
    [sic_mapping]; the other methods never change the state at all. *)
Theorem methods_exception_safe (w : World) (st : State) :
  (∀ e, outcome (collect_data w st) = Raise e → final (collect_data w st) = st)
  ∧ (∀ k conds e, outcome (apply_conditions k conds st) = Raise e →
       final (apply_conditions k conds st) = st)
  ∧ (∀ e, outcome (sic_mapping w st) = Raise e → final (sic_mapping w st) = st)
  ∧ final (some_analysis st) = st
  ∧ final (show_data st) = st
  ∧ final (get_data st) = st
  ∧ final (output_CSV st) = st.
Proof.
  split; [intros e; apply collect_data_raise|].
  split; [intros k conds e; apply apply_conditions_raise|].
  split; [intros e; apply sic_mapping_raise|].
  split; [apply final_some_analysis|]. split; [apply final_show_data|].
  split; [apply final_get_data|apply final_output_CSV].
Qed.

(** X8. In every state that method calls can reach from a new processor:
    the flag is set exactly when the processor holds data; the data is a
    frame of the store; the folder is of a supported year once the flag is
    set; and in every frame the short code of a row is the first two
    characters of its primary code. *)
Theorem reachable_invariant (st : State) :
  reachable st →
  (_extracted (self st) = true ↔ is_Some (__data (self st)))
  ∧ (∀ l, __data (self st) = Some l → is_Some (store st !! l))
  ∧ (_extracted (self st) = true → is_Some (year_of (folder (self st))))
  ∧ Forall (λ df, Forall (λ r, roc_sic r = String.substring 0 2 (primary r))
                    (extracted_rows df)) (store st).
Proof.
  intros (Hflag & Href & Hrows)%reachable_inv.
  split; [|split; [done|split; [|done]]].
  - destruct (_extracted (self st)).
    + by destruct Hflag.
    + rewrite Hflag. split; [done|]. by intros [? [=]].
  - intros Hx. rewrite Hx in Hflag. by destruct Hflag.
Qed.

Lemma reachable_invariant_witness :
  reachable sample_collected
  ∧ (_extracted (self sample_collected) = true ↔ is_Some (__data (self sample_collected))).
Proof.
  assert (reachable sample_collected) as H by apply reach_collect_data, reach_init.
  exact (conj H (proj1 (reachable_invariant sample_collected H))).
Defined.

(** X9. No method changes the folder or the upper folder of the
    processor, unsets the flag once it is set, or removes a frame from the
    store. *)
Theorem methods_keep_fields (w : World) (k : bool) (conds : list (string * list string))
    (st : State) :
  Forall (λ st',
            folder (self st') = folder (self st)
            ∧ upperlayer_folder (self st') = upperlayer_folder (self st)
            ∧ (_extracted (self st) = true → _extracted (self st') = true)
            ∧ (length (store st) ≤ length (store st'))%nat)
    [ final (collect_data w st); final (apply_conditions k conds st);
      final (sic_mapping w st); final (some_analysis st); final (show_data st);
      final (get_data st); final (output_CSV st) ].
Proof.
  assert (∀ st', st' = st →
            folder (self st') = folder (self st)
            ∧ upperlayer_folder (self st') = upperlayer_folder (self st)
            ∧ (_extracted (self st) = true → _extracted (self st') = true)
            ∧ (length (store st) ≤ length (store st'))%nat) as Hsame
    by by intros ? ->.
  repeat first [apply List.Forall_nil | apply List.Forall_cons].
  - destruct (collect_data_final w st)
      as [E | [(rows & _ & _ & ->) | (l & rows & _ & _ & _ & ->)]];
      [by apply Hsame| |]; simpl; rewrite ?length_app; repeat split; (done || lia).
  - rewrite apply_conditions_run.
    destruct (_extracted (self st)) eqn:Hx; [|by apply Hsame].
    destruct (stored_frame st); [|by apply Hsame].
    simpl. rewrite length_app. repeat split; (done || lia).
  - rewrite sic_mapping_run.
    destruct (_extracted (self st)) eqn:Hx; [|by apply Hsame].
    destruct (rocsic_to_isic w _) as [tb|]; [|by apply Hsame].
    destruct (__data (self st)), (stored_frame st); try by apply Hsame.
    destruct (tb !! "Else"); [|by apply Hsame].
    simpl. rewrite length_insert. repeat split; (done || lia).
  - apply Hsame, final_some_analysis.
  - apply Hsame, final_show_data.
  - apply Hsame, final_get_data.
  - apply Hsame, final_output_CSV.
Qed.

(** X10. The frame a caller got from [get_data] is the object that
    [sic_mapping] extends: after a mapping that succeeds, the same
    reference holds the frame with the column 'isic', the rows otherwise
    as they were, and every other frame of the store is unchanged. *)
Theorem sic_mapping_in_place (w : World) (st : State) (l : nat) :
  reachable st → outcome (get_data st) = Ok (Some l) →
  outcome (sic_mapping w st) = Ok () →
  __data (self (final (sic_mapping w st))) = Some l
  ∧ (∃ rows, store (final (sic_mapping w st)) !! l = Some (Annotated rows)
             ∧ Some (row <$> rows) = extracted_rows <$> store st !! l)
  ∧ (∀ j, j ≠ l → store (final (sic_mapping w st)) !! j = store st !! j).
Proof.
  intros Hreach Hget. rewrite get_data_run in Hget.
  assert (__data (self st) = Some l) as Hl.
  { destruct (_extracted (self st)); simpl in Hget; by simplify_eq. }
  assert (_extracted (self st) = true) as Hx.
  { destruct (_extracted (self st)) eqn:E; [done|].
    rewrite (reachable_not_extracted st Hreach E) in Hl. done. }
  rewrite sic_mapping_run, Hx, Hl.
  destruct (rocsic_to_isic w _) as [tb|]; [|done].
  unfold stored_frame. rewrite Hl. simpl.
  destruct (store st !! l) as [df|] eqn:Hdf; [|done].
  destruct (tb !! "Else") as [default|]; [|done]. simpl. intros _.
  split; [done|]. split.
  - eexists. rewrite list_lookup_insert_eq by by eapply lookup_lt_Some.
    split; [done|]. by rewrite annotate_rows.
  - intros j Hj. by rewrite list_lookup_insert_ne.
Qed.

Lemma sic_mapping_in_place_witness :
  reachable sample_collected ∧ outcome (get_data sample_collected) = Ok (Some 0%nat)
  ∧ outcome (sic_mapping (sample_world sample_sheet) sample_collected) = Ok ()
  ∧ __data (self (final (sic_mapping (sample_world sample_sheet) sample_collected)))
    = Some 0%nat.
Proof.
  assert (reachable sample_collected) as H1 by apply reach_collect_data, reach_init.
  assert (outcome (get_data sample_collected) = Ok (Some 0%nat)) as H2
    by (vm_compute; reflexivity).
  assert (outcome (sic_mapping (sample_world sample_sheet) sample_collected) = Ok ())
    as H3 by (vm_compute; reflexivity).
  refine (conj H1 (conj H2 (conj H3 _))).
  exact (proj1 (sic_mapping_in_place (sample_world sample_sheet) sample_collected 0%nat
                  H1 H2 H3)).
Defined.

Section filter_and_mapping.
Implicit Types (st : State) (w : World) (tb : gmap string string).

Lemma filter_idem {A} (P : A → Prop) `{∀ x, Decision (P x)} (l : list A) :
  filter P (filter P l) = filter P l.
Proof.
  induction l as [|x l IH]; [done|].
  rewrite filter_cons. case_decide; [|done].
  rewrite filter_cons_True by done. by rewrite IH.
Qed.

Lemma filter_annotate tb default (P : ExtractedRow → Prop) `{∀ r, Decision (P r)}
    `{∀ r : AnnotatedRow, Decision (P (row r))} (rows : list ExtractedRow) :
  filter (λ r, P (row r)) (annotate tb default <$> rows)
  = annotate tb default <$> filter P rows.
Proof.
  induction rows as [|r rows IH]; [done|].
  rewrite fmap_cons, !filter_cons. simpl.
  repeat case_decide; try done; rewrite ?fmap_cons; by rewrite IH.
Qed.

Lemma kept_idem df : kept (kept df) = kept df.
Proof. destruct df as [rows|rows]; simpl; by rewrite filter_idem. Qed.

Lemma mapped_idem tb default df :
  mapped tb default (mapped tb default df) = mapped tb default df.
Proof. unfold mapped. simpl. by rewrite annotate_rows. Qed.

Lemma extracted_rows_kept df :
  extracted_rows (kept df) = filter (λ r, scale r ≠ "8") (extracted_rows df).
Proof.
  destruct df as [rows|rows]; simpl; [done|].
  apply (filter_fmap_row (λ r, scale r ≠ "8")).
Qed.

Lemma mapped_kept tb default df :
  mapped tb default (kept df) = kept (mapped tb default df).
Proof.
  unfold mapped. rewrite extracted_rows_kept. simpl. f_equal. symmetry.
  apply (filter_annotate tb default (λ r, scale r ≠ "8")).
Qed.

(** What the two methods make of the frame behind [self.__data]. *)
Lemma stored_frame_apply_conditions k conds st :
  stored_frame (final (apply_conditions k conds st))
  = if _extracted (self st) then kept <$> stored_frame st else stored_frame st.
Proof.
  rewrite apply_conditions_run. destruct (_extracted (self st)); [|done].
  destruct (stored_frame st) as [df|] eqn:Hdf; simpl; [|done].
  unfold stored_frame. simpl.
  by rewrite lookup_app_r, Nat.sub_diag by lia.
Qed.

Lemma stored_frame_sic_mapping w st :
  stored_frame (final (sic_mapping w st))
  = if _extracted (self st) then
      match table_and_default w (folder (self st)) with
      | Some (tb, default) => mapped tb default <$> stored_frame st
      | None => stored_frame st
      end
    else stored_frame st.
Proof.
  rewrite sic_mapping_run. unfold table_and_default.
  destruct (_extracted (self st)); [|done].
  destruct (rocsic_to_isic w _) as [tb|]; [|done].
  destruct (__data (self st)) as [l|] eqn:Hl.
  - destruct (stored_frame st) as [df|] eqn:Hdf.
    + destruct (tb !! "Else") as [default|]; simpl; [|done].
      unfold stored_frame in *. simpl. rewrite Hl in *. simpl in *.
      by rewrite list_lookup_insert_eq by by eapply lookup_lt_Some.
    + simpl. rewrite Hdf. by destruct (tb !! "Else").
  - assert (stored_frame st = None) as Hdf.
    { unfold stored_frame. by rewrite Hl. }
    rewrite Hdf. simpl. rewrite Hdf. by destruct (tb !! "Else").
Qed.

Lemma apply_conditions_self k conds st :
  _extracted (self (final (apply_conditions k conds st))) = _extracted (self st)
  ∧ folder (self (final (apply_conditions k conds st))) = folder (self st).
Proof.
  rewrite apply_conditions_run. destruct (_extracted (self st)) eqn:Hx; [|done].
  by destruct (stored_frame st).
Qed.

Lemma sic_mapping_self w st :
  self (final (sic_mapping w st)) = self st.
Proof.
  rewrite sic_mapping_run. destruct (_extracted (self st)); [|done].
  destruct (rocsic_to_isic w _) as [tb|]; [|done].
  destruct (__data (self st)), (stored_frame st); try done.
  by destruct (tb !! "Else").
Qed.
End filter_and_mapping.

(** X12. Filtering twice is filtering once: a second [apply_conditions]
    makes a frame with the rows of the first. *)
Theorem apply_conditions_idempotent (k k' : bool)
    (conds conds' : list (string * list string)) (st : State) :
  stored_frame (final (apply_conditions k' conds' (final (apply_conditions k conds st))))
  = stored_frame (final (apply_conditions k conds st)).
Proof.
  rewrite !stored_frame_apply_conditions.
  destruct (apply_conditions_self k conds st) as [-> _].
  destruct (_extracted (self st)); [|done].
  destruct (stored_frame st) as [df|]; simpl; [|done]. by rewrite kept_idem.
Qed.

(** X13. Mapping twice with the same sheet is mapping once: the second
    [sic_mapping] leaves the processor and the store as the first made
    them. *)
Theorem sic_mapping_idempotent (w : World) (st : State) :
  final (sic_mapping w (final (sic_mapping w st))) = final (sic_mapping w st).
Proof.
  pose proof (sic_mapping_run w st) as Hrun.
  destruct (_extracted (self st)) eqn:Hx;
    [|rewrite Hrun; change (final (warned () st)) with st; by rewrite Hrun].
  destruct (rocsic_to_isic w _) as [tb|e] eqn:Htb;
    [|rewrite Hrun; change (final (raised e st)) with st; by rewrite Hrun].
  destruct (__data (self st)) as [l|] eqn:Hl;
    [|rewrite Hrun; change (final (raised NoneSubscript st)) with st; by rewrite Hrun].
  destruct (stored_frame st) as [df|] eqn:Hdf;
    [|rewrite Hrun; change (final (raised NoneSubscript st)) with st; by rewrite Hrun].
  destruct (tb !! "Else") as [default|] eqn:Hd;
    [|rewrite Hrun; change (final (raised KeyError st)) with st; by rewrite Hrun].
  rewrite Hrun. cbn [final]. rewrite sic_mapping_run. cbn [self store final].
  rewrite Hx, Htb, Hl.
  unfold stored_frame in *. cbn [self store]. rewrite Hl in *. simpl in Hdf. simpl.
  rewrite list_lookup_insert_eq by by eapply lookup_lt_Some.
  rewrite Hd. simpl. rewrite annotate_rows. by rewrite list_insert_insert_eq.
Qed.

(** X14. The filter and the mapping commute: mapping the filtered frame
    and filtering the mapped frame leave the same frame behind
    [self.__data]. *)
Theorem sic_mapping_apply_conditions_commute (w : World) (k : bool)
    (conds : list (string * list string)) (st : State) :
  stored_frame (final (sic_mapping w (final (apply_conditions k conds st))))
  = stored_frame (final (apply_conditions k conds (final (sic_mapping w st)))).
Proof.
  rewrite stored_frame_sic_mapping, !stored_frame_apply_conditions,
    stored_frame_sic_mapping, sic_mapping_self.
  destruct (apply_conditions_self k conds st) as [-> ->].
  destruct (_extracted (self st)); [|done].
  destruct (table_and_default w _) as [[tb default]|]; [|done].
  destruct (stored_frame st) as [df|]; simpl; [|done].
  by rewrite mapped_kept.
Qed.

(** X15. When several rows of the sheet list a code (after padding), the
    classification of the last of them is the one in the table. *)
Theorem build_table_last_row_wins (code_of : SicRow → string)
    (sheet1 : list SicRow) (r : SicRow) (sheet2 : list SicRow) (k : string)
    (tb : gmap string string) :
  build_table code_of (sheet1 ++ r :: sheet2) = Ok tb →
  k ∈ split "," (code_of r) →
  (∀ r' k', r' ∈ sheet2 → k' ∈ split "," (code_of r') → padded k' ≠ padded k) →
  tb !! padded k = Some (ISIC_Rev3 r).
Proof.
  intros Htb Hk. revert tb Htb.
  induction sheet2 as [|r2 sheet2 IH] using rev_ind; intros tb Htb Hlater.
  - apply build_table_snoc_Ok in Htb as (tb0 & _ & Hall & ->).
    apply (proj1 (Forall_forall _ _) Hall) in Hk as Hkey. destruct Hkey as [key Hkey].
    rewrite <-(pad_code_padded _ _ Hkey). rewrite bool_decide_eq_true_2; [done|].
    apply list_elem_of_fmap. by exists k.
  - replace (sheet1 ++ r :: sheet2 ++ [r2]) with ((sheet1 ++ r :: sheet2) ++ [r2]) in Htb
      by by rewrite <-app_assoc.
    apply build_table_snoc_Ok in Htb as (tb0 & Htb0 & Hall & ->).
    rewrite bool_decide_eq_false_2.
    + apply IH; [done|]. intros r' k' Hr'. apply Hlater, elem_of_app. by left.
    + intros (k' & Hk' & Hin)%list_elem_of_fmap. symmetry in Hk'.
      apply pad_code_padded in Hk'.
      apply (Hlater r2 k'); [|done..]. apply elem_of_app. right. by left.
Qed.

Lemma build_table_last_row_wins_witness :
  build_table ROCSIC_8 ([sample_row] ++ sample_later_row :: [sample_default_row])
  = Ok sample_table_later
  ∧ "5" ∈ split "," (ROCSIC_8 sample_later_row)
  ∧ ("5" ∈ split "," (ROCSIC_8 sample_row)
     ∧ ISIC_Rev3 sample_row ≠ ISIC_Rev3 sample_later_row)
  ∧ sample_table_later !! padded "5" = Some (ISIC_Rev3 sample_later_row).
Proof.
  assert (build_table ROCSIC_8 ([sample_row] ++ sample_later_row :: [sample_default_row])
          = Ok sample_table_later) as H0 by (vm_compute; reflexivity).
  assert ("5" ∈ split "," (ROCSIC_8 sample_later_row)) as H1 by (by left).
  refine (conj H0 (conj H1 (conj (conj _ _) _))).
  - by left.
  - discriminate.
  - apply (build_table_last_row_wins ROCSIC_8 [sample_row] sample_later_row
             [sample_default_row] "5" sample_table_later H0 H1).
    intros r' k' Hr'%list_elem_of_singleton Hk'. subst r'.
    apply list_elem_of_singleton in Hk'. subst k'. vm_compute. discriminate.
Defined.

(** X16. When the table is built, a key of the form "0c", with c a digit,
    is in it exactly when some row lists the one-character code "c". A
    code that the sheet already writes with its zero, as "05", is padded
    once more and stored under "005", so it is not what a row with short
    code "05" finds. *)
Theorem padded_key_source (code_of : SicRow → string) (sheet : list SicRow) (c : ascii)
    (tb : gmap string string) :
  is_digit c → build_table code_of sheet = Ok tb →
  (is_Some (tb !! ("0" +:+ String c ""))
   ↔ ∃ r, r ∈ sheet ∧ String c "" ∈ split "," (code_of r))
  ∧ pad_code ("0" +:+ String c "") = Ok ("00" +:+ String c "").
Proof.
  intros Hc Htb. split; [|by apply pad_code_digit].
  rewrite (build_table_is_Some _ _ _ _ Htb). split.
  - intros (r & k & Hr & Hk & Hkey). exists r. split; [done|].
    apply pad_code_two_digits in Hkey; [|done]. by subst k.
  - intros (r & Hr & Hin). exists r, (String c ""). split; [done|]. split; [done|].
    by apply pad_code_two_digits.
Qed.

Lemma padded_key_source_witness :
  is_digit "5"
  ∧ build_table ROCSIC_8 sample_sheet = Ok sample_table
  ∧ (is_Some (sample_table !! "05")
     ↔ ∃ r, r ∈ sample_sheet ∧ "5" ∈ split "," (ROCSIC_8 r))
  ∧ pad_code "05" = Ok "005".
Proof.
  assert (is_digit "5") as H by by eexists.
  assert (build_table ROCSIC_8 sample_sheet = Ok sample_table) as H0
    by (vm_compute; reflexivity).
  exact (conj H (conj H0 (padded_key_source ROCSIC_8 sample_sheet "5" sample_table H H0))).
Defined.

(** X17. [some_analysis] has no guard: on a processor that has not
    collected it raises on [None] instead of printing the warning. Between
    the collection and the mapping it raises for the missing column
    'isic', nothing printed, unless the frame has exactly one row: then
    the list ['isic'] is as long as the frame and is taken for the labels
    of its rows, and one line is printed, the asset of the row under the
    label 'isic'. On a mapped frame it prints the sums by classification. *)
Theorem some_analysis_unguarded (st : State) :
  reachable st →
  (_extracted (self st) = false → some_analysis st = raised AttributeError st)
  ∧ (∀ rows, stored_frame st = Some (Extracted rows) → length rows ≠ 1%nat →
       some_analysis st = raised KeyError st)
  ∧ (∀ r, stored_frame st = Some (Extracted [r]) →
       some_analysis st
       = {| output := [PrintGroups "index" [("isic", sum64 [asset r])]];
            outcome := Ok (); final := st |})
  ∧ (∀ rows, stored_frame st = Some (Annotated rows) →
       some_analysis st
       = {| output := [PrintGroups "isic"
                         (groupby_sum ((λ r, (isic r, asset (row r))) <$> rows))];
            outcome := Ok (); final := st |}).
Proof.
  intros Hreach. rewrite some_analysis_run. split; [|split; [|split]].
  - intros Hx. unfold stored_frame.
    by rewrite (reachable_not_extracted st Hreach Hx).
  - intros rows -> Hlen. by rewrite bool_decide_eq_false_2.
  - by intros r ->.
  - by intros rows ->.
Qed.

Lemma some_analysis_unguarded_witness :
  reachable sample_collected
  ∧ some_analysis sample_collected = raised KeyError sample_collected.
Proof.
  assert (reachable sample_collected) as H by apply reach_collect_data, reach_init.
  split; [exact H|].
  refine (proj1 (proj2 (some_analysis_unguarded sample_collected H)) _ _ _).
  - vm_compute. reflexivity.
  - vm_compute. discriminate.
Defined.

Section sums.
Implicit Types (l : list Z) (pairs : list (string * Z)) (k : string)
  (keys : list string).

Lemma wrap64_add_l a b : wrap64 (wrap64 a + b) = wrap64 (a + b).
Proof.
  unfold wrap64. f_equal.
  replace ((a + 2 ^ 63) mod 2 ^ 64 - 2 ^ 63 + b + 2 ^ 63)
    with ((a + 2 ^ 63) mod 2 ^ 64 + b) by lia.
  rewrite Zplus_mod_idemp_l. f_equal. lia.
Qed.

Lemma wrap64_add_r a b : wrap64 (a + wrap64 b) = wrap64 (a + b).
Proof. by rewrite Z.add_comm, wrap64_add_l, Z.add_comm. Qed.

Lemma foldl_wrap64 acc l :
  foldl (λ acc a, wrap64 (acc + a)) (wrap64 acc) l = wrap64 (acc + total l).
Proof.
  revert acc. induction l as [|a l IH]; intros acc; simpl.
  - by rewrite Z.add_0_r.
  - rewrite wrap64_add_l, IH. f_equal. lia.
Qed.

(** The int64 sum is the exact sum, wrapped once. *)
Lemma sum64_total l : sum64 l = wrap64 (total l).
Proof.
  unfold sum64. change 0 with (wrap64 0) at 1. by rewrite foldl_wrap64.
Qed.

Lemma wrap64_total_wrap (f : string → Z) keys :
  wrap64 (total ((λ k, wrap64 (f k)) <$> keys)) = wrap64 (total (f <$> keys)).
Proof.
  induction keys as [|k keys IH]; [done|]. rewrite !fmap_cons.
  change (total (?x :: ?l)) with (x + total l).
  by rewrite wrap64_add_l, <-(wrap64_add_r (f k)), IH, wrap64_add_r.
Qed.

Lemma group_cons k k0 a pairs :
  group k ((k0, a) :: pairs) = if decide (k0 = k) then a :: group k pairs else group k pairs.
Proof. unfold group. rewrite filter_cons. simpl. by case_decide. Qed.

Lemma total_cons x l : total (x :: l) = x + total l.
Proof. done. Qed.

Lemma total_indicator_out k0 a keys :
  k0 ∉ keys → total ((λ k, if decide (k0 = k) then a else 0) <$> keys) = 0.
Proof.
  induction keys as [|k keys IH]; [done|].
  intros [Hne Hk]%not_elem_of_cons.
  by rewrite fmap_cons, total_cons, decide_False, IH by done.
Qed.

Lemma total_indicator k0 a keys :
  NoDup keys → k0 ∈ keys →
  total ((λ k, if decide (k0 = k) then a else 0) <$> keys) = a.
Proof.
  intros Hnd. induction Hnd as [|k keys Hk Hnd IH]; intros Hin.
  - by apply elem_of_nil in Hin.
  - rewrite fmap_cons, total_cons. apply elem_of_cons in Hin as [->|Hin].
    + rewrite decide_True, total_indicator_out by done. lia.
    + rewrite decide_False by (intros ->; done). by rewrite IH.
Qed.

Lemma total_zero keys : total ((λ _ : string, 0) <$> keys) = 0.
Proof. induction keys as [|k keys IH]; [done|]. by rewrite fmap_cons, total_cons, IH. Qed.

Lemma total_add (f g : string → Z) keys :
  total ((λ k, f k + g k) <$> keys) = total (f <$> keys) + total (g <$> keys).
Proof.
  induction keys as [|k keys IH]; [done|]. rewrite !fmap_cons, !total_cons, IH. lia.
Qed.

(** The groups of a complete list of distinct keys add up to all. *)
Lemma total_groups keys pairs :
  NoDup keys → (∀ k, k ∈ pairs.*1 → k ∈ keys) →
  total ((λ k, total (group k pairs)) <$> keys) = total pairs.*2.
Proof.
  intros Hnd. induction pairs as [|[k0 a] pairs IH]; intros Hall.
  - apply total_zero.
  - rewrite fmap_cons, total_cons. simpl.
    rewrite <-IH by (intros k Hk; apply Hall; by right).
    rewrite <-(total_indicator k0 a keys Hnd) at 1 by (apply Hall; by left).
    rewrite <-total_add. apply (f_equal total), list_fmap_ext.
    intros _ k _. rewrite group_cons. by case_decide.
Qed.

Lemma groupby_sum_keys pairs :
  (groupby_sum pairs).*1 = merge_sort String.le (remove_dups pairs.*1).
Proof.
  unfold groupby_sum. rewrite <-list_fmap_compose.
  apply list_fmap_id.
Qed.

Lemma groupby_keys_NoDup pairs : NoDup (merge_sort String.le (remove_dups pairs.*1)).
Proof. rewrite merge_sort_Permutation. apply NoDup_remove_dups. Qed.

Lemma groupby_keys_elem pairs k :
  k ∈ merge_sort String.le (remove_dups pairs.*1) ↔ k ∈ pairs.*1.
Proof. rewrite merge_sort_Permutation. apply elem_of_remove_dups. Qed.
End sums.

(** X19. The sums of the table add up, in int64, to the int64 sum of the
    assets of all rows; and a group whose exact sum fits in int64 has that
    exact sum in the table, whatever the partial sums did. *)
Theorem groupby_sum_conserves (pairs : list (string * Z)) :
  sum64 (groupby_sum pairs).*2 = sum64 pairs.*2
  ∧ ∀ k v, (k, v) ∈ groupby_sum pairs → in_int64 (total (group k pairs)) = true →
           v = total (group k pairs).
Proof.
  split.
  - rewrite !sum64_total. unfold groupby_sum. rewrite <-list_fmap_compose.
    rewrite (list_fmap_ext _ (λ k, wrap64 (total (group k pairs))))
      by (intros; simpl; apply sum64_total).
    rewrite (wrap64_total_wrap (λ k, total (group k pairs))).
    rewrite total_groups; [done|apply groupby_keys_NoDup|].
    intros k. apply groupby_keys_elem.
  - intros k v (k' & [= -> ->] & _)%list_elem_of_fmap Hfit.
    rewrite sum64_total. by apply wrap64_id.
Qed.

Section pipeline.
Implicit Types (st : State) (w : World).

Lemma run_bind_Ok {A B} (m : M A) (k : A → M B) st a :
  outcome (m st) = Ok a →
  (m ≫= k) st
  = {| output := output (m st) ++ output (k a (final (m st)));
       outcome := outcome (k a (final (m st)));
       final := final (k a (final (m st))) |}.
Proof. intros H. by rewrite run_bind, H. Qed.

Lemma annotated_pairs tb default (rows : list ExtractedRow) :
  (λ r, (isic r, asset (row r))) <$> (annotate tb default <$> rows)
  = (λ r, (from_option id default (tb !! roc_sic r), asset r)) <$> rows.
Proof. by rewrite <-list_fmap_compose. Qed.
End pipeline.

(** X20. One turn of the loop of [main], for a folder of a supported year
    that exists and has files that all extract, with a sheet that has the
    default: it succeeds, and the table it prints last has, for every
    classification, the int64 sum of the assets of the rows of all files
    whose scale is not "8", each row classified by its short code or by
    the default. The frame left behind holds those rows. *)
Theorem main_body_sums (w : World) (st : State) (fld : string)
    (listing : list DirEntry) (frames : list (list ExtractedRow))
    (tb : gmap string string) (default : string) :
  is_Some (year_of fld) →
  listdir w (getcwd w +:+ __slash_maker (__init__ "工商普查原始" fld)) = Some listing →
  target_files listing ≠ [] →
  extract_files fld (target_files listing) = Ok frames →
  rocsic_to_isic w fld = Ok tb → tb !! "Else" = Some default →
  let rows := filter (λ r, scale r ≠ "8") (concat frames) in
  outcome (main_body w fld st) = Ok ()
  ∧ last (output (main_body w fld st))
    = Some (PrintGroups "isic"
              (groupby_sum ((λ r, (from_option id default (tb !! roc_sic r), asset r))
                              <$> rows)))
  ∧ stored_frame (final (main_body w fld st))
    = Some (Annotated (annotate tb default <$> rows)).
Proof.
  intros Hyear Hdir Hfiles Hframes Htb Hdefault rows.
  set (st0 := {| self := __init__ "工商普查原始" fld; store := store st |}).
  destruct (collect_data_success w st0 listing frames eq_refl Hyear Hdir Hfiles Hframes)
    as (Hc1 & Hc2 & Hc3).
  set (st1 := final (collect_data w st0)) in *.
  assert (stored_frame st1 = Some (Extracted (concat frames))) as Hdf1.
  { rewrite Hc2. unfold stored_frame. simpl.
    by rewrite lookup_app_r, Nat.sub_diag by lia. }
  assert (sic_mapping w st1
          = {| output := []; outcome := Ok ();
               final := {| self := self st1;
                           store := <[length (store st) :=
                                        Annotated (annotate tb default <$> concat frames)]>
                                      (store st1) |} |}) as Hs.
  { rewrite sic_mapping_run, Hdf1. rewrite Hc2. simpl. by rewrite Htb, Hdefault. }
  set (st2 := final (sic_mapping w st1)) in *.
  assert (_extracted (self st2) = true) as Hx2
    by (unfold st2; rewrite Hs; simpl; by rewrite Hc2).
  assert (stored_frame st2 = Some (Annotated (annotate tb default <$> concat frames)))
    as Hdf2.
  { unfold st2. rewrite Hs. unfold stored_frame. rewrite Hc2. simpl.
    apply list_lookup_insert_eq. rewrite length_app. simpl. lia. }
  pose proof (apply_conditions_run false [("scale", ["!="; "8"])] st2) as Ha.
  rewrite Hx2, Hdf2 in Ha.
  set (st3 := final (apply_conditions false [("scale", ["!="; "8"])] st2)) in *.
  assert (stored_frame st3 = Some (Annotated (annotate tb default <$> rows))) as Hdf3.
  { unfold st3. rewrite Ha. unfold stored_frame. simpl.
    rewrite lookup_app_r, Nat.sub_diag by lia. simpl. do 2 f_equal.
    apply (filter_annotate tb default (λ r, scale r ≠ "8")). }
  pose proof (some_analysis_run st3) as Hg. rewrite Hdf3, annotated_pairs in Hg.
  assert (main_body w fld st
          = {| output := output (collect_data w st0)
                 ++ [PrintGroups "isic"
                       (groupby_sum
                          ((λ r, (from_option id default (tb !! roc_sic r), asset r))
                             <$> rows))];
               outcome := Ok (); final := st3 |}) as ->.
  { unfold main_body.
    rewrite (run_bind_Ok (set_self _) _ st ()) by done.
    change (final (set_self _ st)) with st0. simpl output at 1.
    rewrite (run_bind_Ok (collect_data w) _ st0 ()) by done. fold st1.
    rewrite (run_bind_Ok (sic_mapping w) _ st1 ()) by by rewrite Hs. fold st2.
    rewrite (run_bind_Ok (apply_conditions _ _) _ st2 ()) by by rewrite Ha.
    fold st3. rewrite Hg. rewrite Hs, Ha. cbn [output outcome final app]. done. }
  simpl. split; [done|]. split; [apply last_snoc|done].
Qed.

Lemma main_body_sums_witness :
  outcome (main_body (sample_world sample_sheet) "95y" sample_start) = Ok ()
  ∧ last (output (main_body (sample_world sample_sheet) "95y" sample_start))
    = Some (PrintGroups "isic" [("A", 7884)]).
Proof.
  assert (is_Some (year_of "95y")) as H1 by by eexists.
  pose proof (main_body_sums (sample_world sample_sheet) sample_start "95y"
                _ _ sample_table "Z" H1 eq_refl
                ltac:(vm_compute; discriminate) ltac:(vm_compute; reflexivity)
                ltac:(vm_compute; reflexivity) ltac:(vm_compute; reflexivity))
    as (Hm1 & Hm2 & _).
  split; [exact Hm1|]. rewrite Hm2. vm_compute. reflexivity.
Defined.

Section strip.
Implicit Types (c : ascii) (cs : list ascii) (s : string).

Lemma lstrip_char_replicate c n cs :
  lstrip_char c (replicate n c ++ cs) = lstrip_char c cs.
Proof.
  induction n as [|n IH]; [done|]. simpl. by rewrite bool_decide_eq_true_2.
Qed.

Lemma lstrip_char_head c cs : head cs ≠ Some c → lstrip_char c cs = cs.
Proof.
  destruct cs as [|c' cs]; [done|]. simpl. intros H.
  rewrite bool_decide_eq_false_2; [done|]. by intros ->.
Qed.

Lemma head_reverse cs : head (reverse cs) = last cs.
Proof.
  induction cs as [|c cs IH] using rev_ind; [done|].
  by rewrite reverse_app, last_snoc.
Qed.

(** Stripping [c] from a name that is wrapped in copies of [c]. *)
Lemma strip_char_wrapped c n m s :
  head (chars s) ≠ Some c → last (chars s) ≠ Some c →
  strip_char c (wrapped c n m s) = s.
Proof.
  intros Hh Hl. unfold strip_char, wrapped. rewrite chars_str.
  rewrite lstrip_char_replicate.
  destruct (chars s) as [|c0 cs] eqn:E.
  - rewrite app_nil_l, <-(app_nil_r (replicate m c)), lstrip_char_replicate.
    apply chars_inj. by rewrite E.
  - rewrite (lstrip_char_head c ((c0 :: cs) ++ _)) by done.
    rewrite reverse_app, reverse_replicate, lstrip_char_replicate.
    rewrite lstrip_char_head by by rewrite head_reverse.
    rewrite reverse_involutive, <-E. apply str_chars.
Qed.

(** Stripping [c] from a name that neither begins nor ends with it. *)
Lemma strip_char_id c s :
  head (chars s) ≠ Some c → last (chars s) ≠ Some c → strip_char c s = s.
Proof.
  intros Hh Hl. assert (wrapped c 0 0 s = s) as E.
  { unfold wrapped. simpl. by rewrite app_nil_r, str_chars. }
  rewrite <-E at 1. by apply strip_char_wrapped.
Qed.

Lemma head_between c n m cs :
  head (replicate n c ++ cs ++ replicate m c) ∈ [Some c; head cs].
Proof.
  destruct n; simpl; [|by left].
  destruct cs; simpl; [|by right; left].
  destruct m; simpl; [by right; left|by left].
Qed.

Lemma head_wrapped c n m s :
  head (chars (wrapped c n m s)) ∈ [Some c; head (chars s)]
  ∧ last (chars (wrapped c n m s)) ∈ [Some c; last (chars s)].
Proof.
  unfold wrapped. rewrite chars_str. split; [apply head_between|].
  rewrite <-!head_reverse, !reverse_app, !reverse_replicate, <-app_assoc.
  apply head_between.
Qed.

Lemma slash_strip c n m s :
  c ∈ ["/"%char; backslash] → bare s →
  strip_char "/" (strip_char backslash (wrapped c n m s)) = s.
Proof.
  intros Hc [Hh Hl].
  assert (head (chars s) ≠ Some "/"%char ∧ head (chars s) ≠ Some backslash
          ∧ last (chars s) ≠ Some "/"%char ∧ last (chars s) ≠ Some backslash)
    as (H1 & H2 & H3 & H4).
  { repeat split; intros E; rewrite E in *; [apply Hh|apply Hh|apply Hl|apply Hl];
      by (left || (right; left)). }
  apply elem_of_cons in Hc as [->|Hc].
  - destruct (head_wrapped "/" n m s) as [Hhw Hlw].
    rewrite (strip_char_id backslash).
    + by apply strip_char_wrapped.
    + intros E. rewrite E in Hhw.
      apply elem_of_cons in Hhw as [[=]|Hhw].
      apply list_elem_of_singleton in Hhw. by rewrite <-Hhw in H2.
    + intros E. rewrite E in Hlw.
      apply elem_of_cons in Hlw as [[=]|Hlw].
      apply list_elem_of_singleton in Hlw. by rewrite <-Hlw in H4.
  - apply list_elem_of_singleton in Hc as ->.
    rewrite strip_char_wrapped by done. by apply strip_char_id.
Qed.
End strip.

(** X21. The path that [__slash_maker] builds does not depend on slashes
    around the two names: when each name is a bare name, possibly between
    some slashes or between some backslashes, the path is a backslash, the
    bare upper folder, a backslash, the bare folder and a backslash. *)
Theorem slash_maker_bare_names (uf f : string) (c1 c2 : ascii) (n1 m1 n2 m2 : nat)
    (flag : bool) (data : option nat) :
  c1 ∈ ["/"%char; backslash] → c2 ∈ ["/"%char; backslash] → bare uf → bare f →
  __slash_maker {| upperlayer_folder := wrapped c1 n1 m1 uf;
                   folder := wrapped c2 n2 m2 f;
                   _extracted := flag; __data := data |}
  = String backslash uf +:+ String backslash f +:+ String backslash "".
Proof.
  intros Hc1 Hc2 Huf Hf. unfold __slash_maker. simpl.
  by rewrite !slash_strip.
Qed.

Lemma slash_maker_bare_names_witness :
  bare "data" ∧ bare "95y"
  ∧ __slash_maker {| upperlayer_folder := wrapped "/" 1 1 "data";
                     folder := wrapped backslash 0 2 "95y";
                     _extracted := false; __data := None |}
    = String backslash "data" +:+ String backslash "95y" +:+ String backslash "".
Proof.
  assert (bare "data") as H1 by (split; by_computation).
  assert (bare "95y") as H2 by (split; by_computation).
  refine (conj H1 (conj H2 _)).
  apply slash_maker_bare_names; [by left|by right; left|done..].
Defined.



Section wrap.
Lemma wrap64_mul_l a b : wrap64 (wrap64 a * b) = wrap64 (a * b).
Proof.
  unfold wrap64. f_equal.
  replace (((a + 2 ^ 63) mod 2 ^ 64 - 2 ^ 63) * b + 2 ^ 63)
    with ((a + 2 ^ 63) mod 2 ^ 64 * b + (2 ^ 63 - 2 ^ 63 * b)) by lia.
  rewrite <-Zplus_mod_idemp_l, Zmult_mod_idemp_l, Zplus_mod_idemp_l.
  f_equal. lia.
Qed.

(** The arithmetic of the convertor is exact arithmetic, wrapped once. *)
Lemma zd_combine_wrap v sg d :
  zd_combine (wrap64 (v * 10)) (sg, d) = wrap64 (sg * (10 * v + d)).
Proof.
  unfold zd_combine. simpl.
  rewrite wrap64_add_l, wrap64_mul_l. f_equal. lia.
Qed.

Lemma to_int64_digits_overflow (ds : string) :
  chars ds ≠ [] → Forall is_digit (chars ds) → len ds ≤ int_max_str_digits →
  int64_max < decimal (chars ds) →
  to_int64 ds = Raise OverflowError.
Proof.
  intros Hne Hd Hlen Hbig. unfold to_int64. rewrite int_decimal by done. simpl.
  destruct (in_int64 _) eqn:E; [|done].
  apply in_int64_iff in E. unfold int64_max in Hbig. lia.
Qed.

Lemma to_int64_too_many_digits (ds : string) :
  Forall is_digit (chars ds) → int_max_str_digits < len ds →
  to_int64 ds = Raise TooManyDigits.
Proof. intros Hd Hlen. unfold to_int64. by rewrite int_too_many_digits. Qed.
End wrap.

(** X23. Beyond the range that the convertor handles exactly it has three
    behaviours. More than 4300 leading digits are refused by the integer
    conversion. Up to 4300 digits whose value alone exceeds int64 raise
    OverflowError. When the leading digits fit, it never raises, whatever
    the product by ten does: it returns the exact value
    sign * (10 * leading + digit) wrapped around to 64 bits, which is not
    the exact value once that is out of int64. *)
Theorem zd_decode_overflow (ds : string) (c : ascii) (sg d : Z) :
  chars ds ≠ [] → Forall is_digit (chars ds) → zd_map !! String c "" = Some (sg, d) →
  (int_max_str_digits < len ds →
   zd_decode (ds +:+ String c "") = Raise TooManyDigits)
  ∧ (len ds ≤ int_max_str_digits → int64_max < decimal (chars ds) →
     zd_decode (ds +:+ String c "") = Raise OverflowError)
  ∧ (len ds ≤ int_max_str_digits → decimal (chars ds) ≤ int64_max →
     zd_decode (ds +:+ String c "") = Ok (wrap64 (sg * (10 * decimal (chars ds) + d)))
     ∧ (in_int64 (sg * (10 * decimal (chars ds) + d)) = false →
        zd_decode (ds +:+ String c "") ≠ Ok (sg * (10 * decimal (chars ds) + d)))).
Proof.
  intros Hne Hdig Hsym. rewrite zd_decode_snoc. split; [|split].
  - intros Hlen. by rewrite to_int64_too_many_digits.
  - intros Hlen Hbig. by rewrite to_int64_digits_overflow.
  - intros Hlen Hfit. rewrite to_int64_digits by done. simpl. rewrite Hsym.
    rewrite zd_combine_wrap. split; [done|].
    intros Hout [= E]. rewrite <-E, wrap64_range in Hout. done.
Qed.

Lemma zd_decode_overflow_witness :
  chars "999999999999999999" ≠ [] ∧ Forall is_digit (chars "999999999999999999")
  ∧ zd_map !! "D" = Some (1, 4)
  ∧ zd_decode "999999999999999999D"
    = Ok (wrap64 (1 * (10 * decimal (chars "999999999999999999") + 4))).
Proof.
  assert (chars "999999999999999999" ≠ []) as H1 by discriminate.
  assert (Forall is_digit (chars "999999999999999999")) as H2 by by_computation.
  assert (zd_map !! "D" = Some (1, 4)) as H3 by (vm_compute; reflexivity).
  refine (conj H1 (conj H2 (conj H3 _))).
  refine (proj1 (proj2 (proj2 (zd_decode_overflow "999999999999999999" "D"%char 1 4
                                 H1 H2 H3)) _ _)).
  - vm_compute. discriminate.
  - vm_compute. discriminate.
Defined.

Section plain.
Implicit Types (ds : string).

Lemma int_minus ds :
  chars ds ≠ [] → Forall is_digit (chars ds) →
  int ("-" +:+ ds) = if int_max_str_digits <? len ds then Raise TooManyDigits
                     else Ok (- decimal (chars ds)).
Proof.
  intros Hne Hd. unfold int, len. rewrite chars_app.
  change (chars "-") with ["-"%char]. cbn [app forallb].
  rewrite digits_ascii by done. change (ord "-" <? 128) with true. cbn [andb].
  destruct (chars ds) as [|c cs] eqn:E; [done|].
  rewrite PyLong_FromString_minus by by inversion Hd.
  rewrite int_digits_all by auto. rewrite Z.add_0_l.
  destruct (_ <? _); [done|].
  destruct (Z.eqb_spec (Z.of_nat (length (c :: cs))) 0) as [H0|_]; [done|].
  simpl lstrip. rewrite bool_decide_eq_true_2 by done.
  unfold decimal. f_equal; lia.
Qed.
End plain.

(** X24. A plain-integer field (year 90) of decimal digits is read as its
    decimal value, leading zeros included, and with a minus sign before
    the digits as the opposite; a value outside int64 raises
    OverflowError, more than 4300 digits are refused before that, and a
    field with no digit is an invalid literal. *)
Theorem to_int64_decimal (ds : string) :
  chars ds ≠ [] → Forall is_digit (chars ds) →
  to_int64 ds = (if decide (int_max_str_digits < len ds) then Raise TooManyDigits
                 else if decide (decimal (chars ds) ≤ int64_max)
                 then Ok (decimal (chars ds)) else Raise OverflowError)
  ∧ to_int64 ("-" +:+ ds)
    = (if decide (int_max_str_digits < len ds) then Raise TooManyDigits
       else if decide (- decimal (chars ds) < int64_min)
       then Raise OverflowError else Ok (- decimal (chars ds)))
  ∧ to_int64 "" = Raise InvalidLiteral ∧ to_int64 "-" = Raise InvalidLiteral.
Proof.
  intros Hne Hd. pose proof (decimal_bounds (chars ds)) as [Hpos _].
  split; [|split; [|by vm_compute]].
  - case_decide; [by apply to_int64_too_many_digits|]. case_decide.
    + apply to_int64_digits; [done..|lia|done].
    + apply to_int64_digits_overflow; [done..|lia|lia].
  - unfold to_int64. rewrite int_minus by done.
    case_decide as Hlen.
    + destruct (Z.ltb_spec int_max_str_digits (len ds)); [done|lia].
    + destruct (Z.ltb_spec int_max_str_digits (len ds)); [lia|]. simpl.
      case_decide as Hlow.
      * destruct (in_int64 _) eqn:E; [|done]. apply in_int64_iff in E.
        unfold int64_min in Hlow. lia.
      * rewrite (proj2 (in_int64_iff _)); [done|].
        unfold int64_min in Hlow. lia.
Qed.

Lemma to_int64_decimal_witness :
  chars "000000000001234" ≠ [] ∧ Forall is_digit (chars "000000000001234")
  ∧ to_int64 "000000000001234"
    = (if decide (int_max_str_digits < len "000000000001234") then Raise TooManyDigits
       else if decide (decimal (chars "000000000001234") ≤ int64_max)
       then Ok (decimal (chars "000000000001234")) else Raise OverflowError).
Proof.
  assert (chars "000000000001234" ≠ []) as H1 by discriminate.
  assert (Forall is_digit (chars "000000000001234")) as H2 by by_computation.
  exact (conj H1 (conj H2 (proj1 (to_int64_decimal "000000000001234" H1 H2)))).
Defined.

(** X25. The frames that a collection reads hold one row for every record
    of every file: each frame is what [_extract] returns for the records
    of its file and has as many rows as the file has records. *)
Theorem extract_files_rows (fld : string) (files : list DirEntry)
    (frames : list (list ExtractedRow)) :
  extract_files fld files = Ok frames →
  Forall2 (λ f frame, _extract fld (records_of f) = Ok frame
                      ∧ length frame = length (records_of f)) files frames
  ∧ length (concat frames) = sum_list ((λ f, length (records_of f)) <$> files).
Proof.
  intros H%mapM_Ok.
  assert (Forall2 (λ f frame, _extract fld (records_of f) = Ok frame
                              ∧ length frame = length (records_of f)) files frames)
    as HF.
  { induction H as [|f frame files frames Hf _ IH]; constructor; [|done].
    split; [done|].
    destruct (year_of fld) as [y|] eqn:Hy; [|by rewrite _extract_unsupported in Hf].
    rewrite (extract_schema_eq _ _ _ Hy) in Hf.
    apply extract_by_schema_Ok in Hf as (assets & _ & Hlen & ->).
    rewrite length_zip_with. lia. }
  split; [done|]. clear H.
  induction HF as [|f frame files frames [_ Hlen] _ IH]; [done|].
  simpl. rewrite length_app, Hlen, IH. done.
Qed.

Lemma extract_files_rows_witness :
  extract_files "95y" [census_file "a" [record95 "3" "0512" "00000000000788D"]]
  = Ok [[ {| scale := "3"; primary := "0512"; roc_sic := "05"; asset := 7884 |} ]]
  ∧ length (concat [[ {| scale := "3"; primary := "0512"; roc_sic := "05";
                         asset := 7884 |} ]])
    = sum_list ((λ f, length (records_of f))
                  <$> [census_file "a" [record95 "3" "0512" "00000000000788D"]]).
Proof.
  assert (extract_files "95y" [census_file "a" [record95 "3" "0512" "00000000000788D"]]
          = Ok [[ {| scale := "3"; primary := "0512"; roc_sic := "05"; asset := 7884 |} ]])
    as H by (vm_compute; reflexivity).
  exact (conj H (proj2 (extract_files_rows _ _ _ H))).
Defined.

(** X26. The body of the loop that fills the table, by the characters of
    the code. A code of decimal digits, of any script and at most 4300 of
    them, is read as its decimal value: below 10 it gets one "0" in
    front, from 10 on it stays. A code that [isnumeric] refuses stays as
    it is. Any other code, one that [isnumeric] accepts although a
    character of it is no decimal digit or although it has more than 4300
    digits, makes [int] raise its ValueError. So "5" becomes "05" and
    the full-width five gets its "0" as well, "12" and "Else" stay, and
    the superscript two raises. *)
Theorem pad_code_rule (k : string) :
  match decimal_value k with
  | Some v => isnumeric k = true ∧ pad_code k = Ok (if v <? 10 then "0" +:+ k else k)
  | None =>
      if isnumeric k
      then ∃ e, pad_code k = Raise e ∧ (e = InvalidLiteral ∨ e = TooManyDigits)
      else pad_code k = Ok k
  end
  ∧ pad_code "5" = Ok "05" ∧ pad_code "５" = Ok "0５"
  ∧ pad_code "12" = Ok "12" ∧ pad_code "Else" = Ok "Else"
  ∧ pad_code "" = Ok ""
  ∧ isnumeric "²" = true ∧ pad_code "²" = Raise InvalidLiteral.
Proof.
  split; [|by vm_compute].
  pose proof (pad_code_spec k) as H.
  destruct (decimal_value k) as [v|] eqn:Hv; [|done].
  split; [by eapply decimal_value_numeric|done].
Qed.

(** X27. On a processor that has collected, [sic_mapping] raises the
    ValueError of [int] exactly when some code of the year's column is
    accepted by [isnumeric] without being a number of at most 4300
    decimal digits; it raises it while the table is filled, before the
    frame is touched: nothing is printed and nothing changes. *)
Theorem sic_mapping_value_error (w : World) (st : State) (col : SicRow → string) :
  reachable st → _extracted (self st) = true →
  code_column (folder (self st)) = Ok col →
  (∃ r k, r ∈ sic_tb w ∧ k ∈ split "," (col r)
          ∧ isnumeric k = true ∧ decimal_value k = None)
  ↔ ∃ e, sic_mapping w st = raised e st ∧ (e = InvalidLiteral ∨ e = TooManyDigits).
Proof.
  intros Hreach Hx Hcol.
  assert (∀ k e, pad_code k = Raise e →
            isnumeric k = true ∧ decimal_value k = None
            ∧ (e = InvalidLiteral ∨ e = TooManyDigits)) as Hraise.
  { intros k e Hk. pose proof (pad_code_spec k) as H. rewrite Hk in H.
    destruct (decimal_value k); [done|]. destruct (isnumeric k); [|done].
    destruct H as (e' & [= <-] & ?). done. }
  rewrite sic_mapping_run, Hx. unfold rocsic_to_isic. rewrite Hcol. simpl.
  destruct (build_table col (sic_tb w)) as [tb|e] eqn:Hbuild.
  - split.
    + intros (r & k & Hr & Hk & Hnum & Hv).
      destruct (build_table_Ok_codes _ _ _ Hbuild r k Hr Hk) as [key Hkey].
      destruct (pad_code_raises k Hnum Hv) as (e & He & _). congruence.
    + intros (e & Hrun & He). exfalso.
      destruct (__data (self st)), (stored_frame st); try destruct (tb !! "Else");
        injection Hrun as Hrun; destruct He; congruence.
  - apply build_table_Raise in Hbuild as (r & k & Hr & Hk & Hpad).
    destruct (Hraise k e Hpad) as (Hnum & Hv & He). split.
    + intros _. by exists e.
    + intros _. by exists r, k.
Qed.

Lemma sic_mapping_value_error_witness :
  reachable sample_collected
  ∧ _extracted (self sample_collected) = true
  ∧ code_column (folder (self sample_collected)) = Ok ROCSIC_8
  ∧ ∃ e, sic_mapping (sample_world [superscript_row; sample_default_row])
           sample_collected
         = raised e sample_collected
         ∧ (e = InvalidLiteral ∨ e = TooManyDigits).
Proof.
  assert (reachable sample_collected) as H1 by apply reach_collect_data, reach_init.
  assert (_extracted (self sample_collected) = true) as H2 by (vm_compute; reflexivity).
  assert (code_column (folder (self sample_collected)) = Ok ROCSIC_8) as H3
    by (vm_compute; reflexivity).
  refine (conj H1 (conj H2 (conj H3 _))).
  apply (proj1 (sic_mapping_value_error
                  (sample_world [superscript_row; sample_default_row])
                  sample_collected ROCSIC_8 H1 H2 H3)).
  exists superscript_row, "²". split; [by left|]. split; [by left|].
  split; vm_compute; reflexivity.
Defined.

(** X28. On a processor that has collected, the column of the sheet that
    [sic_mapping] reads is decided by the year of the folder: 'ROCSIC_6'
    for 85, 'ROCSIC_7' for 90, 'ROCSIC_8' for 95. One of the three
    branches is always taken there, so [code_using] is never read
    unassigned; and whatever the other two columns hold has no effect on
    the run. *)
Theorem sic_mapping_year_column (w : World) (st : State) :
  reachable st → _extracted (self st) = true →
  ∃ y, year_of (folder (self st)) = Some y
       ∧ rocsic_to_isic w (folder (self st)) = build_table (year_column y) (sic_tb w)
       ∧ outcome (sic_mapping w st) ≠ Raise UnboundLocalError
       ∧ ∀ w', year_column y <$> sic_tb w' = year_column y <$> sic_tb w →
               ISIC_Rev3 <$> sic_tb w' = ISIC_Rev3 <$> sic_tb w →
               sic_mapping w' st = sic_mapping w st.
Proof.
  intros Hreach Hx.
  destruct (reachable_extracted st Hreach Hx) as ([y Hy] & l & df & Hl & Hdf & _).
  exists y. split; [done|].
  assert (code_column (folder (self st)) = Ok (year_column y)) as Hcol.
  { unfold code_column. pose proof (year_of_prefix _ _ Hy) as Hp.
    unfold year_of in Hy. destruct y; repeat case_bool_decide; simplify_eq; done. }
  assert (∀ w0, rocsic_to_isic w0 (folder (self st))
                = build_table (year_column y) (sic_tb w0)) as Htb.
  { intros w0. unfold rocsic_to_isic. by rewrite Hcol. }
  split; [apply Htb|]. split.
  - rewrite sic_mapping_run, Hx, Htb, Hl. unfold stored_frame. rewrite Hl. simpl.
    rewrite Hdf.
    destruct (build_table (year_column y) (sic_tb w)) as [tb|e] eqn:Hbuild.
    + by destruct (tb !! "Else").
    + apply build_table_Raise in Hbuild as (r & k & _ & _ & Hk).
      pose proof (pad_code_spec k) as H. rewrite Hk in H.
      destruct (decimal_value k); [done|]. destruct (isnumeric k); [|done].
      destruct H as (e' & [= <-] & [-> | ->]); done.
  - intros w' Hcodes Hisic. rewrite !sic_mapping_run, !Htb.
    by rewrite (build_table_columns _ (sic_tb w') (sic_tb w)).
Qed.

Lemma sic_mapping_year_column_witness :
  reachable sample_collected
  ∧ _extracted (self sample_collected) = true
  ∧ ∃ y, year_of (folder (self sample_collected)) = Some y
         ∧ rocsic_to_isic (sample_world sample_sheet) (folder (self sample_collected))
           = build_table (year_column y) sample_sheet.
Proof.
  assert (reachable sample_collected) as H1 by apply reach_collect_data, reach_init.
  assert (_extracted (self sample_collected) = true) as H2 by (vm_compute; reflexivity).
  refine (conj H1 (conj H2 _)).
  destruct (sic_mapping_year_column (sample_world sample_sheet) sample_collected H1 H2)
    as (y & Hy & Htb & _).
  by exists y.
Defined.
